(** * commentator: a shallow embedding of [commentator.py]

    The program asks a text-generation service to add docstrings and type
    annotations to the functions of a Python file, checks each answer
    against the original function on Python's syntax trees, and splices
    accepted answers back into the file.

    The development follows the source file top-down: the syntax trees of
    Python's [ast] module (the subset used below), the functions of
    [commentator.py] on them, the driver [commentate] in a small state and
    exception monad, and then the properties. *)

From Stdlib Require Import String Ascii ZArith Lia Bool.
From stdpp Require Import base option list strings pretty gmap.

Set Warnings "-register-all".
Local Open Scope string_scope.

(** ** Exceptions and results *)

(** The exceptions the modelled code can raise.  [IndentationError] is a
    subclass of [SyntaxError], and [UnboundLocalError] is the subclass of
    [NameError] Python raises for a local variable read before any
    assignment. *)
Inductive exn :=
  | SyntaxError
  | IndentationError
  | ValueError
  | RecursionError
  | TypeError
  | IndexError
  | AttributeError
  | UnboundLocalError
  | OpenAIError
  | SystemExit (code : Z).

(** What a call gives: a value, or an exception on its way up. *)
Inductive result (A : Type) :=
  | Ok (value : A)
  | Raise (e : exn).
Arguments Ok {A} value.
Arguments Raise {A} e.

Definition bind_result {A B} (r : result A) (k : A -> result B) : result B :=
  match r with
  | Ok a => k a
  | Raise e => Raise e
  end.

Notation "'let?' x ':=' r 'in' k" := (bind_result r (fun x => k))
  (at level 10, x name, r at level 200, k at level 200, only parsing).

(** ** Syntax trees: the part of Python's [ast] the program looks at *)

Inductive constant :=
  | CStr (s : string)
  | CInt (n : Z)
  | CBool (b : bool)
  | CNone.

Inductive unaryop := USub | UNot.
Inductive operator := OpAdd | OpSub | OpMult.
Inductive cmpop := CmpEq | CmpNotEq | CmpLt | CmpLtE | CmpGt | CmpGtE.

(** Expressions.  [Constant (CStr s)] is what the source calls [ast.Str],
    and its field [s] is the text [s]. *)
Inductive expr :=
  | Constant (value : constant)
  | Name (id : string)
  | UnaryOp (op : unaryop) (operand : expr)
  | BinOp (left : expr) (op : operator) (right : expr)
  | Compare (left : expr) (op : cmpop) (comparator : expr)
  | Call (func : expr) (call_args : list expr).

(** [ast.arg]: one parameter, with its optional annotation. *)
Record arg := mk_arg {
  arg_name : string;
  annotation : option expr }.

(** [ast.arguments]: the parameter lists of a function. *)
Record arguments := mk_arguments {
  posonlyargs : list arg;
  args : list arg;
  vararg : option arg;
  kwonlyargs : list arg;
  kw_defaults : list (option expr);
  kwarg : option arg;
  defaults : list expr }.

(** Statements.  The annotation of [AnnAssign] is an [option]: the parser
    always fills it, and [None] stands for a node whose attribute has been
    deleted ([del node.annotation]). *)
Inductive stmt :=
  | FunctionDef (name : string) (fargs : arguments) (body : list stmt)
      (decorator_list : list expr) (returns : option expr)
  | AsyncFunctionDef (name : string) (fargs : arguments) (body : list stmt)
      (decorator_list : list expr) (returns : option expr)
  | ClassDef (name : string) (bases : list expr) (body : list stmt)
      (decorator_list : list expr)
  | Return (value : option expr)
  | Assign (targets : list expr) (value : expr)
  | AnnAssign (target : expr) (ann : option expr) (value : option expr)
      (simple : bool)
  | While (test : expr) (body orelse : list stmt)
  | If (test : expr) (body orelse : list stmt)
  | Expr (value : expr)
  | Pass.

(** [ast.Module], the root of a parsed text. *)
Inductive pymod :=
  | PyModule (body : list stmt).

Definition mod_body (tree : pymod) : list stmt :=
  match tree with PyModule body => body end.

(** [isinstance(e, ast.Str)] *)
Definition is_Str (e : expr) : bool :=
  match e with
  | Constant (CStr _) => true
  | _ => false
  end.

(** [isinstance(n, ast.Expr) and isinstance(n.value, ast.Str)] *)
Definition is_Expr_Str (n : stmt) : bool :=
  match n with
  | Expr v => is_Str v
  | _ => false
  end.

(** [isinstance(n, (ast.FunctionDef, ast.AsyncFunctionDef))] *)
Definition is_function (n : stmt) : bool :=
  match n with
  | FunctionDef _ _ _ _ _ | AsyncFunctionDef _ _ _ _ _ => true
  | _ => false
  end.

(** The fields the two kinds of function definition share. *)
Definition def_name (n : stmt) : option string :=
  match n with
  | FunctionDef name _ _ _ _ | AsyncFunctionDef name _ _ _ _ => Some name
  | _ => None
  end.

Definition def_args (n : stmt) : option arguments :=
  match n with
  | FunctionDef _ a _ _ _ | AsyncFunctionDef _ a _ _ _ => Some a
  | _ => None
  end.

Definition def_body (n : stmt) : option (list stmt) :=
  match n with
  | FunctionDef _ _ b _ _ | AsyncFunctionDef _ _ b _ _ => Some b
  | _ => None
  end.

Definition def_returns (n : stmt) : option (option expr) :=
  match n with
  | FunctionDef _ _ _ _ r | AsyncFunctionDef _ _ _ _ r => Some r
  | _ => None
  end.

Definition def_decorators (n : stmt) : option (list expr) :=
  match n with
  | FunctionDef _ _ _ d _ | AsyncFunctionDef _ _ _ d _ => Some d
  | _ => None
  end.

(** [ast.iter_child_nodes], restricted to the statements among the
    children (in field order); expressions hold no statement. *)
Definition iter_child_nodes (node : stmt) : list stmt :=
  match node with
  | FunctionDef _ _ body _ _ | AsyncFunctionDef _ _ body _ _ => body
  | ClassDef _ _ body _ => body
  | While _ body orelse | If _ body orelse => body ++ orelse
  | _ => []
  end.

(** Number of statement nodes below and including a statement. *)
Fixpoint node_count (node : stmt) : nat :=
  let count_all := fix count_all (l : list stmt) : nat :=
    match l with
    | [] => 0
    | n :: rest => node_count n + count_all rest
    end in
  match node with
  | FunctionDef _ _ body _ _ | AsyncFunctionDef _ _ body _ _ => S (count_all body)
  | ClassDef _ _ body _ => S (count_all body)
  | While _ body orelse | If _ body orelse => S (count_all body + count_all orelse)
  | _ => 1
  end.

Definition nodes_count (l : list stmt) : nat :=
  foldr (fun n acc => node_count n + acc) 0 l.

(** [ast.walk]: breadth first, from a queue; a node's children join the
    queue when the node leaves it.  [fuel] bounds the number of nodes
    taken from the queue. *)
Fixpoint walk_queue (fuel : nat) (todo : list stmt) : list stmt :=
  match fuel, todo with
  | S fuel', node :: rest => node :: walk_queue fuel' (rest ++ iter_child_nodes node)
  | _, _ => []
  end.

(** The statement nodes [ast.walk(tree)] yields, in its order (the root
    and the expression nodes it yields in between are none of them). *)
Definition walk (tree : pymod) : list stmt :=
  walk_queue (nodes_count (mod_body tree)) (mod_body tree).

(** ** The parser and the unparser

    [ast.parse] and [ast.unparse] are Python's, not the program's: they are
    parameters of the development.

    [ast_parse] gives the tree of a text, or nothing when [ast.parse]
    raises; [parse_error] is the exception it raises then: [SyntaxError]
    or its subclass [IndentationError], [ValueError] for a text with a
    null character, [RecursionError] for a text nested too deeply.

    [unparse] and [unparse_stmt] are [ast.unparse] on a module and on a
    statement: the text, or the exception it raises.  On a tree fresh from
    the parser that is [ValueError] for an integer with more digits than
    the interpreter converts, or [RecursionError] for too deep a tree.

    Trees carry no positions: [def_lineno source] stands for the attribute
    [lineno] of the first function definition that
    [ast.walk(ast.parse(source))] yields. *)

(** The attributes the unparser reads are there: no [AnnAssign] below the
    node has had its annotation deleted. *)
Fixpoint has_all_attributes (node : stmt) : bool :=
  match node with
  | FunctionDef _ _ body _ _ | AsyncFunctionDef _ _ body _ _ =>
      forallb has_all_attributes body
  | ClassDef _ _ body _ => forallb has_all_attributes body
  | While _ body orelse | If _ body orelse =>
      forallb has_all_attributes body && forallb has_all_attributes orelse
  | AnnAssign _ None _ _ => false
  | _ => true
  end.

(** The node's own annotation is there. *)
Definition has_annotation (node : stmt) : bool :=
  match node with
  | AnnAssign _ None _ _ => false
  | _ => true
  end.

(** Two facts about Python's library come with the parameters: the parser
    fills every attribute of the nodes it builds, and the unparser, which
    reads [node.annotation] at every [AnnAssign], raises on a tree where
    one has been deleted ([AttributeError], unless it has failed before it
    gets there). *)
Class PythonAst := {
  ast_parse : string -> option pymod;
  parse_error : string -> exn;
  unparse : pymod -> result string;
  unparse_stmt : stmt -> result string;
  def_lineno : string -> nat;
  parse_attributes : forall source tree,
    ast_parse source = Some tree ->
    forallb has_all_attributes (mod_body tree) = true;
  unparse_attributes : forall tree,
    forallb has_all_attributes (mod_body tree) = false ->
    exists e, unparse tree = Raise e }.

Definition is_not_None {A} (o : option A) : bool :=
  match o with
  | Some _ => true
  | None => false
  end.

(** ** The functions of [commentator.py] on trees *)

Definition with_args (a : arguments) (new_args : list arg) : arguments :=
  {| posonlyargs := posonlyargs a; args := new_args; vararg := vararg a;
     kwonlyargs := kwonlyargs a; kw_defaults := kw_defaults a;
     kwarg := kwarg a; defaults := defaults a |}.

(** [arg.annotation = None] *)
Definition clear_annotation (a : arg) : arg :=
  {| arg_name := arg_name a; annotation := None |}.

(** [remove_annotations(node)]: what the call leaves of [node].  At an
    [AnnAssign] it deletes the attribute, and raises [AttributeError] when
    the attribute is no longer there. *)
Definition remove_annotations (node : stmt) : result stmt :=
  match node with
  | AnnAssign target (Some _) value simple => Ok (AnnAssign target None value simple)
  | AnnAssign _ None _ _ => Raise AttributeError
  | FunctionDef name a body decos _ =>
      Ok (FunctionDef name (with_args a (map clear_annotation (args a))) body decos None)
  | AsyncFunctionDef name a body decos _ =>
      Ok (AsyncFunctionDef name (with_args a (map clear_annotation (args a))) body
            decos None)
  | _ => Ok node
  end.

(** What [remove_annotations] leaves of a node that has its attributes. *)
Definition without_annotations (node : stmt) : stmt :=
  match node with
  | AnnAssign target _ value simple => AnnAssign target None value simple
  | FunctionDef name a body decos _ =>
      FunctionDef name (with_args a (map clear_annotation (args a))) body decos None
  | AsyncFunctionDef name a body decos _ =>
      AsyncFunctionDef name (with_args a (map clear_annotation (args a))) body decos None
  | _ => node
  end.

(** [node.body[0].value.s = ''] when [node.body] starts with a string
    statement. *)
Definition blank_first (body : list stmt) : list stmt :=
  match body with
  | Expr (Constant (CStr _)) :: rest => Expr (Constant (CStr EmptyString)) :: rest
  | _ => body
  end.

(** [[n for n in node.body if not isinstance(n, ast.Expr) or not
    isinstance(n.value, ast.Str)]] *)
Definition without_strings (body : list stmt) : list stmt :=
  List.filter (fun n => negb (is_Expr_Str n)) body.

(** [remove_comments(node)] at a statement node. *)
Definition remove_comments (node : stmt) : stmt :=
  match node with
  | FunctionDef name a body decos r =>
      FunctionDef name a (without_strings (blank_first body)) decos r
  | AsyncFunctionDef name a body decos r =>
      AsyncFunctionDef name a (without_strings (blank_first body)) decos r
  | ClassDef name bases body decos =>
      ClassDef name bases (without_strings (blank_first body)) decos
  | Expr (Constant (CStr _)) => Expr (Constant (CStr EmptyString))
  | _ => node
  end.

(** [remove_comments(node)] at the root. *)
Definition remove_comments_module (tree : pymod) : pymod :=
  PyModule (without_strings (blank_first (mod_body tree))).

(** [f] on every statement of a block, from the first one on; the first
    exception ends it. *)
Definition for_block (f : stmt -> result stmt) : list stmt -> result (list stmt) :=
  fix for_block (block : list stmt) : result (list stmt) :=
    match block with
    | [] => Ok []
    | node :: rest =>
        let? node' := f node in
        let? rest' := for_block rest in
        Ok (node' :: rest')
    end.

(** [for node in ast.walk(tree): f(node)] below a statement, for an [f]
    that updates the node it is given or raises.  [ast.walk] queues the
    children of a node before it yields the node, so every node of the
    parsed tree is visited once, also one its parent drops from its body
    in the meantime; a visit changes the fields of its node only, and
    whether it raises depends on the node's own fields.  The tree the
    loop leaves is the one where every node has had its visit, which the
    recursion builds from the leaves up; the loop raises when one of the
    visits does. *)
Fixpoint visit_all (f : stmt -> result stmt) (node : stmt) : result stmt :=
  match node with
  | FunctionDef name a body decos r =>
      let? body' := for_block (visit_all f) body in
      f (FunctionDef name a body' decos r)
  | AsyncFunctionDef name a body decos r =>
      let? body' := for_block (visit_all f) body in
      f (AsyncFunctionDef name a body' decos r)
  | ClassDef name bases body decos =>
      let? body' := for_block (visit_all f) body in
      f (ClassDef name bases body' decos)
  | While test body orelse =>
      let? body' := for_block (visit_all f) body in
      let? orelse' := for_block (visit_all f) orelse in
      f (While test body' orelse')
  | If test body orelse =>
      let? body' := for_block (visit_all f) body in
      let? orelse' := for_block (visit_all f) orelse in
      f (If test body' orelse')
  | _ => f node
  end.

(** The two calls of the loop body of [compare_python_code]. *)
Definition strip_node (node : stmt) : result stmt :=
  remove_annotations (remove_comments node).

(** The loop [for node in ast.walk(tree): remove_comments(node);
    remove_annotations(node)]. *)
Definition strip_tree (tree : pymod) : result pymod :=
  let? body := for_block (visit_all strip_node) (mod_body tree) in
  Ok (remove_comments_module (PyModule body)).

(** The loop [for node in ast.walk(tree): remove_annotations(node)]. *)
Definition strip_annotations (tree : pymod) : result pymod :=
  let? body := for_block (visit_all remove_annotations) (mod_body tree) in
  Ok (PyModule body).

(** The same loops on a tree whose nodes have all their attributes, where
    no visit raises: [map_nodes g] is the tree that [visit_all] leaves
    for the visit [g]. *)
Fixpoint map_nodes (f : stmt -> stmt) (node : stmt) : stmt :=
  f match node with
    | FunctionDef name a body decos r =>
        FunctionDef name a (map (map_nodes f) body) decos r
    | AsyncFunctionDef name a body decos r =>
        AsyncFunctionDef name a (map (map_nodes f) body) decos r
    | ClassDef name bases body decos =>
        ClassDef name bases (map (map_nodes f) body) decos
    | While test body orelse =>
        While test (map (map_nodes f) body) (map (map_nodes f) orelse)
    | If test body orelse =>
        If test (map (map_nodes f) body) (map (map_nodes f) orelse)
    | _ => node
    end.

Definition normal_node (node : stmt) : stmt :=
  without_annotations (remove_comments node).

(** What the loop of [compare_python_code] leaves of a parsed tree. *)
Definition normal_form (tree : pymod) : pymod :=
  remove_comments_module (PyModule (map (map_nodes normal_node) (mod_body tree))).

(** [all([arg.annotation is not None for arg in node.args.args]) and
    node.returns is not None] *)
Definition all_typed (node : stmt) : bool :=
  match node with
  | FunctionDef _ a _ _ r | AsyncFunctionDef _ a _ _ r =>
      forallb (fun x => is_not_None (annotation x)) (args a) && is_not_None r
  | _ => false
  end.

(** The loop of [has_docstring] over the nodes [ast.walk] yields: the walk
    goes on when a function definition does not start with a string
    statement. *)
Fixpoint has_docstring_loop (nodes : list stmt) : bool :=
  match nodes with
  | [] => false
  | FunctionDef _ _ (Expr (Constant (CStr s)) :: _) _ _ :: _
  | AsyncFunctionDef _ _ (Expr (Constant (CStr s)) :: _) _ _ :: _ =>
      negb (String.eqb s EmptyString)
  | _ :: rest => has_docstring_loop rest
  end.

(** [isinstance(n, (ast.FunctionDef, ast.AsyncFunctionDef)) and n.name ==
    function_name] *)
Definition is_function_named (function_name : string) (n : stmt) : bool :=
  match def_name n with
  | Some name => String.eqb name function_name
  | None => false
  end.

(** [next((n for n in body if ...), None)], with the position of the node. *)
Definition find_function (function_name : string) (body : list stmt)
  : option (nat * stmt) :=
  list_find (fun n => Is_true (is_function_named function_name n)) body.

Definition set_body (node : stmt) (new_body : list stmt) : stmt :=
  match node with
  | FunctionDef name a _ decos r => FunctionDef name a new_body decos r
  | AsyncFunctionDef name a _ decos r => AsyncFunctionDef name a new_body decos r
  | _ => node
  end.

Definition set_returns (node : stmt) (r : option expr) : stmt :=
  match node with
  | FunctionDef name a body decos _ => FunctionDef name a body decos r
  | AsyncFunctionDef name a body decos _ => AsyncFunctionDef name a body decos r
  | _ => node
  end.

Definition set_args (node : stmt) (new_args : list arg) : stmt :=
  match node with
  | FunctionDef name a body decos r =>
      FunctionDef name (with_args a new_args) body decos r
  | AsyncFunctionDef name a body decos r =>
      AsyncFunctionDef name (with_args a new_args) body decos r
  | _ => node
  end.

Definition args_of (node : stmt) : list arg :=
  match def_args node with
  | Some a => args a
  | None => []
  end.

(** [update_args]: the loop builds [new_args] from the arguments of the new
    function, a fresh [ast.arg] for a name the old function has and the
    new function's node otherwise, and stores the list in the old function. *)
Definition update_args (old_function_ast new_function_ast : stmt) : stmt :=
  let arg_names := map arg_name (args_of old_function_ast) in
  let new_args :=
    map (fun a =>
           if bool_decide (arg_name a ∈ arg_names)
           then {| arg_name := arg_name a; annotation := annotation a |}
           else a)
        (args_of new_function_ast) in
  set_args old_function_ast new_args.

(** The three updates of [replace_function] on the node it found. *)
Definition splice (function_node new_function_ast : stmt) : stmt :=
  let node1 := set_body function_node (default [] (def_body new_function_ast)) in
  let node2 := set_returns node1 (default None (def_returns new_function_ast)) in
  update_args node2 new_function_ast.

Section Functions.
Context {py : PythonAst}.

Definition parse (source : string) : result pymod :=
  match ast_parse source with
  | Some tree => Ok tree
  | None => Raise (parse_error source)
  end.

Definition compare_python_code (code1 code2 : string) : result bool :=
  let? tree1 := parse code1 in
  let? tree2 := parse code2 in
  let? tree1 := strip_tree tree1 in
  let? tree2 := strip_tree tree2 in
  match unparse tree1 with
  | Ok text1 =>
      match unparse tree2 with
      | Ok text2 => Ok (String.eqb text1 text2)
      | Raise _ => Ok false
      end
  | Raise _ => Ok false
  end.

Definition has_types (func_code : string) : result bool :=
  let? tree := parse func_code in
  match List.find is_function (walk tree) with
  | Some node => Ok (all_typed node)
  | None => Ok false
  end.

Definition has_docstring (func_code : string) : result bool :=
  let? tree := parse func_code in
  Ok (has_docstring_loop (walk tree)).

Definition extract_function_ast (program_str function_name : string)
  : result stmt :=
  let? program_ast := parse program_str in
  match find_function function_name (mod_body program_ast) with
  | Some (_, function_node) => Ok function_node
  | None => Raise ValueError
  end.

Definition extract_function_source (program_str function_name : string)
  : result string :=
  let? function_node := extract_function_ast program_str function_name in
  unparse_stmt function_node.

Definition enumerate_functions (program_str : string) : result (list string) :=
  let? program_ast := parse program_str in
  Ok (omap def_name (mod_body program_ast)).

(** The tree [replace_function] hands to [ast.unparse]. *)
Definition replace_function_tree (program_str function_name new_function_str : string)
  : result pymod :=
  let? program_ast := parse program_str in
  match find_function function_name (mod_body program_ast) with
  | None => Raise ValueError
  | Some (i, function_node) =>
      let? new_function_ast := extract_function_ast new_function_str function_name in
      Ok (PyModule (<[i := splice function_node new_function_ast]> (mod_body program_ast)))
  end.

Definition replace_function (program_str function_name new_function_str : string)
  : result string :=
  let? program_ast := replace_function_tree program_str function_name new_function_str in
  unparse program_ast.

End Functions.

(** ** Python's string methods, as far as the program calls them

    A text is a [string] of characters with code points below 256. *)

Definition LF : ascii := "010"%char.
Definition CR : ascii := "013"%char.
Definition newline : string := String LF EmptyString.
Definition fence : string := "```".

(** The characters [str.strip()] removes. *)
Definition is_space (c : ascii) : bool :=
  let n := nat_of_ascii c in
  (((9 <=? n) && (n <=? 13)) || ((28 <=? n) && (n <=? 32))
   || (n =? 133) || (n =? 160))%nat.

(** The line boundaries of [str.splitlines()]; a carriage return followed
    by a line feed is one boundary. *)
Definition is_linebreak (c : ascii) : bool :=
  let n := nat_of_ascii c in
  (((10 <=? n) && (n <=? 13)) || ((28 <=? n) && (n <=? 30)) || (n =? 133))%nat.

(** [s.split(sep)] for a separator of one character. *)
Fixpoint split_on (sep : ascii) (s : string) : list string :=
  match s with
  | EmptyString => [EmptyString]
  | String c rest =>
      if Ascii.eqb c sep then EmptyString :: split_on sep rest
      else match split_on sep rest with
           | first :: others => String c first :: others
           | [] => [String c EmptyString]
           end
  end.

Fixpoint lstrip (s : string) : string :=
  match s with
  | String c rest => if is_space c then lstrip rest else s
  | EmptyString => EmptyString
  end.

Fixpoint rstrip (s : string) : string :=
  match s with
  | String c rest =>
      match rstrip rest with
      | EmptyString => if is_space c then EmptyString else String c EmptyString
      | kept => String c kept
      end
  | EmptyString => EmptyString
  end.

(** [s.strip()] *)
Definition strip (s : string) : string := rstrip (lstrip s).

(** [s.startswith(p)] *)
Definition startswith (s p : string) : bool := String.prefix p s.

(** [s.find(sub, start)] for [start >= 0]. *)
Definition find_from (s sub : string) (start : Z) : Z :=
  match String.index (Z.to_nat start) sub s with
  | Some i => Z.of_nat i
  | None => (-1)%Z
  end.

(** A slice bound as Python reads it: counted from the end when negative,
    and clipped to the text. *)
Definition slice_bound (len i : Z) : Z :=
  if (i <? 0)%Z then Z.max (i + len) 0 else Z.min i len.

(** [s[start:stop]] *)
Definition slice (s : string) (start stop : Z) : string :=
  let len := Z.of_nat (String.length s) in
  let a := slice_bound len start in
  let b := slice_bound len stop in
  String.substring (Z.to_nat a) (Z.to_nat (b - a)) s.

(** [s[start:]] *)
Definition slice_from (s : string) (start : Z) : string :=
  slice s start (Z.of_nat (String.length s)).

Definition cons_line (line : option string) (lines : list string) : list string :=
  match line with
  | Some l => l :: lines
  | None => lines
  end.

(** The line that starts at the head of [s], when there is one, and the
    lines after it; [after_cr] tells that the character before was a
    carriage return. *)
Fixpoint splitlines_from (after_cr : bool) (s : string)
  : option string * list string :=
  match s with
  | EmptyString => (None, [])
  | String c rest =>
      if after_cr && Ascii.eqb c LF then splitlines_from false rest
      else if is_linebreak c then
        let '(next, others) := splitlines_from (Ascii.eqb c CR) rest in
        (Some EmptyString, cons_line next others)
      else
        let '(next, others) := splitlines_from false rest in
        (Some (String c (default EmptyString next)), others)
  end.

(** [s.splitlines()] *)
Definition splitlines (s : string) : list string :=
  let '(first, others) := splitlines_from false s in cons_line first others.

(** ** The remaining functions of [commentator.py] *)

Section Text.
Context {py : PythonAst}.

Definition remove_code_before_function (code : string) : result string :=
  let? tree := parse code in
  match List.find is_function (walk tree) with
  | Some _ =>
      let start_index := def_lineno code - 1 in
      let lines := splitlines code in
      Ok (String.concat newline (drop start_index lines))
  | None => Ok code
  end.

End Text.

Definition language_map : gmap string string :=
  list_to_map
    [("js", "JavaScript"); ("ts", "TypeScript"); ("c", "C"); ("cpp", "C++");
     ("cs", "C#"); ("swift", "Swift"); ("py", "Python"); ("rs", "Rust");
     ("sql", "SQL"); ("css", "CSS"); ("php", "PHP"); ("rb", "Ruby");
     ("kt", "Kotlin"); ("go", "Go"); ("r", "R"); ("java", "Java"); ("h", "C");
     ("hpp", "C++"); ("hxx", "C++")].

Definition get_language_from_file_name (file_name : string) : string :=
  let ext := default EmptyString (last (split_on "."%char file_name)) in
  match language_map !! ext with
  | Some language => language
  | None => EmptyString
  end.

(** The loop [while i < len(lines) and lines[i].strip() == '': i += 1]:
    what is left of [lines] from index [i] on. *)
Fixpoint skip_blank_lines (lines : list string) : list string :=
  match lines with
  | line :: rest =>
      if String.eqb (strip line) EmptyString then skip_blank_lines rest else lines
  | [] => []
  end.

Definition find_code_start (code : string) : result Z :=
  let lines := split_on LF code in
  match skip_blank_lines lines with
  | [] => Raise IndexError
  | line :: _ =>
      let first_line := strip line in
      if String.eqb first_line fence then Ok 3%Z
      else if startswith first_line fence then
        let word := strip (slice_from first_line 3) in
        if (0 <? String.length word)%nat && negb (is_not_None (String.index 0 " " word))
        then Ok (Z.of_nat (String.length word) + 3)%Z
        else Ok (-1)%Z
      else Ok (-1)%Z
  end.

(** ** The driver: state, output and the generation service *)

(** What the run leaves behind: the chunks written to standard output, the
    records handed to [logging.error], and the prompts sent to the
    service, each list in the order of the events. *)
Record world := mk_world {
  stdout : list string;
  logged : list string;
  requests : list string }.

(** What [openai.ChatCompletion.create] does with a request: it returns a
    completion, of which the program reads the text
    [c['choices'][0]['message']['content']], or raises
    [openai.error.AuthenticationError], [openai.error.APIError], or
    another error of the library. *)
Inductive reply :=
  | Completion (content : string)
  | AuthenticationError
  | APIError
  | OtherError.

(** The service: its reply to a prompt, given the prompts sent before. *)
Class Backend := {
  ChatCompletion_create : list string -> string -> reply }.

(** Computations of the driver. *)
Definition M (A : Type) : Type := world -> result A * world.

Definition ret {A} (a : A) : M A := fun w => (Ok a, w).

Definition raise {A} (e : exn) : M A := fun w => (Raise e, w).

Definition bind {A B} (m : M A) (k : A -> M B) : M B :=
  fun w =>
    match m w with
    | (Ok a, w') => k a w'
    | (Raise e, w') => (Raise e, w')
    end.

Definition lift {A} (r : result A) : M A := fun w => (r, w).

Notation "'let!' x ':=' m 'in' k" := (bind m (fun x => k))
  (at level 10, x name, m at level 200, k at level 200, only parsing).
Notation "'let!' ' p ':=' m 'in' k" := (bind m (fun p => k))
  (at level 10, p pattern, m at level 200, k at level 200, only parsing).

(** [print(text, end=end_)] *)
Definition print_end (text end_ : string) : M unit :=
  fun w =>
    (Ok tt, {| stdout := stdout w ++ [text ++ end_]; logged := logged w;
               requests := requests w |}).

(** [print(text)] *)
Definition print (text : string) : M unit := print_end text newline.

(** [logging.error(text)] *)
Definition logging_error (text : string) : M unit :=
  fun w =>
    (Ok tt, {| stdout := stdout w; logged := logged w ++ [text];
               requests := requests w |}).

Definition key_message_1 : string :=
  "You need an OpenAI key to use commentator. You can get a key here: https://openai.com/api/".
Definition key_message_2 : string :=
  "Invoke commentator with the api-key argument or set the environment variable OPENAI_API_KEY.".

Definition prompt (programming_language translate_text the_code : string) : string :=
  "Rewrite the following " ++ programming_language
  ++ "code by adding high-level explanatory comments, "
  ++ "PEP 257 docstrings, and PEP 484 style type annotations. Infer what each function does, using the "
  ++ "names and computations as hints. If there are existing comments or types, augment them rather than "
  ++ "replacing them. If the existing comments are inconsistent with the code, correct them. Every "
  ++ "function argument and return value should be typed if possible. Do not change any other code. "
  ++ translate_text ++ " " ++ the_code.

Definition translation_request (language : string) : string :=
  "Write each docstring and comment first in English, then add a newline and '---', and add the translation to "
  ++ language ++ ".".

(** [translate_text], as the first statement of [commentate] sets it: the
    request for a translation when [language] is given and not empty. *)
Definition translate_text_for (language : option string) : string :=
  match language with
  | Some l => if String.eqb l EmptyString then EmptyString else translation_request l
  | None => EmptyString
  end.

Definition max_tries : nat := 3.

(** The local variables of [commentate] that live across the iterations
    of its loops: [code], and [result_ast], which is unbound ([None])
    until its first assignment. *)
Record locals := mk_locals {
  code_var : string;
  result_ast_var : option (option pymod) }.

(** How an iteration of the [while] loop ends. *)
Inductive flow :=
  | Break (vars : locals)
  | Next (vars : locals).

Section Driver.
Context {py : PythonAst} {service : Backend}.

(** The call of the service inside [get_comments]: the prompt joins the
    history, and the reply is the service's. *)
Definition create (content : string) : M reply :=
  fun w =>
    (Ok (ChatCompletion_create (requests w) content),
     {| stdout := stdout w; logged := logged w;
        requests := requests w ++ [content] |}).

(** [get_comments]: the completion, [None] after an [APIError], and
    [sys.exit(1)] after an [AuthenticationError]. *)
Definition get_comments (programming_language translate_text the_code : string)
  : M (option string) :=
  let content := prompt programming_language translate_text the_code in
  let! answer := create content in
  match answer with
  | Completion text => ret (Some text)
  | AuthenticationError =>
      let! _ := print EmptyString in
      let! _ := print key_message_1 in
      let! _ := print key_message_2 in
      raise (SystemExit 1)
  | APIError => ret None
  | OtherError => raise OpenAIError
  end.

(** The statements of the [while] body after the request: unwrap the
    code block, validate it, and splice it in. *)
Definition validate_and_replace (filename func_name the_code text : string)
    (vars : locals) : M flow :=
  let! first_index := lift (find_code_start text) in
  let second_index := find_from text fence (first_index + 1) in
  let code_block :=
    if (first_index =? -1)%Z || (second_index =? -1)%Z then text
    else slice text first_index second_index in
  let! result_ast :=
    if String.eqb (get_language_from_file_name filename) "Python" then
      match ast_parse code_block with
      | Some tree => ret (Some (Some tree))
      | None =>
          let! _ := print "failed (parse failure)." in
          let! _ := logging_error ("Parse failure:" ++ newline ++ code_block) in
          ret (Some None)
      end
    else ret (result_ast_var vars) in
  let vars := {| code_var := code_var vars; result_ast_var := result_ast |} in
  match result_ast with
  | None => raise UnboundLocalError
  | Some bound =>
      let! code_block :=
        match bound with
        | Some _ =>
            let! orig_ast := lift (parse the_code) in
            let! original := lift (remove_code_before_function the_code) in
            let! candidate := lift (remove_code_before_function code_block) in
            let! same := lift (compare_python_code original candidate) in
            if same then ret (Some code_block)
            else
              let! _ := print "failed (failed to validate)." in
              let! _ := logging_error ("Validation failure:" ++ newline ++ code_block) in
              ret None
        | None => ret None
        end in
      match code_block with
      | Some block =>
          if String.eqb block EmptyString then ret (Next vars)
          else
            let! typed := lift (has_types block) in
            if typed then
              let! _ := print "success!" in
              let! code := lift (replace_function (code_var vars) func_name block) in
              ret (Break {| code_var := code; result_ast_var := result_ast |})
            else
              let! _ := print "Failed to add types." in
              let! _ := logging_error ("Failed to add types:" ++ newline ++ block) in
              ret (Next vars)
      | None => ret (Next vars)
      end
  end.

(** One iteration of the [while] loop, [tries] already incremented. *)
Definition attempt (filename translate_text programming_language func_name : string)
    (tries : nat) (vars : locals) : M flow :=
  let! _ := print_end ("  commentating " ++ func_name ++ " (" ++ pretty tries ++ ") ...")
                      EmptyString in
  let! the_code := lift (extract_function_source (code_var vars) func_name) in
  let! documented := lift (has_docstring the_code) in
  let! typed := if documented then lift (has_types the_code) else ret false in
  if documented && typed then
    let! _ := print "already has a docstring and types." in
    ret (Break vars)
  else
    let! completion := get_comments programming_language translate_text the_code in
    match completion with
    | None => raise TypeError
    | Some text => validate_and_replace filename func_name the_code text vars
    end.

(** [while tries < max_tries], with [left = max_tries - tries]. *)
Fixpoint while_tries (filename translate_text programming_language func_name : string)
    (left : nat) (vars : locals) : M locals :=
  match left with
  | 0 => ret vars
  | S left' =>
      let tries := max_tries - left' in
      let! outcome :=
        attempt filename translate_text programming_language func_name tries vars in
      match outcome with
      | Break vars' => ret vars'
      | Next vars' =>
          while_tries filename translate_text programming_language func_name left' vars'
      end
  end.

(** [for func_name in enumerate_functions(code)] *)
Fixpoint for_functions (filename translate_text programming_language : string)
    (names : list string) (vars : locals) : M locals :=
  match names with
  | [] => ret vars
  | func_name :: rest =>
      let! vars' :=
        while_tries filename translate_text programming_language func_name
          max_tries vars in
      for_functions filename translate_text programming_language rest vars'
  end.

Definition commentate (filename code : string) (language : option string) : M string :=
  let translate_text := translate_text_for language in
  let programming_language := get_language_from_file_name filename ++ " " in
  let! names := lift (enumerate_functions code) in
  let! vars :=
    for_functions filename translate_text programming_language names
      {| code_var := code; result_ast_var := None |} in
  ret (code_var vars).

End Driver.

(** ** A parser and an unparser for the examples

    The examples below run the functions on concrete texts.  They use the
    unparser [show_module], which writes the subset of trees above the way
    [ast.unparse] lays them out, and a parser that knows the texts listed
    in [example_sources], each with the tree [ast.parse] gives for it. *)

Definition dquote : string := String "034"%char EmptyString.
Definition triple_quote : string := dquote ++ dquote ++ dquote.

Definition show_unaryop (op : unaryop) : string :=
  match op with
  | USub => "-"
  | UNot => "not "
  end.

Definition show_operator (op : operator) : string :=
  match op with
  | OpAdd => " + "
  | OpSub => " - "
  | OpMult => " * "
  end.

Definition show_cmpop (op : cmpop) : string :=
  match op with
  | CmpEq => " == "
  | CmpNotEq => " != "
  | CmpLt => " < "
  | CmpLtE => " <= "
  | CmpGt => " > "
  | CmpGtE => " >= "
  end.

Definition show_constant (c : constant) : string :=
  match c with
  | CStr s => "'" ++ s ++ "'"
  | CInt n => pretty n
  | CBool true => "True"
  | CBool false => "False"
  | CNone => "None"
  end.

Definition is_atom (e : expr) : bool :=
  match e with
  | Constant _ | Name _ | Call _ _ => true
  | _ => false
  end.

Fixpoint show_expr (e : expr) : string :=
  let operand := fun x : expr =>
    if is_atom x then show_expr x else "(" ++ show_expr x ++ ")" in
  match e with
  | Constant c => show_constant c
  | Name id => id
  | UnaryOp op x => show_unaryop op ++ operand x
  | BinOp l op r => operand l ++ show_operator op ++ operand r
  | Compare l op r => operand l ++ show_cmpop op ++ operand r
  | Call f xs => operand f ++ "(" ++ String.concat ", " (map show_expr xs) ++ ")"
  end.

Definition show_arg (a : arg) : string :=
  match annotation a with
  | Some t => arg_name a ++ ": " ++ show_expr t
  | None => arg_name a
  end.

(** Positional parameters with the defaults of the last of them. *)
Definition show_positional (params : list arg) (ds : list expr) : list string :=
  let plain := length params - length ds in
  map show_arg (take plain params)
  ++ zip_with (fun a d => show_arg a ++ "=" ++ show_expr d) (drop plain params) ds.

Definition show_kwonly (a : arg) (d : option expr) : string :=
  match d with
  | Some v => show_arg a ++ "=" ++ show_expr v
  | None => show_arg a
  end.

Definition show_arguments (a : arguments) : string :=
  let positional := show_positional (posonlyargs a ++ args a) (defaults a) in
  let n := length (posonlyargs a) in
  let with_slash :=
    if (0 <? n)%nat then (take n positional ++ ["/"] ++ drop n positional)%list
    else positional in
  let star :=
    match vararg a with
    | Some v => ["*" ++ show_arg v]
    | None => if (0 <? length (kwonlyargs a))%nat then ["*"] else []
    end in
  let kwonly := zip_with show_kwonly (kwonlyargs a) (kw_defaults a) in
  let kw :=
    match kwarg a with
    | Some k => ["**" ++ show_arg k]
    | None => []
    end in
  String.concat ", " (with_slash ++ star ++ kwonly ++ kw)%list.

Definition show_returns (r : option expr) : string :=
  match r with
  | Some t => " -> " ++ show_expr t
  | None => EmptyString
  end.

(** The lines of a block: a leading string statement of a function,
    class or module is written as a docstring. *)
Fixpoint show_stmt (indent : string) (node : stmt) : list string :=
  let inner := indent ++ "    " in
  let block := fun (docs : bool) (body : list stmt) =>
    match docs, body with
    | true, Expr (Constant (CStr s)) :: rest =>
        (inner ++ triple_quote ++ s ++ triple_quote)
        :: flat_map (show_stmt inner) rest
    | _, _ => flat_map (show_stmt inner) body
    end in
  let decorators := fun decos : list expr =>
    map (fun d => indent ++ "@" ++ show_expr d) decos in
  match node with
  | FunctionDef name a body decos r =>
      [EmptyString] ++ decorators decos
      ++ [indent ++ "def " ++ name ++ "(" ++ show_arguments a ++ ")"
          ++ show_returns r ++ ":"]
      ++ block true body
  | AsyncFunctionDef name a body decos r =>
      [EmptyString] ++ decorators decos
      ++ [indent ++ "async def " ++ name ++ "(" ++ show_arguments a ++ ")"
          ++ show_returns r ++ ":"]
      ++ block true body
  | ClassDef name bases body decos =>
      [EmptyString] ++ decorators decos
      ++ [indent ++ "class " ++ name
          ++ (match bases with
              | [] => EmptyString
              | _ => "(" ++ String.concat ", " (map show_expr bases) ++ ")"
              end) ++ ":"]
      ++ block true body
  | Return None => [indent ++ "return"]
  | Return (Some e) => [indent ++ "return " ++ show_expr e]
  | Assign targets value =>
      [indent ++ String.concat " = " (map show_expr targets ++ [show_expr value])]
  | AnnAssign target t value _ =>
      [indent ++ show_expr target ++ ": "
       ++ match t with Some e => show_expr e | None => EmptyString end
       ++ match value with Some v => " = " ++ show_expr v | None => EmptyString end]
  | While test body orelse =>
      [indent ++ "while " ++ show_expr test ++ ":"] ++ block false body
      ++ match orelse with
         | [] => []
         | _ => [indent ++ "else:"] ++ block false orelse
         end
  | If test body orelse =>
      [indent ++ "if " ++ show_expr test ++ ":"] ++ block false body
      ++ match orelse with
         | [] => []
         | _ => [indent ++ "else:"] ++ block false orelse
         end
  | Expr e => [indent ++ show_expr e]
  | Pass => [indent ++ "pass"]
  end.

(** The text starts at its first line: a blank line that opens it is
    dropped. *)
Definition join_lines (lines : list string) : string :=
  match lines with
  | EmptyString :: rest => String.concat newline rest
  | _ => String.concat newline lines
  end.

Definition show_statement (node : stmt) : string :=
  join_lines (show_stmt EmptyString node).

Definition show_module (tree : pymod) : string :=
  join_lines
    match mod_body tree with
    | Expr (Constant (CStr s)) :: rest =>
        (triple_quote ++ s ++ triple_quote) :: flat_map (show_stmt EmptyString) rest
    | body => flat_map (show_stmt EmptyString) body
    end.

(** The 1-based number of the first line that opens a function
    definition. *)
Fixpoint first_def_line (lines : list string) : nat :=
  match lines with
  | [] => 1
  | line :: rest =>
      if startswith (lstrip line) "def " || startswith (lstrip line) "async def "
      then 1
      else S (first_def_line rest)
  end.

Definition text_of (lines : list string) : string := String.concat newline lines.

Definition params (regular : list arg) : arguments :=
  {| posonlyargs := []; args := regular; vararg := None; kwonlyargs := [];
     kw_defaults := []; kwarg := None; defaults := [] |}.

Definition posonly_params (positional_only : list arg) : arguments :=
  {| posonlyargs := positional_only; args := []; vararg := None;
     kwonlyargs := []; kw_defaults := []; kwarg := None; defaults := [] |}.

Definition untyped (name : string) : arg := {| arg_name := name; annotation := None |}.
Definition typed (name type : string) : arg :=
  {| arg_name := name; annotation := Some (Name type) |}.

(** [abs], as in the source's [test2], and with a docstring and types. *)
Definition abs_body : list stmt :=
  [If (Compare (Name "n") CmpLt (Constant (CInt 0)))
      [Return (Some (UnaryOp USub (Name "n")))]
      [Return (Some (Name "n"))]].

Definition abs_plain : pymod :=
  PyModule [FunctionDef "abs" (params [untyped "n"]) abs_body [] None].

Definition abs_documented : pymod :=
  PyModule [FunctionDef "abs" (params [typed "n" "int"])
              (Expr (Constant (CStr "Absolute value.")) :: abs_body) []
              (Some (Name "int"))].

Definition posonly_typed : pymod :=
  PyModule [FunctionDef "f" (posonly_params [typed "x" "int"]) [Pass] [] None].

Definition posonly_untyped : pymod :=
  PyModule [FunctionDef "f" (posonly_params [untyped "x"]) [Pass] [] None].

Definition posonly_untyped_returns : pymod :=
  PyModule [FunctionDef "f" (posonly_params [untyped "x"]) [Pass] []
              (Some (Name "int"))].

Definition assigns (type : string) : pymod :=
  PyModule [FunctionDef "f" (params [])
              [AnnAssign (Name "y") (Some (Name type)) (Some (Constant (CInt 1))) true]
              [] None].

Definition two_params : pymod :=
  PyModule [Assign [Name "x"] (Constant (CInt 1));
            FunctionDef "f" (params [untyped "a"; untyped "b"]) [Pass] [] None].

Definition one_param_typed : pymod :=
  PyModule [FunctionDef "f" (params [typed "a" "int"]) [Pass] [] None].

Definition nested_documented : pymod :=
  PyModule [FunctionDef "f" (params [])
              [FunctionDef "g" (params []) [Expr (Constant (CStr "doc"))] [] None;
               Return (Some (Name "g"))]
              [] None].

Definition f_then_g : pymod :=
  PyModule [FunctionDef "f" (params []) [Pass] [] None;
            FunctionDef "g" (params []) [Pass] [] None].

Definition only_f : pymod :=
  PyModule [FunctionDef "f" (params []) [Pass] [] None].

Definition identity_documented : pymod :=
  PyModule [FunctionDef "f" (params [typed "n" "int"])
              [Expr (Constant (CStr "Return n.")); Return (Some (Name "n"))] []
              (Some (Name "int"))].

(** The texts the example parser knows, with their trees. *)
Definition example_sources : list (string * pymod) :=
  [ (text_of ["def abs(n):";
              "    if n < 0:";
              "        return -n";
              "    else:";
              "        return n"], abs_plain);
    (text_of ["def abs(n: int) -> int:";
              "    " ++ triple_quote ++ "Absolute value." ++ triple_quote;
              "    if n < 0:";
              "        return -n";
              "    else:";
              "        return n"], abs_documented);
    (text_of [EmptyString;
              "def abs(n: int) -> int:";
              "    " ++ triple_quote ++ "Absolute value." ++ triple_quote;
              "    if n < 0:";
              "        return -n";
              "    else:";
              "        return n";
              EmptyString], abs_documented);
    (text_of ["def f(x: int, /):"; "    pass"], posonly_typed);
    (text_of ["def f(x, /):"; "    pass"], posonly_untyped);
    (text_of ["def f(x, /) -> int:"; "    pass"], posonly_untyped_returns);
    (text_of ["def f():"; "    y: int = 1"], assigns "int");
    (text_of ["def f():"; "    y: str = 1"], assigns "str");
    (text_of ["x = 1"; EmptyString; "def f(a, b):"; "    pass"], two_params);
    (text_of ["def f(a: int):"; "    pass"], one_param_typed);
    (text_of ["def f():";
              "    def g():";
              "        'doc'";
              "    return g"], nested_documented);
    (text_of ["def f():"; "    pass"; EmptyString; "def g():"; "    pass"], f_then_g);
    (text_of ["def f():"; "    pass"], only_f);
    (text_of ["def f(n: int) -> int:";
              "    " ++ triple_quote ++ "Return n." ++ triple_quote;
              "    return n"], identity_documented) ].

(** The parser of a table of texts. *)
Definition table_parse (sources : list (string * pymod)) (source : string)
  : option pymod :=
  snd <$> List.find (fun entry => String.eqb (fst entry) source) sources.

(** Every tree of the table has all its attributes. *)
Definition complete_table (sources : list (string * pymod)) : bool :=
  forallb (fun entry => forallb has_all_attributes (mod_body (snd entry))) sources.

(** The exception for a text the table does not know: [IndentationError]
    when the text opens with a blank or a tab, [SyntaxError] otherwise. *)
Definition table_parse_error (source : string) : exn :=
  match source with
  | String c _ =>
      if Ascii.eqb c " "%char || Ascii.eqb c "009"%char then IndentationError
      else SyntaxError
  | EmptyString => SyntaxError
  end.

(** The example library for a table: its parser, and the unparser
    [show_module], which raises [AttributeError] at a deleted
    annotation. *)
Definition table_python (sources : list (string * pymod))
    (Hsources : complete_table sources = true) : PythonAst.
Proof.
  refine
    {| ast_parse := table_parse sources;
       parse_error := table_parse_error;
       unparse := fun tree =>
         if forallb has_all_attributes (mod_body tree)
         then Ok (show_module tree) else Raise AttributeError;
       unparse_stmt := fun node =>
         if has_all_attributes node
         then Ok (show_statement node) else Raise AttributeError;
       def_lineno := fun source => first_def_line (splitlines source) |}.
  - intros source tree Hparse. unfold table_parse in Hparse.
    apply fmap_Some in Hparse as (entry & Hfind & ->).
    apply List.find_some in Hfind as [Hin _].
    unfold complete_table in Hsources. rewrite forallb_forall in Hsources.
    exact (Hsources entry Hin).
  - intros tree Hmissing. rewrite Hmissing. eauto.
Defined.

Definition example_python : PythonAst := table_python example_sources eq_refl.

(** A service that gives the same reply to every request. *)
Definition always (r : reply) : Backend :=
  {| ChatCompletion_create := fun _ _ => r |}.

Definition empty_world : world :=
  {| stdout := []; logged := []; requests := [] |}.

(** ** The notions the properties are stated with *)

(** A body without its documentation string: the string statement that
    opens the body of a function, a class or a module. *)
Definition undocumented (body : list stmt) : list stmt :=
  match body with
  | Expr (Constant (CStr _)) :: rest => rest
  | _ => body
  end.

(** Parameter lists that agree up to the annotations. *)
Definition same_names (l1 l2 : list arg) : Prop :=
  map arg_name l1 = map arg_name l2.

Definition same_optional_name (o1 o2 : option arg) : Prop :=
  arg_name <$> o1 = arg_name <$> o2.

(** Two [arguments] that differ in annotations only.  With [wide], the
    annotation of any parameter may differ; without, the annotations of
    the regular parameters ([args]) only. *)
Definition arguments_variant (wide : bool) (a1 a2 : arguments) : Prop :=
  same_names (args a1) (args a2)
  /\ (if wide
      then same_names (posonlyargs a1) (posonlyargs a2)
           /\ same_optional_name (vararg a1) (vararg a2)
           /\ same_names (kwonlyargs a1) (kwonlyargs a2)
           /\ same_optional_name (kwarg a1) (kwarg a2)
      else posonlyargs a1 = posonlyargs a2
           /\ vararg a1 = vararg a2
           /\ kwonlyargs a1 = kwonlyargs a2
           /\ kwarg a1 = kwarg a2)
  /\ kw_defaults a1 = kw_defaults a2
  /\ defaults a1 = defaults a2.

(** Two statements that differ only in documentation strings and in type
    annotations: the return annotation and the parameter annotations of
    function definitions and, with [wide], also the annotation of
    annotated assignments.  Without [wide] the statements hold no
    annotated assignment. *)
Inductive variant (wide : bool) : stmt -> stmt -> Prop :=
  | variant_FunctionDef name a1 a2 b1 b2 decos r1 r2 :
      arguments_variant wide a1 a2 ->
      variants wide (undocumented b1) (undocumented b2) ->
      variant wide (FunctionDef name a1 b1 decos r1) (FunctionDef name a2 b2 decos r2)
  | variant_AsyncFunctionDef name a1 a2 b1 b2 decos r1 r2 :
      arguments_variant wide a1 a2 ->
      variants wide (undocumented b1) (undocumented b2) ->
      variant wide (AsyncFunctionDef name a1 b1 decos r1)
                   (AsyncFunctionDef name a2 b2 decos r2)
  | variant_ClassDef name bases b1 b2 decos :
      variants wide (undocumented b1) (undocumented b2) ->
      variant wide (ClassDef name bases b1 decos) (ClassDef name bases b2 decos)
  | variant_Return value :
      variant wide (Return value) (Return value)
  | variant_Assign targets value :
      variant wide (Assign targets value) (Assign targets value)
  | variant_AnnAssign target t1 t2 value simple :
      wide = true ->
      variant wide (AnnAssign target (Some t1) value simple)
                   (AnnAssign target (Some t2) value simple)
  | variant_While test b1 b2 o1 o2 :
      variants wide b1 b2 -> variants wide o1 o2 ->
      variant wide (While test b1 o1) (While test b2 o2)
  | variant_If test b1 b2 o1 o2 :
      variants wide b1 b2 -> variants wide o1 o2 ->
      variant wide (If test b1 o1) (If test b2 o2)
  | variant_Expr value :
      variant wide (Expr value) (Expr value)
  | variant_Pass :
      variant wide Pass Pass
with variants (wide : bool) : list stmt -> list stmt -> Prop :=
  | variants_nil :
      variants wide [] []
  | variants_cons n1 n2 l1 l2 :
      variant wide n1 n2 -> variants wide l1 l2 ->
      variants wide (n1 :: l1) (n2 :: l2).

Scheme variant_mut := Minimality for variant Sort Prop
  with variants_mut := Minimality for variants Sort Prop.
Combined Scheme variant_variants_ind from variant_mut, variants_mut.

(** Two parsed texts that differ only in documentation strings and type
    annotations. *)
Definition module_variant (wide : bool) (t1 t2 : pymod) : Prop :=
  variants wide (undocumented (mod_body t1)) (undocumented (mod_body t2)).

(** Every parameter of a function, of whatever kind. *)
Definition all_parameters (a : arguments) : list arg :=
  posonlyargs a ++ args a ++ option_list (vararg a) ++ kwonlyargs a
  ++ option_list (kwarg a).

(** A body opens with a string statement of non-empty text. *)
Definition opens_with_text (body : list stmt) : Prop :=
  exists s rest, body = Expr (Constant (CStr s)) :: rest /\ s <> EmptyString.

(** Some line of the text has a character that is no white space. *)
Definition has_nonblank_line (text : string) : Prop :=
  exists line, line ∈ split_on LF text /\ strip line <> EmptyString.

(** What [get_comments] writes before it exits. *)
Definition key_diagnostic : list string :=
  [EmptyString ++ newline; key_message_1 ++ newline; key_message_2 ++ newline].

(** What the first iteration for a function writes before anything else. *)
Definition announce (func_name : string) : string :=
  "  commentating " ++ func_name ++ " (1) ...".

(** The requests of a run obey the rule for authentication failures: the
    run [m] from any world [w] adds requests to the history, and when the
    service answers one of them, the [i]-th, with an authentication
    failure, the run ends there with [SystemExit 1], that request is the
    last one sent, and the last lines written are the diagnostic. *)
Definition aborts_on_auth {service : Backend} {A} (m : M A) : Prop :=
  forall w, exists new,
    requests (snd (m w)) = (requests w ++ new)%list
    /\ forall i content,
         new !! i = Some content ->
         ChatCompletion_create (requests w ++ take i new)%list content
         = AuthenticationError ->
         fst (m w) = Raise (SystemExit 1)
         /\ S i = length new
         /\ exists out, stdout (snd (m w)) = (out ++ key_diagnostic)%list.

(** ** The functions of [commentator.py] no caller in the file uses *)

Section Unused.
Context {py : PythonAst}.

(** [now_has_types]: the annotations of the second tree are removed, and
    the two trees are unparsed and compared outside any [try]. *)
Definition now_has_types (code1 code2 : string) : result bool :=
  let? tree1 := parse code1 in
  let? tree2 := parse code2 in
  let? tree2 := strip_annotations tree2 in
  let? text1 := unparse tree1 in
  let? text2 := unparse tree2 in
  Ok (negb (String.eqb text1 text2)).

End Unused.

(** [target.id] for a target that is an [ast.Name]. *)
Definition name_id (target : expr) : option string :=
  match target with
  | Name id => Some id
  | _ => None
  end.

(** What the loop of [extract_names] adds for one child before it goes
    below it. *)
Definition own_names (child : stmt) : gset string :=
  match child with
  | FunctionDef name _ _ _ _ | AsyncFunctionDef name _ _ _ _ => {[ name ]}
  | ClassDef name _ _ _ => {[ name ]}
  | Assign targets _ => list_to_set (omap name_id targets)
  | _ => ∅
  end.

(** What the loop of [extract_names] adds for one child:
    its own names and [extract_names(child)].  The children that are
    expressions add nothing, as no statement is below them. *)
Fixpoint names_from (child : stmt) : gset string :=
  let below := fix below (children : list stmt) : gset string :=
    match children with
    | [] => ∅
    | c :: rest => names_from c ∪ below rest
    end in
  own_names child
  ∪ match child with
    | FunctionDef _ _ body _ _ | AsyncFunctionDef _ _ body _ _ => below body
    | ClassDef _ _ body _ => below body
    | While _ body orelse | If _ body orelse => below body ∪ below orelse
    | _ => ∅
    end.

(** [extract_names(ast_node)] at a statement and at the root. *)
Definition extract_names (ast_node : stmt) : gset string :=
  ⋃ (names_from <$> iter_child_nodes ast_node).


(** A second parser for examples: it knows one text more, without any
    function definition. *)
Definition only_assignment : pymod :=
  PyModule [Assign [Name "x"] (Constant (CInt 1))].

(** A candidate that wraps the function in a class. *)
Definition wrapped_f : pymod :=
  PyModule [ClassDef "C" [] [FunctionDef "f" (params []) [Pass] [] None] []].

(** A file of two functions: [g] has neither docstring nor types, and
    [f] has both, and a comment. *)
Definition g_plain : stmt :=
  FunctionDef "g" (params [untyped "n"]) [Return (Some (Name "n"))] [] None.

Definition g_documented : stmt :=
  FunctionDef "g" (params [typed "n" "int"])
    [Expr (Constant (CStr "Return n.")); Return (Some (Name "n"))] []
    (Some (Name "int")).

Definition f_documented : stmt :=
  FunctionDef "f" (params [typed "n" "int"])
    [Expr (Constant (CStr "Return n.")); Return (Some (Name "n"))] []
    (Some (Name "int")).

Definition f_text : string :=
  text_of ["def f(n: int) -> int:";
           "    " ++ triple_quote ++ "Return n." ++ triple_quote;
           "    # the identity";
           "    return n"].

Definition g_then_f_text : string :=
  text_of ["def g(n):"; "    return n"; EmptyString; f_text].


Definition g_then_f_output : string :=
  text_of ["def g(n: int) -> int:";
           "    " ++ triple_quote ++ "Return n." ++ triple_quote;
           "    return n";
           EmptyString;
           "def f(n: int) -> int:";
           "    " ++ triple_quote ++ "Return n." ++ triple_quote;
           "    return n"].

Definition more_sources : list (string * pymod) :=
  ("x = 1", only_assignment)
  :: (text_of [EmptyString; "class C:"; "    def f():"; "        pass"; EmptyString],
      wrapped_f)
  :: (g_then_f_text, PyModule [g_plain; f_documented])
  :: (text_of ["def g(n):"; "    return n"], PyModule [g_plain])
  :: (text_of [EmptyString;
               "def g(n: int) -> int:";
               "    " ++ triple_quote ++ "Return n." ++ triple_quote;
               "    return n";
               EmptyString], PyModule [g_documented])
  :: (text_of ["def g(n: int) -> int:";
               "    " ++ triple_quote ++ "Return n." ++ triple_quote;
               "    return n"], PyModule [g_documented])
  :: (g_then_f_output, PyModule [g_documented; f_documented])
  :: example_sources.

Definition more_python : PythonAst := table_python more_sources eq_refl.

(** ** More notions for the properties *)

(** A statement and the statements below it, the statement first. *)
Fixpoint subnodes (node : stmt) : list stmt :=
  node ::
  match node with
  | FunctionDef _ _ body _ _ | AsyncFunctionDef _ _ body _ _ =>
      flat_map subnodes body
  | ClassDef _ _ body _ => flat_map subnodes body
  | While _ body orelse | If _ body orelse =>
      flat_map subnodes body ++ flat_map subnodes orelse
  | _ => []
  end.

(** The statements of a parsed text, at any depth. *)
Definition statements (tree : pymod) : list stmt :=
  flat_map subnodes (mod_body tree).

Definition is_AnnAssign (node : stmt) : bool :=
  match node with
  | AnnAssign _ _ _ _ => true
  | _ => false
  end.

(** A run [m] sends at most [n] requests, from whatever world, and each
    of them has the property [P]. *)
Definition sends_at_most {A} (P : string -> Prop) (n : nat) (m : M A) : Prop :=
  forall w, exists new,
    requests (snd (m w)) = (requests w ++ new)%list
    /\ length new <= n /\ Forall P new.

(** A request for the function [func_name]: the prompt with the source
    that [extract_function_source] gives for that name, from some text. *)
Definition request_for {py : PythonAst}
    (programming_language translate_text func_name content : string) : Prop :=
  exists code the_code,
    extract_function_source code func_name = Ok the_code
    /\ content = prompt programming_language translate_text the_code.

(** The requests a run sends for one function: at most [max_tries], and
    each of them for that function. *)
Definition within_budget {py : PythonAst}
    (programming_language translate_text func_name : string)
    (group : list string) : Prop :=
  length group <= max_tries
  /\ Forall (request_for programming_language translate_text func_name) group.

(** A computation that sends no request. *)
Definition silent {A} (m : M A) : Prop :=
  forall w, requests (snd (m w)) = requests w.

(** The variables an iteration leaves. *)
Definition flow_vars (outcome : flow) : locals :=
  match outcome with
  | Break vars | Next vars => vars
  end.

(** The code block [commentate] takes from an answer, given the index
    [find_code_start] returned. *)
Definition code_block_at (text : string) (first_index : Z) : string :=
  let second_index := find_from text fence (first_index + 1) in
  if (first_index =? -1)%Z || (second_index =? -1)%Z then text
  else slice text first_index second_index.

(** One accepted replacement: a function of [code] is replaced by a
    candidate that parsed, compared equal to the function's source and
    passed [has_types]. *)
Definition accepted_step {py : PythonAst} (code code' : string) : Prop :=
  exists func_name the_code block original candidate,
    extract_function_source code func_name = Ok the_code
    /\ ast_parse block <> None
    /\ remove_code_before_function the_code = Ok original
    /\ remove_code_before_function block = Ok candidate
    /\ compare_python_code original candidate = Ok true
    /\ has_types block = Ok true
    /\ replace_function code func_name block = Ok code'.

(** Every character of a text passes a test. *)
Fixpoint all_chars (p : ascii -> bool) (s : string) : bool :=
  match s with
  | EmptyString => true
  | String c rest => p c && all_chars p rest
  end.

(** A text without the character [c]. *)
Definition without_char (c : ascii) (s : string) : bool :=
  all_chars (fun x => negb (Ascii.eqb x c)) s.

(** A text of white space only, and a text without any. *)
Definition blank (s : string) : bool := all_chars is_space s.
Definition spaceless (s : string) : bool := all_chars (fun c => negb (is_space c)) s.

(** A line as [ast.unparse] writes it: no character that ends a line. *)
Definition clean_line (line : string) : bool :=
  all_chars (fun c => negb (is_linebreak c)) line.

Definition backtick : ascii := "`"%char.

(** * Properties *)

(** ** The walk *)

Lemma nodes_count_app (l1 l2 : list stmt) :
  nodes_count (l1 ++ l2) = nodes_count l1 + nodes_count l2.
Proof.
  induction l1 as [|n l1 IH]; simpl; [reflexivity|].
  rewrite IH. lia.
Qed.

Lemma node_count_children (node : stmt) :
  node_count node = S (nodes_count (iter_child_nodes node)).
Proof.
  assert (Hall : forall l,
    (fix count_all (l : list stmt) : nat :=
       match l with
       | [] => 0
       | n :: rest => node_count n + count_all rest
       end) l = nodes_count l).
  { induction l as [|n l IH]; simpl; [reflexivity|]. now rewrite IH. }
  destruct node; simpl; rewrite ?Hall, ?nodes_count_app; reflexivity.
Qed.

(** The fuel [walk] gives the queue is enough: the queue runs empty, and
    the walk yields as many nodes as the tree has. *)
Lemma walk_queue_length (fuel : nat) (todo : list stmt) :
  nodes_count todo <= fuel ->
  length (walk_queue fuel todo) = nodes_count todo.
Proof.
  revert todo. induction fuel as [|fuel IH]; intros todo Hfuel.
  - destruct todo as [|node rest]; simpl in *; [reflexivity|].
    rewrite node_count_children in Hfuel. lia.
  - destruct todo as [|node rest]; simpl in *; [reflexivity|].
    rewrite node_count_children in *.
    rewrite IH; rewrite nodes_count_app; lia.
Qed.

Lemma walk_length (tree : pymod) :
  length (walk tree) = nodes_count (mod_body tree).
Proof. apply walk_queue_length. lia. Qed.

(** More fuel than the nodes in the queue changes nothing. *)
Lemma walk_queue_fuel (fuel fuel' : nat) (todo : list stmt) :
  nodes_count todo <= fuel -> nodes_count todo <= fuel' ->
  walk_queue fuel todo = walk_queue fuel' todo.
Proof.
  revert fuel' todo. induction fuel as [|fuel IH]; intros fuel' todo H H'.
  - destruct todo as [|node rest]; simpl in *.
    + now destruct fuel'.
    + rewrite node_count_children in H. lia.
  - destruct todo as [|node rest]; simpl in *.
    + now destruct fuel'.
    + rewrite node_count_children in *.
      destruct fuel' as [|fuel']; [lia|]. simpl. f_equal.
      apply IH; rewrite nodes_count_app; lia.
Qed.

(** The walk of a text starts at its first statement. *)
Lemma walk_head (node : stmt) (rest : list stmt) :
  exists others, walk (PyModule (node :: rest)) = node :: others.
Proof.
  unfold walk. simpl. rewrite node_count_children. simpl. eauto.
Qed.

(** ** Induction on statements, with the statements of every block *)

Lemma stmt_nested_ind (P : stmt -> Prop) :
  (forall name a body decos r,
     Forall P body -> P (FunctionDef name a body decos r)) ->
  (forall name a body decos r,
     Forall P body -> P (AsyncFunctionDef name a body decos r)) ->
  (forall name bases body decos,
     Forall P body -> P (ClassDef name bases body decos)) ->
  (forall value, P (Return value)) ->
  (forall targets value, P (Assign targets value)) ->
  (forall target t value simple, P (AnnAssign target t value simple)) ->
  (forall test body orelse,
     Forall P body -> Forall P orelse -> P (While test body orelse)) ->
  (forall test body orelse,
     Forall P body -> Forall P orelse -> P (If test body orelse)) ->
  (forall value, P (Expr value)) ->
  P Pass ->
  forall node, P node.
Proof.
  intros HFun HAsync HClass HReturn HAssign HAnn HWhile HIf HExpr HPass.
  fix IH 1. intros node.
  destruct node;
    [ apply HFun | apply HAsync | apply HClass | apply HReturn | apply HAssign
    | apply HAnn | apply HWhile | apply HIf | apply HExpr | apply HPass ];
    match goal with
    | |- Forall P ?block =>
        induction block as [|n block IHblock]; constructor;
        [apply IH | exact IHblock]
    end.
Qed.

(** ** The loops on a tree and the attributes of its nodes *)

Lemma for_block_spec (f : stmt -> result stmt) (g : stmt -> stmt) (block : list stmt) :
  Forall (fun node =>
            f node = if has_all_attributes node then Ok (g node)
                     else Raise AttributeError) block ->
  for_block f block
  = if forallb has_all_attributes block then Ok (map g block)
    else Raise AttributeError.
Proof.
  induction 1 as [|node block Hnode _ IH]; [reflexivity|].
  cbn [for_block forallb map]. rewrite Hnode.
  destruct (has_all_attributes node); [|reflexivity].
  cbn [bind_result andb]. rewrite IH.
  now destruct (forallb has_all_attributes block).
Qed.

(** A loop whose visit raises exactly at an annotated assignment without
    annotation runs through exactly on the trees that have none, and
    leaves every node visited. *)
Lemma visit_all_spec (f : stmt -> result stmt) (g : stmt -> stmt) :
  (forall node, has_annotation node = true -> f node = Ok (g node)) ->
  (forall node, has_annotation node = false -> f node = Raise AttributeError) ->
  forall node,
    visit_all f node
    = if has_all_attributes node then Ok (map_nodes g node)
      else Raise AttributeError.
Proof.
  intros Hok Hraise.
  induction node using stmt_nested_ind;
    cbn [visit_all has_all_attributes map_nodes];
    repeat match goal with
           | H : Forall _ ?block |- context [for_block _ ?block] =>
               rewrite (for_block_spec _ _ block H); clear H
           end;
    repeat match goal with
           | |- context [forallb has_all_attributes ?block] =>
               destruct (forallb has_all_attributes block);
               cbn [bind_result andb]; try reflexivity
           end;
    try (rewrite Hok by reflexivity; reflexivity).
  match goal with
  | |- context [AnnAssign _ ?t _ _] => destruct t
  end.
  - now rewrite Hok.
  - now rewrite Hraise.
Qed.

Lemma has_annotation_remove_comments (node : stmt) :
  has_annotation (remove_comments node) = has_annotation node.
Proof.
  destruct node as [| | | | | | | |e|]; try reflexivity.
  destruct e as [c| | | | |]; try reflexivity.
  now destruct c.
Qed.

Lemma remove_annotations_spec (node : stmt) :
  remove_annotations node
  = if has_annotation node then Ok (without_annotations node)
    else Raise AttributeError.
Proof.
  destruct node as [| | | | |target t value simple| | | |]; try reflexivity.
  now destruct t.
Qed.

Lemma strip_node_spec (node : stmt) :
  strip_node node
  = if has_annotation node then Ok (normal_node node) else Raise AttributeError.
Proof.
  unfold strip_node, normal_node.
  now rewrite remove_annotations_spec, has_annotation_remove_comments.
Qed.

(** The loop of [compare_python_code] raises [AttributeError] on a tree
    where an annotation has been deleted before, and leaves the normal
    form of any other tree. *)
Lemma strip_tree_spec (tree : pymod) :
  strip_tree tree
  = if forallb has_all_attributes (mod_body tree) then Ok (normal_form tree)
    else Raise AttributeError.
Proof.
  unfold strip_tree, normal_form.
  rewrite (for_block_spec _ (map_nodes normal_node)).
  - now destruct (forallb has_all_attributes (mod_body tree)).
  - apply Forall_forall. intros node _.
    apply visit_all_spec; intros n Hn; rewrite strip_node_spec; now rewrite Hn.
Qed.

Lemma strip_annotations_spec (tree : pymod) :
  strip_annotations tree
  = if forallb has_all_attributes (mod_body tree)
    then Ok (PyModule (map (map_nodes without_annotations) (mod_body tree)))
    else Raise AttributeError.
Proof.
  unfold strip_annotations.
  rewrite (for_block_spec _ (map_nodes without_annotations)).
  - now destruct (forallb has_all_attributes (mod_body tree)).
  - apply Forall_forall. intros node _.
    apply visit_all_spec; intros n Hn; rewrite remove_annotations_spec; now rewrite Hn.
Qed.

(** On texts that parse, [compare_python_code] compares what the unparser
    writes for the two normal forms, and a failure of the unparser counts
    as a difference. *)
Lemma compare_python_code_parsed {py : PythonAst}
    (code1 code2 : string) (tree1 tree2 : pymod) :
  ast_parse code1 = Some tree1 ->
  ast_parse code2 = Some tree2 ->
  compare_python_code code1 code2
  = match unparse (normal_form tree1) with
    | Ok text1 =>
        match unparse (normal_form tree2) with
        | Ok text2 => Ok (String.eqb text1 text2)
        | Raise _ => Ok false
        end
    | Raise _ => Ok false
    end.
Proof.
  intros H1 H2. unfold compare_python_code, parse.
  rewrite H1, H2. cbn [bind_result].
  rewrite !strip_tree_spec.
  now rewrite (parse_attributes _ _ H1), (parse_attributes _ _ H2).
Qed.

(** ** The normaliser *)

Lemma is_Expr_Str_strip (node : stmt) :
  is_Expr_Str (map_nodes normal_node node) = is_Expr_Str node.
Proof.
  destruct node as [| | | | | | | |e|]; try reflexivity.
  destruct e as [c| | | | |]; try reflexivity.
  now destruct c.
Qed.

Lemma without_strings_blank_first (body : list stmt) :
  without_strings (blank_first body) = without_strings body.
Proof.
  destruct body as [|n rest]; [reflexivity|].
  destruct n as [| | | | | | | |e|]; try reflexivity.
  destruct e as [c| | | | |]; try reflexivity.
  now destruct c.
Qed.

Lemma without_strings_undocumented (body : list stmt) :
  without_strings (map (map_nodes normal_node) body)
  = without_strings (map (map_nodes normal_node) (undocumented body)).
Proof.
  destruct body as [|n rest]; [reflexivity|].
  destruct n as [| | | | | | | |e|]; try reflexivity.
  destruct e as [c| | | | |]; try reflexivity.
  now destruct c.
Qed.

(** What the loop leaves of a body that may open with a documentation
    string. *)
Lemma strip_body (body : list stmt) :
  without_strings (blank_first (map (map_nodes normal_node) body))
  = without_strings (map (map_nodes normal_node) (undocumented body)).
Proof.
  rewrite without_strings_blank_first. apply without_strings_undocumented.
Qed.

Lemma clear_annotations_same_names (l1 l2 : list arg) :
  same_names l1 l2 -> map clear_annotation l1 = map clear_annotation l2.
Proof.
  unfold same_names. revert l2.
  induction l1 as [|a l1 IH]; intros [|b l2] H; simpl in *; try discriminate.
  - reflexivity.
  - injection H as Hname Hrest. unfold clear_annotation at 1 3.
    rewrite Hname. f_equal. now apply IH.
Qed.

Lemma strip_arguments (a1 a2 : arguments) :
  arguments_variant false a1 a2 ->
  with_args a1 (map clear_annotation (args a1))
  = with_args a2 (map clear_annotation (args a2)).
Proof.
  intros (Hargs & (Hpos & Hvar & Hkwonly & Hkw) & Hkwd & Hdef).
  unfold with_args.
  rewrite (clear_annotations_same_names _ _ Hargs), Hpos, Hvar, Hkwonly, Hkw, Hkwd, Hdef.
  reflexivity.
Qed.

(** The visits below a function definition, read from the top: the
    definition loses its annotations and the string statements of its
    body, and the statements left have their own visits. *)
Lemma strip_FunctionDef name a body decos r :
  map_nodes normal_node (FunctionDef name a body decos r)
  = FunctionDef name (with_args a (map clear_annotation (args a)))
      (without_strings (map (map_nodes normal_node) (undocumented body))) decos None.
Proof. simpl. unfold normal_node at 1. simpl. now rewrite strip_body. Qed.

Lemma strip_AsyncFunctionDef name a body decos r :
  map_nodes normal_node (AsyncFunctionDef name a body decos r)
  = AsyncFunctionDef name (with_args a (map clear_annotation (args a)))
      (without_strings (map (map_nodes normal_node) (undocumented body))) decos None.
Proof. simpl. unfold normal_node at 1. simpl. now rewrite strip_body. Qed.

Lemma strip_ClassDef name bases body decos :
  map_nodes normal_node (ClassDef name bases body decos)
  = ClassDef name bases
      (without_strings (map (map_nodes normal_node) (undocumented body))) decos.
Proof. simpl. unfold normal_node at 1. simpl. now rewrite strip_body. Qed.

Lemma strip_While test body orelse :
  map_nodes normal_node (While test body orelse)
  = While test (map (map_nodes normal_node) body) (map (map_nodes normal_node) orelse).
Proof. reflexivity. Qed.

Lemma strip_If test body orelse :
  map_nodes normal_node (If test body orelse)
  = If test (map (map_nodes normal_node) body) (map (map_nodes normal_node) orelse).
Proof. reflexivity. Qed.

(** The same reading with the filter before the visits: the string
    statements go first, and the statements that stay are visited. *)
Lemma without_strings_visits (body : list stmt) :
  without_strings (map (map_nodes normal_node) body)
  = map (map_nodes normal_node) (without_strings body).
Proof.
  induction body as [|n body IH]; [reflexivity|].
  simpl. rewrite is_Expr_Str_strip.
  destruct (is_Expr_Str n); simpl; now rewrite IH.
Qed.

(** Statements that differ in documentation strings, return annotations
    and annotations of regular parameters only are the same once every
    node has had its visit. *)
Lemma strip_variant :
  (forall n1 n2, variant false n1 n2 ->
     map_nodes normal_node n1 = map_nodes normal_node n2)
  /\ (forall l1 l2, variants false l1 l2 ->
        map (map_nodes normal_node) l1 = map (map_nodes normal_node) l2).
Proof.
  apply variant_variants_ind; intros;
    rewrite ?strip_FunctionDef, ?strip_AsyncFunctionDef, ?strip_ClassDef,
      ?strip_While, ?strip_If;
    try (erewrite strip_arguments by eassumption);
    try congruence.
  simpl. congruence.
Qed.

Lemma forallb_without_strings (p : stmt -> bool) (body : list stmt) :
  forallb p body = true -> forallb p (without_strings body) = true.
Proof.
  induction body as [|n body IH]; simpl; [reflexivity|].
  intros [Hn Hrest]%andb_prop.
  destruct (negb (is_Expr_Str n)); simpl; rewrite ?Hn; auto.
Qed.

(** With no annotated assignment below it, a visited statement has all
    the attributes the unparser reads. *)
Lemma strip_has_all_attributes :
  (forall n1 n2, variant false n1 n2 ->
     has_all_attributes (map_nodes normal_node n1) = true)
  /\ (forall l1 l2, variants false l1 l2 ->
        forallb has_all_attributes (map (map_nodes normal_node) l1) = true).
Proof.
  apply variant_variants_ind; intros;
    rewrite ?strip_FunctionDef, ?strip_AsyncFunctionDef, ?strip_ClassDef,
      ?strip_While, ?strip_If;
    simpl;
    first [ discriminate
          | solve [auto using forallb_without_strings]
          | apply andb_true_intro; split; assumption
          | idtac ].
  destruct value as [[]| | | | |]; reflexivity.
Qed.

Lemma strip_tree_body (tree : pymod) :
  normal_form tree
  = PyModule (without_strings
                (map (map_nodes normal_node) (undocumented (mod_body tree)))).
Proof.
  unfold normal_form, remove_comments_module. simpl. now rewrite strip_body.
Qed.

(** [compare_python_code] parses its two texts outside its [try] block:
    when one of them does not parse, the call raises what the parser
    raises, for the first text when both fail; it gives no answer. *)
Lemma compare_python_code_unparseable {py : PythonAst} (code1 code2 : string) :
  ast_parse code1 = None \/ ast_parse code2 = None ->
  compare_python_code code1 code2
  = Raise (parse_error match ast_parse code1 with
                       | None => code1
                       | Some _ => code2
                       end).
Proof.
  intros [H|H]; unfold compare_python_code, parse.
  - now rewrite H.
  - rewrite H. now destruct (ast_parse code1).
Qed.

(** Two texts that parse, hold no annotated assignment, and differ only
    in documentation strings, return annotations and annotations of
    regular parameters have the same normal form, and compare equal
    whenever the unparser can write it. *)
Lemma compare_python_code_variants {py : PythonAst}
    (F F2 : string) (tree tree2 : pymod) (text : string) :
  ast_parse F = Some tree ->
  ast_parse F2 = Some tree2 ->
  module_variant false tree tree2 ->
  unparse (normal_form tree) = Ok text ->
  normal_form tree = normal_form tree2
  /\ compare_python_code F F2 = Ok true.
Proof.
  intros HF HF2 Hvariant Htext.
  assert (Hsame : normal_form tree = normal_form tree2).
  { rewrite !strip_tree_body. destruct strip_variant as [_ Hsame].
    now rewrite (Hsame _ _ Hvariant). }
  split; [exact Hsame|].
  rewrite (compare_python_code_parsed _ _ _ _ HF HF2), <- Hsame, Htext.
  now rewrite String.eqb_refl.
Qed.

(** When the unparser fails on the first tree, as it does after the loop
    has met an annotated assignment, the answer is [False] whatever the
    second text is. *)
Lemma compare_python_code_unparse_fails {py : PythonAst}
    (code1 code2 : string) (tree1 tree2 : pymod) :
  ast_parse code1 = Some tree1 ->
  ast_parse code2 = Some tree2 ->
  forallb has_all_attributes (mod_body (normal_form tree1)) = false ->
  compare_python_code code1 code2 = Ok false.
Proof.
  intros H1 H2 Hfails.
  rewrite (compare_python_code_parsed _ _ _ _ H1 H2).
  destruct (unparse_attributes _ Hfails) as [e ->]. reflexivity.
Qed.

Lemma strip_AnnAssign target t value simple :
  has_all_attributes (map_nodes normal_node (AnnAssign target t value simple))
  = false.
Proof. reflexivity. Qed.

(** Concrete variants are checked constructor by constructor. *)
Ltac check_variant :=
  repeat first
    [ reflexivity
    | progress (unfold module_variant, arguments_variant, same_names,
                same_optional_name; simpl)
    | split
    | constructor ].

(** The source's own example: [abs] with and without docstring and
    types. *)
Lemma compare_python_code_variants_witness :
  normal_form abs_plain = normal_form abs_documented
  /\ @compare_python_code example_python
       (text_of ["def abs(n):";
                 "    if n < 0:";
                 "        return -n";
                 "    else:";
                 "        return n"])
       (text_of ["def abs(n: int) -> int:";
                 "    " ++ triple_quote ++ "Absolute value." ++ triple_quote;
                 "    if n < 0:";
                 "        return -n";
                 "    else:";
                 "        return n"]) = Ok true.
Proof.
  apply (compare_python_code_variants (py := example_python)) with
    (text := text_of ["def abs(n):";
                      "    if n < 0:";
                      "        return -n";
                      "    else:";
                      "        return n"]);
    [reflexivity | reflexivity | check_variant | vm_compute; reflexivity].
Defined.

(** C3 fails on the code.  The text [def f(:] does not parse, and
    comparing it with a function that does raises [SyntaxError] instead
    of answering [False]: the two calls of the parser stand before the
    [try] of [compare_python_code].  The exception reaches a run of
    [commentate]: a candidate that wraps the function in a class parses,
    [remove_code_before_function] cuts it at the line of the [def], what
    is left opens with an indented line, and the comparison raises
    [IndentationError] out of [commentate], where a candidate that does
    not parse costs one attempt only. *)
Lemma compare_python_code_unparseable_raises :
  @ast_parse example_python "def f(:" = None
  /\ @compare_python_code example_python
       "def f(:" (text_of ["def f():"; "    pass"]) = Raise SyntaxError
  /\ @ast_parse more_python
       (text_of [EmptyString; "class C:"; "    def f():"; "        pass"; EmptyString])
     = Some wrapped_f
  /\ @remove_code_before_function more_python
       (text_of [EmptyString; "class C:"; "    def f():"; "        pass"; EmptyString])
     = Ok (text_of ["    def f():"; "        pass"])
  /\ @compare_python_code more_python
       (text_of ["def f():"; "    pass"])
       (text_of ["    def f():"; "        pass"]) = Raise IndentationError
  /\ fst (@commentate more_python
            (always (Completion
                       (text_of ["```python";
                                 "class C:";
                                 "    def f():";
                                 "        pass";
                                 "```"])))
            "a.py" (text_of ["def f():"; "    pass"]) None empty_world)
     = Raise IndentationError.
Proof. repeat split; vm_compute; reflexivity. Qed.

(** C1 fails on the code, in two ways.  Two functions that differ only
    in the annotation of an annotated assignment compare unequal:
    [remove_annotations] deletes the attribute, the unparser fails on the
    node, and the answer is [False].  And two functions that differ only
    in the annotation of a positional-only parameter compare unequal:
    [remove_annotations] clears the regular parameters only. *)
Lemma compare_python_code_variants_unequal :
  (@ast_parse example_python (text_of ["def f():"; "    y: int = 1"])
     = Some (assigns "int")
   /\ @ast_parse example_python (text_of ["def f():"; "    y: str = 1"])
        = Some (assigns "str")
   /\ module_variant true (assigns "int") (assigns "str")
   /\ @compare_python_code example_python
        (text_of ["def f():"; "    y: int = 1"])
        (text_of ["def f():"; "    y: str = 1"]) = Ok false)
  /\ (@ast_parse example_python (text_of ["def f(x: int, /):"; "    pass"])
        = Some posonly_typed
      /\ @ast_parse example_python (text_of ["def f(x, /):"; "    pass"])
           = Some posonly_untyped
      /\ module_variant true posonly_typed posonly_untyped
      /\ @compare_python_code example_python
           (text_of ["def f(x: int, /):"; "    pass"])
           (text_of ["def f(x, /):"; "    pass"]) = Ok false).
Proof.
  split; (split; [reflexivity|]); (split; [reflexivity|]);
    (split; [check_variant | vm_compute; reflexivity]).
Qed.

(** ** Completeness checks *)

Lemma find_is_function (nodes : list stmt) (node : stmt) :
  List.find is_function nodes = Some node -> is_function node = true.
Proof. intros H. now apply List.find_some in H. Qed.

(** In a text that opens with a function definition, that definition is
    the first one the walk meets. *)
Lemma find_function_walk_head (node : stmt) (rest : list stmt) :
  is_function node = true ->
  List.find is_function (walk (PyModule (node :: rest))) = Some node.
Proof.
  intros Hfun. destruct (walk_head node rest) as [others ->].
  simpl. now rewrite Hfun.
Qed.

Lemma all_typed_spec (node : stmt) (a : arguments) (r : option expr) :
  def_args node = Some a -> def_returns node = Some r ->
  all_typed node = true
  <-> (forall p, p ∈ args a -> annotation p <> None) /\ r <> None.
Proof.
  intros Ha Hr.
  assert (Hall : forallb (fun x => is_not_None (annotation x)) (args a) = true
                 <-> forall p, p ∈ args a -> annotation p <> None).
  { rewrite forallb_forall. split; intros H p Hp.
    - apply list_elem_of_In, H in Hp. now destruct (annotation p).
    - apply list_elem_of_In, H in Hp. now destruct (annotation p). }
  assert (Hret : is_not_None r = true <-> r <> None) by (destruct r; simpl; split; congruence).
  destruct node; try discriminate; simpl in *;
    injection Ha as <-; injection Hr as <-;
    rewrite andb_true_iff, Hall, Hret; reflexivity.
Qed.

(** What [has_types] does: it looks at the first function definition the
    walk meets, and answers [True] exactly when every regular parameter
    ([args.args]) of it has an annotation and it has a return annotation;
    parameters of the other kinds are not examined. *)
Lemma has_types_regular_parameters {py : PythonAst}
    (func_code : string) (tree : pymod) (node : stmt)
    (a : arguments) (r : option expr) :
  ast_parse func_code = Some tree ->
  List.find is_function (walk tree) = Some node ->
  def_args node = Some a ->
  def_returns node = Some r ->
  exists answer,
    has_types func_code = Ok answer
    /\ (answer = true
        <-> (forall p, p ∈ args a -> annotation p <> None) /\ r <> None).
Proof.
  intros Hparse Hfind Ha Hr.
  exists (all_typed node). split.
  - unfold has_types, parse. rewrite Hparse. simpl. now rewrite Hfind.
  - now apply all_typed_spec.
Qed.

Lemma has_types_regular_parameters_witness :
  exists answer,
    @has_types example_python
      (text_of ["def f(n: int) -> int:";
                "    " ++ triple_quote ++ "Return n." ++ triple_quote;
                "    return n"]) = Ok answer
    /\ (answer = true
        <-> (forall p, p ∈ [typed "n" "int"] -> annotation p <> None)
            /\ Some (Name "int") <> None).
Proof.
  apply (has_types_regular_parameters (py := example_python)) with
    (tree := identity_documented)
    (node := FunctionDef "f" (params [typed "n" "int"])
               [Expr (Constant (CStr "Return n.")); Return (Some (Name "n"))] []
               (Some (Name "int")))
    (a := params [typed "n" "int"]);
    reflexivity.
Defined.

(** C7 fails on the code: the function [def f(x, /) -> int] has a
    parameter without annotation, and [has_types] answers [True], where
    its docstring promises type annotations for all the arguments. *)
Lemma has_types_positional_only_untyped :
  @ast_parse example_python (text_of ["def f(x, /) -> int:"; "    pass"])
    = Some posonly_untyped_returns
  /\ List.find is_function (walk posonly_untyped_returns)
     = Some (FunctionDef "f" (posonly_params [untyped "x"]) [Pass] []
               (Some (Name "int")))
  /\ untyped "x" ∈ all_parameters (posonly_params [untyped "x"])
  /\ annotation (untyped "x") = None
  /\ @has_types example_python (text_of ["def f(x, /) -> int:"; "    pass"])
     = Ok true.
Proof.
  repeat (split; [reflexivity|]); split; [|split; reflexivity].
  vm_compute. apply list_elem_of_here.
Qed.

(** When the text opens with a function definition, [has_docstring]
    answers from the statement that opens its body, if that is a string
    statement. *)
Lemma has_docstring_first {py : PythonAst}
    (func_code : string) (node : stmt) (rest : list stmt)
    (s : string) (body : list stmt) :
  ast_parse func_code = Some (PyModule (node :: rest)) ->
  def_body node = Some (Expr (Constant (CStr s)) :: body) ->
  has_docstring func_code = Ok (negb (String.eqb s EmptyString)).
Proof.
  intros Hparse Hbody. unfold has_docstring, parse. rewrite Hparse. simpl.
  destruct (walk_head node rest) as [others ->].
  destruct node; try discriminate; simpl in *; injection Hbody as ->; reflexivity.
Qed.

(** C6 fails on the code: in the text below the body of [f] opens with
    the definition of [g], not with a string, and [has_docstring] answers
    [True] all the same, from the string that opens the body of [g]. *)
Theorem has_docstring_nested_function :
  @ast_parse example_python
    (text_of ["def f():";
              "    def g():";
              "        'doc'";
              "    return g"])
  = Some (PyModule
            [FunctionDef "f" (params [])
               [FunctionDef "g" (params []) [Expr (Constant (CStr "doc"))] [] None;
                Return (Some (Name "g"))] [] None])
  /\ ~ opens_with_text
         [FunctionDef "g" (params []) [Expr (Constant (CStr "doc"))] [] None;
          Return (Some (Name "g"))]
  /\ @has_docstring example_python
       (text_of ["def f():";
                 "    def g():";
                 "        'doc'";
                 "    return g"]) = Ok true.
Proof.
  split; [reflexivity|]. split; [|reflexivity].
  intros (s & rest & H & _). discriminate.
Qed.

(** ** Splicing *)

Lemma find_function_Some (function_name : string) (body : list stmt)
    (i : nat) (node : stmt) :
  find_function function_name body = Some (i, node)
  <-> body !! i = Some node
      /\ is_function_named function_name node = true
      /\ forall j other, body !! j = Some other -> j < i ->
           is_function_named function_name other = false.
Proof.
  unfold find_function. rewrite list_find_Some.
  split; intros (Hi & Hnamed & Hfirst); (split; [exact Hi|]); split.
  - now apply Is_true_true.
  - intros j other Hj Hlt. specialize (Hfirst j other Hj Hlt).
    destruct (is_function_named function_name other); [|reflexivity].
    now destruct Hfirst.
  - now apply Is_true_true.
  - intros j other Hj Hlt. rewrite (Hfirst j other Hj Hlt). intros [].
Qed.

Lemma is_function_named_function (function_name : string) (node : stmt) :
  is_function_named function_name node = true ->
  is_function node = true /\ def_name node = Some function_name.
Proof.
  unfold is_function_named.
  destruct node; simpl; try discriminate;
    intros ->%String.eqb_eq; split; reflexivity.
Qed.

Lemma rebuilt_arg (a : arg) :
  {| arg_name := arg_name a; annotation := annotation a |} = a.
Proof. now destruct a. Qed.

(** [update_args] stores the regular parameters of the new function, as
    they are, in the old one. *)
Lemma update_args_eq (old_function_ast new_function_ast : stmt) :
  update_args old_function_ast new_function_ast
  = set_args old_function_ast (args_of new_function_ast).
Proof.
  unfold update_args. f_equal.
  rewrite <- (map_id (args_of new_function_ast)) at 2.
  apply map_ext. intros a. rewrite rebuilt_arg. now destruct (bool_decide _).
Qed.

Lemma args_of_set_args (node : stmt) (new_args : list arg) :
  is_function node = true -> args_of (set_args node new_args) = new_args.
Proof. destruct node; simpl; try discriminate; reflexivity. Qed.

Lemma is_function_set_body node b : is_function (set_body node b) = is_function node.
Proof. now destruct node. Qed.

Lemma is_function_set_returns node r :
  is_function (set_returns node r) = is_function node.
Proof. now destruct node. Qed.

(** The node [replace_function] leaves in place of the one it found: the
    old node with three fields from the new function. *)
Lemma splice_eq (function_node new_function_ast : stmt)
    (b : list stmt) (r : option expr) :
  def_body new_function_ast = Some b ->
  def_returns new_function_ast = Some r ->
  splice function_node new_function_ast
  = set_args (set_returns (set_body function_node b) r) (args_of new_function_ast).
Proof.
  intros Hb Hr. unfold splice. rewrite Hb, Hr. simpl. apply update_args_eq.
Qed.

Lemma function_fields (node : stmt) :
  is_function node = true ->
  exists b r, def_body node = Some b /\ def_returns node = Some r.
Proof. destruct node; simpl; try discriminate; eauto. Qed.

Section Splicing.
Context {py : PythonAst}.
Variables (program_str function_name new_function_str : string).
Variables (program_ast new_tree : pymod) (i j : nat).
Variables (function_node new_function_ast : stmt).
Hypothesis Hhost : ast_parse program_str = Some program_ast.
Hypothesis Hnode :
  find_function function_name (mod_body program_ast) = Some (i, function_node).
Hypothesis Hdonor : ast_parse new_function_str = Some new_tree.
Hypothesis Hnew :
  find_function function_name (mod_body new_tree) = Some (j, new_function_ast).

Lemma replace_function_tree_eq :
  replace_function_tree program_str function_name new_function_str
  = Ok (PyModule (<[i := splice function_node new_function_ast]>
                    (mod_body program_ast))).
Proof.
  unfold replace_function_tree, extract_function_ast, parse.
  rewrite Hhost. simpl. rewrite Hnode, Hdonor. simpl. now rewrite Hnew.
Qed.

Lemma replace_function_eq :
  replace_function program_str function_name new_function_str
  = unparse (PyModule (<[i := splice function_node new_function_ast]>
                         (mod_body program_ast))).
Proof. unfold replace_function. now rewrite replace_function_tree_eq. Qed.

(** C4, as the code has it: after [replace_function] the regular
    parameters of the function are those of the donor, with the donor's
    names, order and annotations; a parameter only the host has is not
    kept. *)
Theorem replace_function_parameters :
  exists node,
    replace_function_tree program_str function_name new_function_str
    = Ok (PyModule (<[i := node]> (mod_body program_ast)))
    /\ replace_function program_str function_name new_function_str
       = unparse (PyModule (<[i := node]> (mod_body program_ast)))
    /\ <[i := node]> (mod_body program_ast) !! i = Some node
    /\ args_of node = args_of new_function_ast.
Proof.
  exists (splice function_node new_function_ast).
  split; [apply replace_function_tree_eq|].
  split; [apply replace_function_eq|].
  destruct (proj1 (find_function_Some _ _ _ _) Hnode) as (Hi & Hnamed & _).
  apply is_function_named_function in Hnamed as [Hfun _].
  split.
  - apply list_lookup_insert_eq. now apply lookup_lt_Some in Hi.
  - unfold splice. rewrite update_args_eq. apply args_of_set_args.
    now rewrite is_function_set_returns, is_function_set_body.
Qed.

(** C5, as the code has it: [replace_function] unparses the host tree
    with one node changed, the first top-level function of the given
    name; of that node it replaces the body, the return annotation and
    the list of regular parameters by the donor's, and every other
    top-level node is the host's. *)
Theorem replace_function_frame :
  exists tree b r,
    replace_function_tree program_str function_name new_function_str = Ok tree
    /\ replace_function program_str function_name new_function_str = unparse tree
    /\ def_body new_function_ast = Some b
    /\ def_returns new_function_ast = Some r
    /\ length (mod_body tree) = length (mod_body program_ast)
    /\ mod_body tree !! i
       = Some (set_args (set_returns (set_body function_node b) r)
                 (args_of new_function_ast))
    /\ (forall k, k <> i -> mod_body tree !! k = mod_body program_ast !! k)
    /\ (forall k other, k < i -> mod_body program_ast !! k = Some other ->
          is_function_named function_name other = false).
Proof.
  destruct (proj1 (find_function_Some _ _ _ _) Hnode) as (Hi & Hnamed & Hfirst).
  destruct (proj1 (find_function_Some _ _ _ _) Hnew)
    as (_ & (Hfun & _)%is_function_named_function & _).
  destruct (function_fields _ Hfun) as (b & r & Hb & Hr).
  exists (PyModule (<[i := splice function_node new_function_ast]>
                      (mod_body program_ast))), b, r.
  split; [apply replace_function_tree_eq|].
  split; [apply replace_function_eq|].
  split; [exact Hb|]. split; [exact Hr|]. simpl.
  split; [apply length_insert|].
  split.
  - rewrite <- (splice_eq _ _ _ _ Hb Hr).
    apply list_lookup_insert_eq. now apply lookup_lt_Some in Hi.
  - split.
    + intros k Hk. now apply list_lookup_insert_ne.
    + intros k other Hlt Hk. now apply (Hfirst k other).
Qed.

End Splicing.

Lemma replace_function_parameters_witness :
  exists node,
    @replace_function_tree example_python
      (text_of ["x = 1"; EmptyString; "def f(a, b):"; "    pass"]) "f"
      (text_of ["def f(a: int):"; "    pass"])
    = Ok (PyModule (<[1 := node]> (mod_body two_params)))
    /\ @replace_function example_python
         (text_of ["x = 1"; EmptyString; "def f(a, b):"; "    pass"]) "f"
         (text_of ["def f(a: int):"; "    pass"])
       = @unparse example_python (PyModule (<[1 := node]> (mod_body two_params)))
    /\ <[1 := node]> (mod_body two_params) !! 1 = Some node
    /\ args_of node
       = args_of (FunctionDef "f" (params [typed "a" "int"]) [Pass] [] None).
Proof.
  apply (replace_function_parameters (py := example_python)) with
    (new_tree := one_param_typed) (j := 0)
    (function_node :=
       FunctionDef "f" (params [untyped "a"; untyped "b"]) [Pass] [] None);
    reflexivity.
Defined.

(** C4, as stated, fails: the host function has the parameters [a] and
    [b], the donor has [a] only, and the function [replace_function]
    leaves has lost [b]. *)
Lemma replace_function_drops_host_parameter :
  @replace_function_tree example_python
    (text_of ["x = 1"; EmptyString; "def f(a, b):"; "    pass"]) "f"
    (text_of ["def f(a: int):"; "    pass"])
  = Ok (PyModule [Assign [Name "x"] (Constant (CInt 1));
                  FunctionDef "f" (params [typed "a" "int"]) [Pass] [] None])
  /\ @replace_function example_python
       (text_of ["x = 1"; EmptyString; "def f(a, b):"; "    pass"]) "f"
       (text_of ["def f(a: int):"; "    pass"])
     = Ok (text_of ["x = 1"; EmptyString; "def f(a: int):"; "    pass"])
  /\ untyped "b" ∈ [untyped "a"; untyped "b"]
  /\ ("b" ∉ map arg_name [typed "a" "int"])
  /\ (untyped "b" ∉ [typed "a" "int"]).
Proof.
  split; [vm_compute; reflexivity|]. split; [vm_compute; reflexivity|].
  split; [apply list_elem_of_further, list_elem_of_here|].
  split; intros [H|H]%elem_of_cons; try discriminate; inversion H.
Qed.

Lemma replace_function_frame_witness :
  exists tree b r,
    @replace_function_tree example_python
      (text_of ["x = 1"; EmptyString; "def f(a, b):"; "    pass"]) "f"
      (text_of ["def f(a: int):"; "    pass"]) = Ok tree
    /\ @replace_function example_python
         (text_of ["x = 1"; EmptyString; "def f(a, b):"; "    pass"]) "f"
         (text_of ["def f(a: int):"; "    pass"]) = @unparse example_python tree
    /\ def_body (FunctionDef "f" (params [typed "a" "int"]) [Pass] [] None) = Some b
    /\ def_returns (FunctionDef "f" (params [typed "a" "int"]) [Pass] [] None) = Some r
    /\ length (mod_body tree) = length (mod_body two_params)
    /\ mod_body tree !! 1
       = Some (set_args
                 (set_returns
                    (set_body
                       (FunctionDef "f" (params [untyped "a"; untyped "b"])
                          [Pass] [] None) b) r)
                 (args_of (FunctionDef "f" (params [typed "a" "int"]) [Pass] [] None)))
    /\ (forall k, k <> 1 -> mod_body tree !! k = mod_body two_params !! k)
    /\ (forall k other, k < 1 -> mod_body two_params !! k = Some other ->
          is_function_named "f" other = false).
Proof.
  apply (replace_function_frame (py := example_python)) with
    (new_tree := one_param_typed) (j := 0); reflexivity.
Defined.

(** C5, as stated, fails: [replace_function] changes more of the function
    than its body and annotations.  The host function has the parameters
    [a] and [b]; the function in the result has the parameter [a] only. *)
Lemma replace_function_changes_parameter_list :
  @ast_parse example_python
    (text_of ["x = 1"; EmptyString; "def f(a, b):"; "    pass"])
  = Some (PyModule [Assign [Name "x"] (Constant (CInt 1));
                    FunctionDef "f" (params [untyped "a"; untyped "b"])
                      [Pass] [] None])
  /\ @replace_function_tree example_python
       (text_of ["x = 1"; EmptyString; "def f(a, b):"; "    pass"]) "f"
       (text_of ["def f(a: int):"; "    pass"])
     = Ok (PyModule [Assign [Name "x"] (Constant (CInt 1));
                     FunctionDef "f" (params [typed "a" "int"]) [Pass] [] None])
  /\ map arg_name (args (params [untyped "a"; untyped "b"]))
     <> map arg_name (args (params [typed "a" "int"])).
Proof.
  split; [reflexivity|]. split; [vm_compute; reflexivity|]. discriminate.
Qed.

(** ** The driver *)

Lemma append_empty (s : string) : s ++ EmptyString = s.
Proof.
  induction s as [|c s IH]; [reflexivity|].
  change (String c (s ++ EmptyString) = String c s). now rewrite IH.
Qed.

Lemma announce_first (func_name : string) :
  ("  commentating " ++ func_name ++ " (" ++ pretty (max_tries - 2) ++ ") ...")
  ++ EmptyString
  = announce func_name.
Proof. rewrite append_empty. reflexivity. Qed.

Section DriverProperties.
Context {py : PythonAst} {service : Backend}.
Variables (filename translate_text programming_language : string).

(** The first iteration for a function whose source has a docstring and
    full types: two lines are written, and the loop is left. *)
Lemma attempt_documented
    (func_name the_code : string) (vars : locals) (w : world) :
  extract_function_source (code_var vars) func_name = Ok the_code ->
  has_docstring the_code = Ok true ->
  has_types the_code = Ok true ->
  attempt filename translate_text programming_language func_name
    (max_tries - 2) vars w
  = (Ok (Break vars),
     {| stdout := stdout w ++ [announce func_name;
                               "already has a docstring and types." ++ newline];
        logged := logged w;
        requests := requests w |}).
Proof.
  intros Hsource Hdoc Htypes.
  unfold attempt, bind, lift, print, print_end, ret.
  rewrite Hsource, Hdoc, Htypes. cbn [andb stdout logged requests].
  rewrite announce_first, <- app_assoc. reflexivity.
Qed.


(** The loop over the functions goes through every function that has a
    docstring and full types without a request and without a change. *)
Lemma for_functions_documented (names : list string) (vars : locals) (w : world) :
  (forall name, name ∈ names ->
     exists the_code,
       extract_function_source (code_var vars) name = Ok the_code
       /\ has_docstring the_code = Ok true
       /\ has_types the_code = Ok true) ->
  exists w',
    for_functions filename translate_text programming_language names vars w
    = (Ok vars, w')
    /\ requests w' = requests w /\ logged w' = logged w.
Proof.
  revert w. induction names as [|name names IH]; intros w Hall.
  - exists w. repeat split.
  - destruct (Hall name) as (the_code & Hsource & Hdoc & Htypes);
      [apply list_elem_of_here|].
    cbn [for_functions]. unfold bind at 1.
    change max_tries with 3 at 1. cbn [while_tries]. unfold bind at 1.
    rewrite (attempt_documented _ _ _ _ Hsource Hdoc Htypes). unfold ret at 1.
    match goal with
    | |- context [for_functions _ _ _ names vars ?w1] =>
        destruct (IH w1 (fun n Hn => Hall n (list_elem_of_further _ _ _ Hn)))
          as (w' & Hrun & Hreq & Hlog)
    end.
    exists w'. rewrite Hrun, Hreq, Hlog. repeat split.
Qed.

Lemma for_functions_app (names1 names2 : list string) (vars : locals) (w : world) :
  for_functions filename translate_text programming_language (names1 ++ names2) vars w
  = bind (for_functions filename translate_text programming_language names1 vars)
         (for_functions filename translate_text programming_language names2) w.
Proof.
  revert vars w. induction names1 as [|name names1 IH]; intros vars w;
    cbn [for_functions app].
  - reflexivity.
  - unfold bind at 1 2 3.
    destruct (while_tries _ _ _ _ _ _ w) as [[vars'|e] w1]; [|reflexivity].
    rewrite IH. reflexivity.
Qed.

Lemma skip_blank_lines_nonblank (lines : list string) :
  (exists line, line ∈ lines /\ strip line <> EmptyString) ->
  exists line rest, skip_blank_lines lines = line :: rest.
Proof.
  induction lines as [|l lines IH]; intros (line & Hin & Hline).
  - inversion Hin.
  - simpl. destruct (String.eqb_spec (strip l) EmptyString) as [Hblank|_]; [|eauto].
    apply IH. exists line. split; [|exact Hline].
    apply elem_of_cons in Hin as [->|Hin]; [contradiction|exact Hin].
Qed.

(** [find_code_start] raises only on a text without a line that is not
    blank, where the index runs off the list of lines. *)
Lemma find_code_start_nonblank (text : string) :
  has_nonblank_line text -> exists k, find_code_start text = Ok k.
Proof.
  intros H. unfold find_code_start.
  destruct (skip_blank_lines_nonblank _ H) as (line & rest & ->).
  destruct (String.eqb _ fence); [eauto|].
  destruct (startswith _ fence); [|eauto].
  destruct (_ && _); eauto.
Qed.

(** The validation step of a file that is not Python: [result_ast] is
    read unbound. *)
Lemma validate_and_replace_unbound
    (func_name the_code text : string) (vars : locals) (w : world) :
  get_language_from_file_name filename <> "Python" ->
  result_ast_var vars = None ->
  has_nonblank_line text ->
  validate_and_replace filename func_name the_code text vars w
  = (Raise UnboundLocalError, w).
Proof.
  intros Hlang Hunbound Htext.
  destruct (find_code_start_nonblank _ Htext) as (k & Hstart).
  unfold validate_and_replace, bind, lift. rewrite Hstart.
  destruct (String.eqb_spec (get_language_from_file_name filename) "Python")
    as [Hpython|_]; [contradiction|].
  unfold ret. rewrite Hunbound. reflexivity.
Qed.

(** The loop for a function of a file that is not Python, when the
    service answers the first request with a completion. *)
Lemma while_tries_unbound
    (func_name the_code text : string) (vars : locals) (w : world) :
  get_language_from_file_name filename <> "Python" ->
  result_ast_var vars = None ->
  extract_function_source (code_var vars) func_name = Ok the_code ->
  has_docstring the_code = Ok false
  \/ (has_docstring the_code = Ok true /\ has_types the_code = Ok false) ->
  ChatCompletion_create (requests w)
    (prompt programming_language translate_text the_code) = Completion text ->
  has_nonblank_line text ->
  while_tries filename translate_text programming_language func_name max_tries vars w
  = (Raise UnboundLocalError,
     {| stdout := stdout w ++ [announce func_name];
        logged := logged w;
        requests := requests w
                    ++ [prompt programming_language translate_text the_code] |}).
Proof.
  intros Hlang Hunbound Hsource Hlacks Hreply Htext.
  change max_tries with 3 at 1. cbn [while_tries].
  unfold attempt, bind at 1 2 3 4 5, lift, print_end.
  rewrite Hsource, announce_first.
  assert (Hrequest :
    forall w0, requests w0 = requests w ->
      get_comments programming_language translate_text the_code w0
      = (Ok (Some text),
         {| stdout := stdout w0; logged := logged w0;
            requests := requests w0
                        ++ [prompt programming_language translate_text the_code] |})).
  { intros w0 Hw0. unfold get_comments, bind, create.
    rewrite Hw0, Hreply. reflexivity. }
  destruct Hlacks as [Hdoc|[Hdoc Htypes]].
  - rewrite Hdoc. unfold ret, bind. cbn [andb].
    rewrite Hrequest by reflexivity.
    now rewrite validate_and_replace_unbound.
  - rewrite Hdoc, Htypes. unfold bind. cbn [andb].
    rewrite Hrequest by reflexivity.
    now rewrite validate_and_replace_unbound.
Qed.

(** After an [APIError] the loop for a function that lacks a docstring
    or types ends in its first iteration, with [TypeError]. *)
Lemma while_tries_api_error
    (func_name the_code : string) (vars : locals) (w : world) :
  extract_function_source (code_var vars) func_name = Ok the_code ->
  has_docstring the_code = Ok false
  \/ (has_docstring the_code = Ok true /\ has_types the_code = Ok false) ->
  ChatCompletion_create (requests w)
    (prompt programming_language translate_text the_code) = APIError ->
  fst (while_tries filename translate_text programming_language func_name
         max_tries vars w)
  = Raise TypeError.
Proof.
  intros Hsource Hlacks Hreply.
  change max_tries with 3 at 1. cbn [while_tries].
  unfold attempt, bind at 1 2 3 4 5, lift, print_end.
  rewrite Hsource.
  assert (Hrequest :
    forall w0, requests w0 = requests w ->
      fst (get_comments programming_language translate_text the_code w0) = Ok None).
  { intros w0 Hw0. unfold get_comments, bind, create.
    rewrite Hw0, Hreply. reflexivity. }
  destruct Hlacks as [Hdoc|[Hdoc Htypes]].
  - rewrite Hdoc. unfold ret, bind. cbn [andb].
    match goal with
    | |- context [get_comments _ _ _ ?w0] =>
        specialize (Hrequest w0 eq_refl);
        destruct (get_comments programming_language translate_text the_code w0)
          as [r w1]
    end.
    simpl in Hrequest. subst r. reflexivity.
  - rewrite Hdoc, Htypes. unfold bind. cbn [andb].
    match goal with
    | |- context [get_comments _ _ _ ?w0] =>
        specialize (Hrequest w0 eq_refl);
        destruct (get_comments programming_language translate_text the_code w0)
          as [r w1]
    end.
    simpl in Hrequest. subst r. reflexivity.
Qed.

End DriverProperties.

(** A run on a file whose functions all have a docstring and full types
    returns the text it was given and asks the service nothing. *)
Lemma commentate_all_documented {py : PythonAst} {service : Backend}
    (filename code : string) (language : option string)
    (names : list string) (w : world) :
  enumerate_functions code = Ok names ->
  (forall name, name ∈ names ->
     exists source,
       extract_function_source code name = Ok source
       /\ has_docstring source = Ok true
       /\ has_types source = Ok true) ->
  fst (commentate filename code language w) = Ok code
  /\ requests (snd (commentate filename code language w)) = requests w.
Proof.
  intros Hnames Hall.
  destruct (for_functions_documented filename (translate_text_for language)
              (get_language_from_file_name filename ++ " ") names
              {| code_var := code; result_ast_var := None |} w Hall)
    as (w1 & Hrun & Hrequests & _).
  assert (Hall_run : commentate filename code language w = (Ok code, w1)).
  { unfold commentate, bind, lift, ret. rewrite Hnames. cbv beta iota.
    now rewrite Hrun. }
  rewrite Hall_run. split; [reflexivity | exact Hrequests].
Qed.


(** C10: for a file whose extension is not Python's and a text with a
    function that lacks a docstring or full types, the first answer of
    the service takes [commentate] to [if result_ast:] with [result_ast]
    never assigned, and the call ends with [UnboundLocalError], a
    [NameError].  The functions before that one are those with a
    docstring and full types; the service answers with a completion whose
    text has a line that is not blank. *)
Theorem commentate_unbound_result_ast {py : PythonAst} {service : Backend}
    (filename code : string) (language : option string)
    (skipped : list string) (func_name : string) (rest : list string)
    (the_code text : string) (w : world) :
  get_language_from_file_name filename <> "Python" ->
  enumerate_functions code = Ok (skipped ++ func_name :: rest)%list ->
  (forall name, name ∈ skipped ->
     exists source,
       extract_function_source code name = Ok source
       /\ has_docstring source = Ok true
       /\ has_types source = Ok true) ->
  extract_function_source code func_name = Ok the_code ->
  has_docstring the_code = Ok false
  \/ (has_docstring the_code = Ok true /\ has_types the_code = Ok false) ->
  ChatCompletion_create (requests w)
    (prompt (get_language_from_file_name filename ++ " ")
       (translate_text_for language) the_code) = Completion text ->
  has_nonblank_line text ->
  fst (commentate filename code language w) = Raise UnboundLocalError.
Proof.
  intros Hlang Hnames Hskipped Hsource Hlacks Hreply Htext.
  unfold commentate, bind at 1, lift. rewrite Hnames.
  unfold bind at 1. rewrite for_functions_app. unfold bind at 1.
  destruct (for_functions_documented filename (translate_text_for language)
              (get_language_from_file_name filename ++ " ") skipped
              {| code_var := code; result_ast_var := None |} w Hskipped)
    as (w1 & -> & Hrequests & _).
  cbn [for_functions]. unfold bind at 1.
  rewrite (while_tries_unbound filename _ _ func_name the_code text);
    [reflexivity| | | | | |]; try assumption; try reflexivity.
  now rewrite Hrequests.
Qed.



(** The whole run on a file whose one function has a docstring and full
    types: the text comes back as it was, and nothing was asked. *)
Example commentate_documented :
  @commentate example_python (always APIError) "a.py"
    (text_of ["def f(n: int) -> int:";
              "    " ++ triple_quote ++ "Return n." ++ triple_quote;
              "    return n"]) None empty_world
  = (Ok (text_of ["def f(n: int) -> int:";
                  "    " ++ triple_quote ++ "Return n." ++ triple_quote;
                  "    return n"]),
     {| stdout := [announce "f"; "already has a docstring and types." ++ newline];
        logged := [];
        requests := [] |}).
Proof. vm_compute. reflexivity. Qed.

(** The run of the source's example: the answer adds a docstring and
    types to [abs], passes the checks, and replaces the function. *)
Example commentate_abs :
  fst (@commentate example_python
         (always (Completion
                    (text_of ["```python";
                              "def abs(n: int) -> int:";
                              "    " ++ triple_quote ++ "Absolute value." ++ triple_quote;
                              "    if n < 0:";
                              "        return -n";
                              "    else:";
                              "        return n";
                              "```"])))
         "abs.py"
         (text_of ["def abs(n):";
                   "    if n < 0:";
                   "        return -n";
                   "    else:";
                   "        return n"]) None empty_world)
  = Ok (text_of ["def abs(n: int) -> int:";
                 "    " ++ triple_quote ++ "Absolute value." ++ triple_quote;
                 "    if n < 0:";
                 "        return -n";
                 "    else:";
                 "        return n"]).
Proof. vm_compute. reflexivity. Qed.

(** A run where every answer fails to parse: three attempts, and the
    text comes back as it was. *)
Example commentate_parse_failures :
  @commentate example_python (always (Completion "def f(:")) "a.py"
    (text_of ["def f():"; "    pass"]) None empty_world
  = (Ok (text_of ["def f():"; "    pass"]),
     {| stdout := ["  commentating f (1) ..."; "failed (parse failure)." ++ newline;
                   "  commentating f (2) ..."; "failed (parse failure)." ++ newline;
                   "  commentating f (3) ..."; "failed (parse failure)." ++ newline];
        logged := ["Parse failure:" ++ newline ++ "def f(:";
                   "Parse failure:" ++ newline ++ "def f(:";
                   "Parse failure:" ++ newline ++ "def f(:"];
        requests :=
          [prompt "Python " EmptyString (text_of ["def f():"; "    pass"]);
           prompt "Python " EmptyString (text_of ["def f():"; "    pass"]);
           prompt "Python " EmptyString (text_of ["def f():"; "    pass"])] |}).
Proof. vm_compute. reflexivity. Qed.

Lemma commentate_unbound_result_ast_witness :
  fst (@commentate example_python (always (Completion "def f() -> None: pass"))
         "a.txt" (text_of ["def f():"; "    pass"]) None empty_world)
  = Raise UnboundLocalError.
Proof.
  apply (commentate_unbound_result_ast (py := example_python)
           (service := always (Completion "def f() -> None: pass")))
    with (skipped := []) (func_name := "f") (rest := [])
         (the_code := text_of ["def f():"; "    pass"])
         (text := "def f() -> None: pass").
  - vm_compute. discriminate.
  - vm_compute. reflexivity.
  - intros name Hname. inversion Hname.
  - vm_compute. reflexivity.
  - left. vm_compute. reflexivity.
  - reflexivity.
  - exists "def f() -> None: pass". split.
    + vm_compute. apply list_elem_of_here.
    + vm_compute. discriminate.
Defined.

(** C2 fails on the code: after an [APIError], [get_comments] returns
    [None], and [commentate] subscripts it; the run ends with [TypeError]
    in the first iteration, with no retry. *)
Theorem commentate_api_error :
  @commentate example_python (always APIError) "a.py"
    (text_of ["def f():"; "    pass"]) None empty_world
  = (Raise TypeError,
     {| stdout := [announce "f"];
        logged := [];
        requests := [prompt "Python " EmptyString (text_of ["def f():"; "    pass"])] |}).
Proof. vm_compute. reflexivity. Qed.

(** ** Authentication failures *)

Section Abort.
Context {py : PythonAst} {service : Backend}.

(** A computation that sends no request obeys the rule. *)
Lemma aborts_silent {A} (m : M A) :
  (forall w, requests (snd (m w)) = requests w) -> aborts_on_auth m.
Proof.
  intros Hsilent w. exists []. split.
  - rewrite app_nil_r. apply Hsilent.
  - intros i content Hi. discriminate.
Qed.

Lemma aborts_ret {A} (a : A) : aborts_on_auth (ret a).
Proof. now apply aborts_silent. Qed.

Lemma aborts_raise {A} (e : exn) : aborts_on_auth (@raise A e).
Proof. now apply aborts_silent. Qed.

Lemma aborts_lift {A} (r : result A) : aborts_on_auth (lift r).
Proof. now apply aborts_silent. Qed.

Lemma aborts_print_end (text end_ : string) : aborts_on_auth (print_end text end_).
Proof. now apply aborts_silent. Qed.

Lemma aborts_print (text : string) : aborts_on_auth (print text).
Proof. now apply aborts_silent. Qed.

Lemma aborts_logging_error (text : string) : aborts_on_auth (logging_error text).
Proof. now apply aborts_silent. Qed.

(** The rule goes through sequencing: a failure in the first part ends
    the run there, and a failure in the second part is a failure of the
    second part run from the world the first part left. *)
Lemma aborts_bind {A B} (m : M A) (k : A -> M B) :
  aborts_on_auth m -> (forall a, aborts_on_auth (k a)) -> aborts_on_auth (bind m k).
Proof.
  intros Hm Hk w. unfold bind.
  destruct (Hm w) as (new1 & Hreq1 & Habort1).
  destruct (m w) as [[a|e] w1]; simpl in *.
  - destruct (Hk a w1) as (new2 & Hreq2 & Habort2).
    exists (new1 ++ new2)%list. split.
    + rewrite Hreq2, Hreq1. now rewrite app_assoc.
    + intros i content Hi Hauth.
      destruct (decide (i < length new1)) as [Hlt|Hge].
      * rewrite lookup_app_l in Hi by exact Hlt.
        rewrite take_app_le in Hauth by lia.
        destruct (Habort1 i content Hi Hauth) as (Hraise & _). discriminate.
      * rewrite lookup_app_r in Hi by lia.
        rewrite take_app_ge, app_assoc, <- Hreq1 in Hauth by lia.
        destruct (Habort2 _ content Hi Hauth) as (Hraise & Hlast & Hout).
        split; [exact Hraise|]. split; [|exact Hout].
        rewrite length_app. lia.
  - exists new1. split; [exact Hreq1|].
    intros i content Hi Hauth.
    destruct (Habort1 i content Hi Hauth) as (Hraise & Hlast & Hout).
    injection Hraise as ->. auto.
Qed.

(** The one place that sends requests: [get_comments] writes the
    diagnostic and exits when the service reports an authentication
    failure. *)
Lemma aborts_get_comments (programming_language translate_text the_code : string) :
  aborts_on_auth (get_comments programming_language translate_text the_code).
Proof.
  intros w. exists [prompt programming_language translate_text the_code]. split.
  - unfold get_comments, bind, create.
    destruct (ChatCompletion_create _ _); reflexivity.
  - intros [|i] content Hi Hauth; [|discriminate].
    injection Hi as <-. rewrite take_0, app_nil_r in Hauth.
    unfold get_comments, bind, create. rewrite Hauth. simpl.
    split; [reflexivity|]. split; [reflexivity|].
    exists (stdout w). unfold key_diagnostic. now rewrite <- !app_assoc.
Qed.

End Abort.

(** The computations of the driver are sequences and case distinctions
    over the steps above. *)
Ltac aborts_step :=
  first
    [ apply aborts_ret
    | apply aborts_raise
    | apply aborts_lift
    | apply aborts_print
    | apply aborts_print_end
    | apply aborts_logging_error
    | apply aborts_get_comments
    | apply aborts_bind; [|intros ?]
    | match goal with
      | |- aborts_on_auth (match ?x with _ => _ end) => destruct x
      end
    | progress cbv zeta ].

Ltac aborts := repeat aborts_step.

Section AbortDriver.
Context {py : PythonAst} {service : Backend}.
Variables (filename translate_text programming_language : string).

Lemma aborts_validate_and_replace
    (func_name the_code text : string) (vars : locals) :
  aborts_on_auth (validate_and_replace filename func_name the_code text vars).
Proof. unfold validate_and_replace. aborts. Qed.

Lemma aborts_attempt (func_name : string) (tries : nat) (vars : locals) :
  aborts_on_auth
    (attempt filename translate_text programming_language func_name tries vars).
Proof.
  unfold attempt.
  repeat first [apply aborts_validate_and_replace | aborts_step].
Qed.

Lemma aborts_while_tries (func_name : string) (left : nat) (vars : locals) :
  aborts_on_auth
    (while_tries filename translate_text programming_language func_name left vars).
Proof.
  revert vars. induction left as [|left IH]; intros vars; cbn [while_tries].
  - apply aborts_ret.
  - apply aborts_bind; [apply aborts_attempt|].
    intros [vars'|vars']; [apply aborts_ret | apply IH].
Qed.

Lemma aborts_for_functions (names : list string) (vars : locals) :
  aborts_on_auth
    (for_functions filename translate_text programming_language names vars).
Proof.
  revert vars. induction names as [|name names IH]; intros vars; cbn [for_functions].
  - apply aborts_ret.
  - apply aborts_bind; [apply aborts_while_tries | apply IH].
Qed.

End AbortDriver.

Lemma aborts_commentate {py : PythonAst} {service : Backend}
    (filename code : string) (language : option string) :
  aborts_on_auth (commentate filename code language).
Proof.
  unfold commentate.
  apply aborts_bind; [apply aborts_lift|]. intros names.
  apply aborts_bind; [apply aborts_for_functions|]. intros vars.
  apply aborts_ret.
Qed.

(** A run only adds to the history of requests. *)
Lemma commentate_requests {py : PythonAst} {service : Backend}
    (filename code : string) (language : option string) (w : world) :
  exists new,
    requests (snd (commentate filename code language w)) = (requests w ++ new)%list.
Proof.
  destruct (aborts_commentate filename code language w) as (new & Hreq & _).
  eauto.
Qed.

(** C9: when the service answers a request of a run of [commentate] with
    an authentication failure, the run ends with [sys.exit(1)]; the
    request is the last one the run sends, so it is not sent again and no
    other function gets a request; and the last lines on standard output
    are the diagnostic about the key. *)
Theorem commentate_authentication_failure {py : PythonAst} {service : Backend}
    (filename code : string) (language : option string) (w : world)
    (new : list string) (i : nat) (content : string) :
  requests (snd (commentate filename code language w)) = (requests w ++ new)%list ->
  new !! i = Some content ->
  ChatCompletion_create (requests w ++ take i new)%list content
  = AuthenticationError ->
  fst (commentate filename code language w) = Raise (SystemExit 1)
  /\ S i = length new
  /\ exists out,
       stdout (snd (commentate filename code language w))
       = (out ++ key_diagnostic)%list.
Proof.
  intros Hnew Hi Hauth.
  destruct (aborts_commentate filename code language w) as (new' & Hreq & Habort).
  rewrite Hnew in Hreq. apply app_inv_head in Hreq. subst new'.
  exact (Habort i content Hi Hauth).
Qed.

Lemma commentate_authentication_failure_witness :
  fst (@commentate example_python (always AuthenticationError) "a.py"
         (text_of ["def f():"; "    pass"; EmptyString; "def g():"; "    pass"])
         None empty_world)
  = Raise (SystemExit 1)
  /\ 1 = length [prompt "Python " EmptyString (text_of ["def f():"; "    pass"])]
  /\ exists out,
       stdout (snd (@commentate example_python (always AuthenticationError) "a.py"
                      (text_of ["def f():"; "    pass"; EmptyString;
                                "def g():"; "    pass"])
                      None empty_world))
       = (out ++ key_diagnostic)%list.
Proof.
  apply (commentate_authentication_failure (py := example_python)
           (service := always AuthenticationError))
    with (content := prompt "Python " EmptyString (text_of ["def f():"; "    pass"])).
  - vm_compute. reflexivity.
  - reflexivity.
  - reflexivity.
Defined.

(** * Further properties of the code *)

(** ** The walk yields every statement once *)

Lemma subnodes_children (node : stmt) :
  subnodes node = node :: flat_map subnodes (iter_child_nodes node).
Proof.
  destruct node; simpl; try reflexivity.
  - now rewrite flat_map_app.
  - now rewrite flat_map_app.
Qed.

Lemma walk_queue_statements (fuel : nat) (todo : list stmt) :
  nodes_count todo <= fuel ->
  walk_queue fuel todo ≡ₚ flat_map subnodes todo.
Proof.
  revert todo. induction fuel as [|fuel IH]; intros todo Hfuel.
  - destruct todo as [|node rest]; simpl in *; [reflexivity|].
    rewrite node_count_children in Hfuel. lia.
  - destruct todo as [|node rest]; [reflexivity|].
    cbn [walk_queue flat_map]. rewrite subnodes_children.
    cbn [app]. constructor.
    rewrite IH.
    + rewrite flat_map_app. apply Permutation_app_comm.
    + simpl in Hfuel. rewrite node_count_children in Hfuel.
      rewrite nodes_count_app. lia.
Qed.

(** The nodes [ast.walk] yields are the statements of the tree, each one
    once, whatever their order. *)
Lemma walk_statements (tree : pymod) : walk tree ≡ₚ statements tree.
Proof. apply walk_queue_statements. reflexivity. Qed.

Lemma find_is_function_None (nodes : list stmt) :
  List.find is_function nodes = None
  <-> forall node, node ∈ nodes -> is_function node = false.
Proof.
  split.
  - intros Hnone node Hin. apply list_elem_of_In in Hin.
    exact (List.find_none _ _ Hnone node Hin).
  - intros Hall. induction nodes as [|n nodes IH]; [reflexivity|].
    simpl. rewrite (Hall n) by apply list_elem_of_here.
    apply IH. intros node Hin. apply Hall. now apply list_elem_of_further.
Qed.

(** ** The comparison as a relation *)

Lemma forallb_without_strings_eq (p : stmt -> bool) (body : list stmt) :
  (forall n, n ∈ body -> is_Expr_Str n = true -> p n = true) ->
  forallb p (without_strings body) = forallb p body.
Proof.
  induction body as [|n body IH]; intros Hp; [reflexivity|].
  assert (Hrest : forallb p (without_strings body) = forallb p body).
  { apply IH. intros m Hm. apply Hp. now apply list_elem_of_further. }
  simpl. destruct (is_Expr_Str n) eqn:Hn; simpl.
  - rewrite (Hp n (list_elem_of_here _ _) Hn). exact Hrest.
  - now rewrite Hrest.
Qed.

Lemma has_all_attributes_Expr_Str (n : stmt) :
  is_Expr_Str n = true -> has_all_attributes n = true.
Proof. destruct n; simpl; intros H; try discriminate; reflexivity. Qed.

Lemma has_all_attributes_undocumented (body : list stmt) :
  forallb has_all_attributes (map (map_nodes normal_node) (undocumented body))
  = forallb has_all_attributes (map (map_nodes normal_node) body).
Proof.
  destruct body as [|n rest]; [reflexivity|].
  destruct n as [| | | | | | | |e|]; try reflexivity.
  destruct e as [c| | | | |]; try reflexivity.
  now destruct c.
Qed.

Lemma existsb_AnnAssign_undocumented (body : list stmt) :
  existsb is_AnnAssign (flat_map subnodes (undocumented body))
  = existsb is_AnnAssign (flat_map subnodes body).
Proof.
  destruct body as [|n rest]; [reflexivity|].
  destruct n as [| | | | | | | |e|]; try reflexivity.
  destruct e as [c| | | | |]; try reflexivity.
  now destruct c.
Qed.

(** After the loop a block has all the attributes the unparser reads
    exactly when no annotated assignment is in it, at any depth. *)
Lemma strip_block_attributes (block : list stmt) :
  Forall (fun n => has_all_attributes (map_nodes normal_node n)
                   = negb (existsb is_AnnAssign (subnodes n))) block ->
  forallb has_all_attributes (map (map_nodes normal_node) block)
  = negb (existsb is_AnnAssign (flat_map subnodes block)).
Proof.
  induction 1 as [|n block Hn _ IH]; [reflexivity|].
  cbn [map forallb flat_map]. rewrite existsb_app, negb_orb, Hn, IH. reflexivity.
Qed.

Lemma strip_body_attributes (body : list stmt) :
  Forall (fun n => has_all_attributes (map_nodes normal_node n)
                   = negb (existsb is_AnnAssign (subnodes n))) body ->
  forallb has_all_attributes
    (without_strings (map (map_nodes normal_node) (undocumented body)))
  = negb (existsb is_AnnAssign (flat_map subnodes body)).
Proof.
  intros Hbody.
  rewrite forallb_without_strings_eq
    by (intros n _; apply has_all_attributes_Expr_Str).
  rewrite has_all_attributes_undocumented. now apply strip_block_attributes.
Qed.

Lemma strip_node_attributes (node : stmt) :
  has_all_attributes (map_nodes normal_node node)
  = negb (existsb is_AnnAssign (subnodes node)).
Proof.
  induction node using stmt_nested_ind;
    rewrite ?strip_FunctionDef, ?strip_AsyncFunctionDef, ?strip_ClassDef,
      ?strip_While, ?strip_If;
    cbn [has_all_attributes subnodes existsb is_AnnAssign orb];
    rewrite ?strip_body_attributes by assumption;
    try reflexivity.
  - rewrite existsb_app, negb_orb, !strip_block_attributes by assumption.
    reflexivity.
  - rewrite existsb_app, negb_orb, !strip_block_attributes by assumption.
    reflexivity.
  - destruct value as [[]| | | | |]; reflexivity.
Qed.

Lemma strip_tree_attributes (tree : pymod) :
  forallb has_all_attributes (mod_body (normal_form tree))
  = negb (existsb is_AnnAssign (statements tree)).
Proof.
  rewrite strip_tree_body. cbn [mod_body]. apply strip_body_attributes.
  apply Forall_forall. intros n _. apply strip_node_attributes.
Qed.

Section Comparison.
Context {py : PythonAst}.

(** [compare_python_code] answers [False] as soon as one of the two texts
    holds an annotated assignment, at any depth: the loop deletes its
    annotation, the unparser fails on the node, and the bare [except]
    turns the failure into [False]. *)
Theorem compare_python_code_annotated_assignment
    (code1 code2 : string) (tree1 tree2 : pymod) (node : stmt) :
  ast_parse code1 = Some tree1 ->
  ast_parse code2 = Some tree2 ->
  node ∈ statements tree1 \/ node ∈ statements tree2 ->
  is_AnnAssign node = true ->
  compare_python_code code1 code2 = Ok false.
Proof.
  intros H1 H2 Hin Hann.
  rewrite (compare_python_code_parsed _ _ _ _ H1 H2).
  assert (Hfails : forall tree, node ∈ statements tree ->
                     exists e, unparse (normal_form tree) = Raise e).
  { intros tree Hnode. apply unparse_attributes.
    rewrite strip_tree_attributes. apply negb_false_iff, existsb_exists.
    exists node. split; [now apply list_elem_of_In | exact Hann]. }
  destruct Hin as [Hin|Hin]; destruct (Hfails _ Hin) as [e ->].
  - reflexivity.
  - now destruct (unparse (normal_form tree1)).
Qed.

(** A call that does not parse one of its texts raises, whatever the
    order of the two. *)
Lemma compare_python_code_Ok (code1 code2 : string) (answer : bool) :
  compare_python_code code1 code2 = Ok answer ->
  exists tree1 tree2,
    ast_parse code1 = Some tree1 /\ ast_parse code2 = Some tree2.
Proof.
  unfold compare_python_code, parse.
  destruct (ast_parse code1) as [tree1|]; [|discriminate].
  destruct (ast_parse code2) as [tree2|]; [|discriminate].
  eauto.
Qed.

(** The order of the two texts does not matter for the answer: a call
    that answers gives the same answer with the texts swapped, and a call
    that raises also raises with the texts swapped. *)
Theorem compare_python_code_sym (code1 code2 : string) (answer : bool) :
  compare_python_code code1 code2 = Ok answer
  <-> compare_python_code code2 code1 = Ok answer.
Proof.
  assert (Hhalf : forall c1 c2,
            compare_python_code c1 c2 = Ok answer ->
            compare_python_code c2 c1 = Ok answer).
  { intros c1 c2 H.
    destruct (compare_python_code_Ok _ _ _ H) as (tree1 & tree2 & H1 & H2).
    rewrite (compare_python_code_parsed _ _ _ _ H1 H2) in H.
    rewrite (compare_python_code_parsed _ _ _ _ H2 H1).
    destruct (unparse (normal_form tree1)) as [text1|],
             (unparse (normal_form tree2)) as [text2|]; try exact H.
    now rewrite String.eqb_sym. }
  split; apply Hhalf.
Qed.

(** Equal answers chain: a text equal to a second one that is equal to a
    third is equal to the third. *)
Theorem compare_python_code_trans (code1 code2 code3 : string) :
  compare_python_code code1 code2 = Ok true ->
  compare_python_code code2 code3 = Ok true ->
  compare_python_code code1 code3 = Ok true.
Proof.
  intros H12 H23.
  destruct (compare_python_code_Ok _ _ _ H12) as (tree1 & tree2 & H1 & H2).
  destruct (compare_python_code_Ok _ _ _ H23) as (tree2' & tree3 & H2' & H3).
  rewrite (compare_python_code_parsed _ _ _ _ H1 H2) in H12.
  rewrite (compare_python_code_parsed _ _ _ _ H2 H3) in H23.
  rewrite (compare_python_code_parsed _ _ _ _ H1 H3).
  destruct (unparse (normal_form tree1)) as [text1|],
           (unparse (normal_form tree2)) as [text2|],
           (unparse (normal_form tree3)) as [text3|]; try discriminate.
  injection H12 as H12%String.eqb_eq. injection H23 as H23%String.eqb_eq. subst.
  now rewrite String.eqb_refl.
Qed.

End Comparison.

(** ** Enumerating, extracting and replacing functions *)

Lemma is_function_named_def_name (function_name : string) (node : stmt) :
  is_function_named function_name node = true
  <-> def_name node = Some function_name.
Proof.
  unfold is_function_named. destruct (def_name node) as [name|].
  - rewrite String.eqb_eq. split; congruence.
  - split; discriminate.
Qed.

Lemma elem_of_enumerated (function_name : string) (body : list stmt) :
  function_name ∈ omap def_name body
  <-> exists node, node ∈ body /\ def_name node = Some function_name.
Proof. apply list_elem_of_omap. Qed.

(** The search of [extract_function_ast] and of [replace_function] fails
    exactly on the names [enumerate_functions] does not list. *)
Lemma find_function_None (function_name : string) (body : list stmt) :
  find_function function_name body = None
  <-> function_name ∉ omap def_name body.
Proof.
  unfold find_function. rewrite list_find_None, Forall_forall, elem_of_enumerated.
  split.
  - intros Hnone (node & Hin & Hname).
    apply (Hnone node Hin). apply Is_true_true.
    now apply is_function_named_def_name.
  - intros Hnone node Hin Hnamed. apply Hnone. exists node. split; [exact Hin|].
    now apply is_function_named_def_name, Is_true_true.
Qed.

Lemma find_function_is_Some (function_name : string) (body : list stmt) :
  function_name ∈ omap def_name body ->
  exists i node,
    find_function function_name body = Some (i, node)
    /\ def_name node = Some function_name.
Proof.
  intros Hin. destruct (find_function function_name body) as [[i node]|] eqn:Hfind.
  - exists i, node. split; [reflexivity|].
    apply find_function_Some in Hfind as (_ & Hnamed & _).
    now apply is_function_named_def_name.
  - apply find_function_None in Hfind. contradiction.
Qed.

Lemma splice_def_name (function_node new_function_ast : stmt) :
  def_name (splice function_node new_function_ast) = def_name function_node.
Proof. unfold splice. rewrite update_args_eq. now destruct function_node. Qed.

Lemma omap_insert_same {A B} (f : A -> option B) (l : list A) (i : nat) (x y : A) :
  l !! i = Some y -> f x = f y -> omap f (<[i := x]> l) = omap f l.
Proof.
  revert i. induction l as [|z l IH]; intros [|i] Hi Hf; try discriminate.
  - injection Hi as ->. cbn. now rewrite Hf.
  - cbn in *. specialize (IH i Hi Hf).
    destruct (f z); [f_equal|]; exact IH.
Qed.

Lemma with_args_same (a : arguments) : with_args a (args a) = a.
Proof. now destruct a. Qed.

Section Extraction.
Context {py : PythonAst}.

(** [extract_function_ast] finds every name that [enumerate_functions]
    lists for the same text, and raises [ValueError] for every other
    name: the names of the loop of [commentate] are never missing. *)
Theorem extract_function_ast_enumerated
    (program_str function_name : string) (names : list string) :
  enumerate_functions program_str = Ok names ->
  (function_name ∈ names ->
   exists node,
     extract_function_ast program_str function_name = Ok node
     /\ def_name node = Some function_name)
  /\ (function_name ∉ names ->
      extract_function_ast program_str function_name = Raise ValueError).
Proof.
  unfold enumerate_functions, extract_function_ast, parse.
  destruct (ast_parse program_str) as [tree|]; [|discriminate].
  cbn [bind_result]. intros [= <-]. split.
  - intros (i & node & -> & Hname)%find_function_is_Some. eauto.
  - intros Hnot%find_function_None. now rewrite Hnot.
Qed.

(** [replace_function] gets as far as its tree exactly when the name is
    among the functions of the host and among those of the donor. *)
Theorem replace_function_tree_defined
    (program_str function_name new_function_str : string)
    (names new_names : list string) :
  enumerate_functions program_str = Ok names ->
  enumerate_functions new_function_str = Ok new_names ->
  (exists tree,
     replace_function_tree program_str function_name new_function_str = Ok tree)
  <-> function_name ∈ names /\ function_name ∈ new_names.
Proof.
  unfold enumerate_functions, replace_function_tree, extract_function_ast, parse.
  destruct (ast_parse program_str) as [tree|]; [|discriminate].
  destruct (ast_parse new_function_str) as [new_tree|]; [|discriminate].
  cbn [bind_result]. intros [= <-] [= <-].
  destruct (find_function function_name (mod_body tree)) as [[i node]|] eqn:Hhost.
  - destruct (find_function function_name (mod_body new_tree))
      as [[j new_node]|] eqn:Hdonor; cbn [bind_result].
    + split; [intros _|eauto].
      apply find_function_Some in Hhost as (Hi & Hnamed%is_function_named_def_name & _).
      apply find_function_Some in Hdonor as (Hj & Hnew%is_function_named_def_name & _).
      split; apply elem_of_enumerated; eauto using list_elem_of_lookup_2.
    + apply find_function_None in Hdonor.
      split; [intros [? [=]] | intros [_ ?]; contradiction].
  - apply find_function_None in Hhost.
    split; [intros [? [=]] | intros [? _]; contradiction].
Qed.

(** The host is searched before the donor is parsed: without the function
    in the host the call raises [ValueError], whatever the donor text. *)
Theorem replace_function_missing_in_host
    (program_str function_name new_function_str : string) (names : list string) :
  enumerate_functions program_str = Ok names ->
  function_name ∉ names ->
  replace_function program_str function_name new_function_str = Raise ValueError.
Proof.
  unfold enumerate_functions, replace_function, replace_function_tree, parse.
  destruct (ast_parse program_str) as [tree|]; [|discriminate].
  cbn [bind_result]. intros [= <-] Hnot%find_function_None.
  now rewrite Hnot.
Qed.

(** The tree [replace_function] unparses has the top-level functions of
    the host, by name and in order. *)
Theorem replace_function_tree_names
    (program_str function_name new_function_str : string)
    (program_ast tree : pymod) :
  ast_parse program_str = Some program_ast ->
  replace_function_tree program_str function_name new_function_str = Ok tree ->
  omap def_name (mod_body tree) = omap def_name (mod_body program_ast).
Proof.
  intros Hhost. unfold replace_function_tree, parse. rewrite Hhost.
  cbn [bind_result].
  destruct (find_function function_name (mod_body program_ast))
    as [[i node]|] eqn:Hfind; [|discriminate].
  destruct (extract_function_ast new_function_str function_name)
    as [new_node|]; [|discriminate].
  cbn [bind_result]. intros [= <-]. cbn [mod_body].
  apply find_function_Some in Hfind as (Hi & _ & _).
  apply omap_insert_same with (y := node); [exact Hi|].
  apply splice_def_name.
Qed.

End Extraction.

(** What a docstring-and-types variant of a function keeps of it. *)
Lemma variant_function_splice (function_node new_function_ast : stmt) :
  variant false function_node new_function_ast ->
  is_function function_node = true ->
  splice function_node new_function_ast = new_function_ast.
Proof.
  intros Hvariant Hfun. unfold splice. rewrite update_args_eq.
  destruct Hvariant as
    [name a1 a2 b1 b2 decos r1 r2 (_ & (Hpos & Hvar & Hkwonly & Hkw) & Hkwd & Hdef) _
    |name a1 a2 b1 b2 decos r1 r2 (_ & (Hpos & Hvar & Hkwonly & Hkw) & Hkwd & Hdef) _
    | | | | | | | | ]; try discriminate; simpl;
    f_equal; destruct a1, a2; unfold with_args, args_of; simpl in *;
    congruence.
Qed.

(** ** Texts *)

Lemma append_cons (c : ascii) (a b : string) :
  String c a ++ b = String c (a ++ b).
Proof. reflexivity. Qed.

Lemma length_append (a b : string) :
  String.length (a ++ b) = String.length a + String.length b.
Proof.
  induction a as [|c a IH]; [reflexivity|].
  rewrite append_cons. simpl. now rewrite IH.
Qed.

Lemma all_chars_append (p : ascii -> bool) (a b : string) :
  all_chars p (a ++ b) = all_chars p a && all_chars p b.
Proof.
  induction a as [|c a IH]; [reflexivity|].
  rewrite append_cons. simpl. now rewrite IH, andb_assoc.
Qed.

Lemma split_on_nonempty (sep : ascii) (s : string) :
  exists first others, split_on sep s = first :: others.
Proof.
  induction s as [|c s (first & others & IH)]; simpl; [eauto|].
  destruct (Ascii.eqb c sep); [eauto|]. rewrite IH. eauto.
Qed.

(** Splitting a text that has the separator in it: the pieces before the
    separator, then the pieces after it. *)
Lemma split_on_append (sep : ascii) (a b : string) :
  split_on sep (a ++ String sep b) = (split_on sep a ++ split_on sep b)%list.
Proof.
  induction a as [|c a IH].
  - change (EmptyString ++ String sep b) with (String sep b).
    simpl. now rewrite Ascii.eqb_refl.
  - rewrite append_cons. simpl. rewrite IH.
    destruct (Ascii.eqb c sep); [reflexivity|].
    destruct (split_on_nonempty sep a) as (first & others & ->). reflexivity.
Qed.

Lemma split_on_without (sep : ascii) (s : string) :
  without_char sep s = true -> split_on sep s = [s].
Proof.
  unfold without_char. induction s as [|c s IH]; [reflexivity|].
  simpl. intros [Hc Hs]%andb_prop. apply negb_true_iff in Hc.
  rewrite Hc, (IH Hs). reflexivity.
Qed.

Lemma lstrip_blank (s : string) :
  lstrip s = EmptyString <-> blank s = true.
Proof.
  unfold blank. induction s as [|c s IH]; simpl; [tauto|].
  destruct (is_space c); simpl; [exact IH|]. split; discriminate.
Qed.

Lemma lstrip_head (s : string) :
  lstrip s = EmptyString
  \/ exists c rest, lstrip s = String c rest /\ is_space c = false.
Proof.
  induction s as [|c s IH]; simpl; [now left|].
  destruct (is_space c) eqn:Hc; [exact IH|]. right. eauto.
Qed.

Lemma rstrip_head (c : ascii) (rest : string) :
  is_space c = false -> rstrip (String c rest) <> EmptyString.
Proof.
  intros Hc. simpl. rewrite Hc. now destruct (rstrip rest).
Qed.

(** [strip] leaves nothing exactly of the texts of white space. *)
Lemma strip_blank (s : string) :
  strip s = EmptyString <-> blank s = true.
Proof.
  unfold strip. rewrite <- lstrip_blank.
  destruct (lstrip_head s) as [->|(c & rest & -> & Hc)]; [tauto|].
  split; [|discriminate]. intros H. now apply rstrip_head in H.
Qed.

Lemma lstrip_spaceless (s : string) : spaceless s = true -> lstrip s = s.
Proof.
  unfold spaceless. destruct s as [|c s]; [reflexivity|].
  simpl. intros [Hc _]%andb_prop. apply negb_true_iff in Hc. now rewrite Hc.
Qed.

Lemma rstrip_spaceless (s : string) : spaceless s = true -> rstrip s = s.
Proof.
  unfold spaceless. induction s as [|c s IH]; [reflexivity|].
  simpl. intros [Hc Hs]%andb_prop. apply negb_true_iff in Hc.
  rewrite (IH Hs), Hc. now destruct s.
Qed.

Lemma strip_spaceless (s : string) : spaceless s = true -> strip s = s.
Proof.
  intros H. unfold strip. rewrite lstrip_spaceless by exact H.
  now apply rstrip_spaceless.
Qed.

Lemma blank_lines (text : string) :
  blank text = true
  <-> forall line, line ∈ split_on LF text -> blank line = true.
Proof.
  unfold blank. induction text as [|c text IH]; simpl.
  - split; [|reflexivity]. intros _ line [->|H]%elem_of_cons; [reflexivity|inversion H].
  - destruct (Ascii.eqb_spec c LF) as [->|Hc].
    + change (is_space LF) with true. simpl. rewrite IH. split.
      * intros H line [->|Hin]%elem_of_cons; [reflexivity|auto].
      * intros H line Hin. apply H. now apply list_elem_of_further.
    + destruct (split_on_nonempty LF text) as (first & others & Hsplit).
      rewrite Hsplit in *. rewrite andb_true_iff, IH. split.
      * intros [Hc' H] line [->|Hin]%elem_of_cons.
        -- simpl. rewrite Hc'. apply H, list_elem_of_here.
        -- apply H. now apply list_elem_of_further.
      * intros H. pose proof (H _ (list_elem_of_here _ _)) as Hfirst.
        simpl in Hfirst. apply andb_prop in Hfirst as [Hc' Hfirst].
        split; [exact Hc'|].
        intros line [->|Hin]%elem_of_cons; [exact Hfirst|].
        apply H. now apply list_elem_of_further.
Qed.

Lemma skip_blank_lines_nil (lines : list string) :
  skip_blank_lines lines = []
  <-> forall line, line ∈ lines -> blank line = true.
Proof.
  induction lines as [|l lines IH]; simpl.
  - split; [|reflexivity]. intros _ line Hin. inversion Hin.
  - destruct (String.eqb_spec (strip l) EmptyString) as [Hblank|Hnot].
    + rewrite IH. apply strip_blank in Hblank. split.
      * intros H line [->|Hin]%elem_of_cons; auto.
      * intros H line Hin. apply H. now apply list_elem_of_further.
    + split; [discriminate|]. intros H. exfalso. apply Hnot, strip_blank, H.
      apply list_elem_of_here.
Qed.

(** [find_code_start] raises [IndexError] exactly on the texts of white
    space only, the empty text among them: the index of its loop runs
    off the list of lines. *)
Theorem find_code_start_blank (code : string) :
  find_code_start code = Raise IndexError <-> blank code = true.
Proof.
  rewrite blank_lines, <- skip_blank_lines_nil. unfold find_code_start.
  destruct (skip_blank_lines (split_on LF code)) as [|line rest].
  - tauto.
  - split; [|discriminate].
    destruct (String.eqb _ fence); [discriminate|].
    destruct (startswith _ fence); [|discriminate].
    destruct (_ && _); discriminate.
Qed.

(** Otherwise it returns [-1], [3], or an index above [3]. *)
Theorem find_code_start_range (code : string) (k : Z) :
  find_code_start code = Ok k -> (k = -1 \/ 3 <= k)%Z.
Proof.
  unfold find_code_start.
  destruct (skip_blank_lines (split_on LF code)) as [|line rest]; [discriminate|].
  destruct (String.eqb _ fence); [intros [= <-]; lia|].
  destruct (startswith _ fence); [|intros [= <-]; lia].
  destruct (_ && _); intros [= <-]; lia.
Qed.

Lemma append_assoc (a b c : string) : (a ++ b) ++ c = a ++ (b ++ c).
Proof.
  induction a as [|x a IH]; [reflexivity|].
  rewrite !append_cons. now rewrite IH.
Qed.

Lemma prefix_append (p s : string) : String.prefix p (p ++ s) = true.
Proof.
  induction p as [|c p IH]; [now destruct s|].
  rewrite append_cons. simpl. now destruct (ascii_dec c c).
Qed.

Lemma prefix_mismatch (a b : ascii) (p s : string) :
  a <> b -> String.prefix (String a p) (String b s) = false.
Proof. intros Hab. simpl. now destruct (ascii_dec a b). Qed.

(** A search that starts behind a prefix is a search in the rest. *)
Lemma index_skip (p sub t : string) :
  String.index (String.length p) sub (p ++ t)
  = (fun i => String.length p + i) <$> String.index 0 sub t.
Proof.
  induction p as [|c p IH].
  - change (EmptyString ++ t) with t. simpl. now destruct (String.index 0 sub t).
  - rewrite append_cons. simpl. rewrite IH.
    now destruct (String.index 0 sub t).
Qed.

Lemma index_without_head (c : ascii) (sub s : string) :
  without_char c s = true -> String.index 0 (String c sub) s = None.
Proof.
  unfold without_char. induction s as [|x s IH]; [reflexivity|].
  simpl. intros [Hx Hs]%andb_prop.
  apply negb_true_iff, Ascii.eqb_neq in Hx.
  destruct (ascii_dec c x) as [->|_]; [contradiction|].
  now rewrite (IH Hs).
Qed.

Lemma index_cons (sub : string) (b : ascii) (s : string) :
  String.index 0 sub (String b s)
  = if String.prefix sub (String b s) then Some 0
    else S <$> String.index 0 sub s.
Proof. simpl. now destruct (String.index 0 sub s). Qed.

(** The first fence behind a text without backtick is right behind it. *)
Lemma index_fence (body tail : string) :
  without_char backtick body = true ->
  String.index 0 fence (body ++ fence ++ tail) = Some (String.length body).
Proof.
  unfold without_char. induction body as [|c body IH]; intros Hbody.
  - change (EmptyString ++ fence ++ tail) with (fence ++ tail).
    pose proof (prefix_append fence tail) as Hprefix.
    destruct (fence ++ tail) as [|x rest] eqn:Htext; [discriminate|].
    rewrite index_cons, Hprefix. reflexivity.
  - simpl in Hbody. apply andb_prop in Hbody as [Hc Hrest].
    apply negb_true_iff, Ascii.eqb_neq in Hc.
    rewrite append_cons, index_cons.
    unfold fence at 1. rewrite prefix_mismatch by (unfold backtick in Hc; congruence).
    fold fence. now rewrite (IH Hrest).
Qed.

Lemma substring_skip (p t : string) (m : nat) :
  String.substring (String.length p) m (p ++ t) = String.substring 0 m t.
Proof.
  induction p as [|c p IH]; [reflexivity|].
  rewrite append_cons. exact IH.
Qed.

Lemma substring_prefix (a b : string) :
  String.substring 0 (String.length a) (a ++ b) = a.
Proof.
  induction a as [|c a IH].
  - simpl. now destruct (EmptyString ++ b).
  - rewrite append_cons. simpl. now rewrite IH.
Qed.

(** Slices with bounds inside the text. *)
Lemma slice_inside (p a t : string) :
  slice (p ++ a ++ t)
    (Z.of_nat (String.length p))
    (Z.of_nat (String.length p + String.length a))
  = a.
Proof.
  unfold slice, slice_bound. rewrite !length_append.
  destruct (Z.ltb_spec (Z.of_nat (String.length p)) 0); [lia|].
  destruct (Z.ltb_spec (Z.of_nat (String.length p + String.length a)) 0); [lia|].
  rewrite !Z.min_l by lia.
  rewrite Nat2Z.id.
  replace (Z.to_nat _) with (String.length a) by lia.
  rewrite substring_skip. apply substring_prefix.
Qed.

Lemma slice_from_prefix (p a : string) :
  slice_from (p ++ a) (Z.of_nat (String.length p)) = a.
Proof.
  unfold slice_from. rewrite length_append.
  pose proof (slice_inside p a EmptyString) as H.
  now rewrite append_empty in H.
Qed.

Lemma eqb_append_longer (a b : string) :
  b <> EmptyString -> String.eqb (a ++ b) a = false.
Proof.
  intros Hb. apply String.eqb_neq. intros Heq.
  apply (f_equal String.length) in Heq. rewrite length_append in Heq.
  destruct b; [contradiction|]. simpl in Heq. lia.
Qed.

Lemma spaceless_without (c : ascii) (s : string) :
  is_space c = true -> spaceless s = true -> without_char c s = true.
Proof.
  unfold spaceless, without_char. intros Hc.
  induction s as [|x s IH]; [reflexivity|].
  simpl. intros [Hx Hs]%andb_prop. rewrite (IH Hs), andb_true_r.
  apply negb_true_iff, Ascii.eqb_neq. intros ->.
  rewrite Hc in Hx. discriminate.
Qed.

(** An answer that opens with a fence and a language word, and closes the
    code with a fence: [find_code_start] returns the length of the first
    line, and the block [commentate] cuts out is the code between the two
    fences, behind the line end of the first line. *)
Theorem fenced_code_block (word body tail : string) :
  word <> EmptyString ->
  spaceless word = true ->
  without_char backtick body = true ->
  find_code_start (fence ++ word ++ newline ++ body ++ fence ++ tail)
  = Ok (Z.of_nat (String.length word) + 3)%Z
  /\ code_block_at (fence ++ word ++ newline ++ body ++ fence ++ tail)
       (Z.of_nat (String.length word) + 3)
     = newline ++ body.
Proof.
  intros Hword Hspaceless Hbody.
  assert (Hline : spaceless (fence ++ word) = true).
  { unfold spaceless in Hspaceless |- *.
    rewrite all_chars_append. now rewrite Hspaceless. }
  split.
  - unfold find_code_start.
    rewrite <- (append_assoc fence word). unfold newline at 1.
    rewrite append_cons.
    change (EmptyString ++ body ++ fence ++ tail) with (body ++ fence ++ tail).
    rewrite split_on_append.
    rewrite split_on_without
      by (apply spaceless_without; [reflexivity | exact Hline]).
    cbn [app skip_blank_lines]. rewrite strip_spaceless by exact Hline.
    destruct (String.eqb_spec (fence ++ word) EmptyString) as [Hempty|_];
      [discriminate|].
    rewrite !strip_spaceless by exact Hline.
    rewrite eqb_append_longer by exact Hword.
    unfold startswith. rewrite prefix_append.
    assert (Hslice : slice_from (fence ++ word) 3 = word)
      by exact (slice_from_prefix fence word).
    rewrite Hslice, strip_spaceless by exact Hspaceless.
    rewrite (index_without_head " "%char EmptyString word)
      by (apply spaceless_without; [reflexivity | exact Hspaceless]).
    destruct word; [contradiction|]. reflexivity.
  - unfold code_block_at, find_from.
    replace (Z.to_nat (Z.of_nat (String.length word) + 3 + 1))
      with (String.length (fence ++ word ++ newline))
      by (rewrite !length_append; simpl; lia).
    rewrite <- (append_assoc word newline), <- (append_assoc fence (word ++ newline)).
    rewrite index_skip, index_fence by exact Hbody.
    cbn [fmap option_fmap option_map].
    destruct (Z.eqb_spec (Z.of_nat (String.length word) + 3) (-1)); [lia|].
    destruct (Z.eqb_spec
                (Z.of_nat (String.length (fence ++ word ++ newline)
                           + String.length body)) (-1)); [lia|].
    cbn [orb].
    rewrite <- (append_assoc fence word newline), (append_assoc (fence ++ word)).
    rewrite <- (append_assoc newline body (fence ++ tail)).
    replace (Z.of_nat (String.length word) + 3)%Z
      with (Z.of_nat (String.length (fence ++ word)))
      by (rewrite length_append; simpl; lia).
    replace (Z.of_nat (String.length ((fence ++ word) ++ newline)
                       + String.length body))
      with (Z.of_nat (String.length (fence ++ word)
                      + String.length (newline ++ body)))
      by (rewrite !length_append; simpl; lia).
    apply slice_inside.
Qed.

Lemma last_split_on (sep : ascii) (base ext : string) :
  without_char sep ext = true ->
  last (split_on sep (base ++ String sep ext)) = Some ext.
Proof.
  intros Hext. rewrite split_on_append, (split_on_without sep ext Hext).
  apply last_snoc.
Qed.

(** The language of a file is read off the text behind its last dot, and
    a name without a dot counts as its own extension; an extension that
    is not in the table gives the empty string. *)
Lemma get_language_from_file_name_extension (base ext : string) :
  without_char "."%char ext = true ->
  get_language_from_file_name (base ++ "." ++ ext)
  = default EmptyString (language_map !! ext)
  /\ get_language_from_file_name ext
     = default EmptyString (language_map !! ext).
Proof.
  intros Hext. unfold get_language_from_file_name. split.
  - change ("." ++ ext) with (String "."%char ext).
    rewrite last_split_on by exact Hext.
    change (default EmptyString (Some ext)) with ext.
    now destruct (language_map !! ext).
  - rewrite split_on_without by exact Hext.
    change (default EmptyString (last [ext])) with ext.
    now destruct (language_map !! ext).
Qed.

Lemma language_map_Python (ext : string) :
  language_map !! ext = Some "Python" <-> ext = "py".
Proof.
  unfold language_map. rewrite <- elem_of_list_to_map.
  - rewrite !elem_of_cons, elem_of_nil.
    split; [|intros ->; tauto].
    intros H. repeat (destruct H as [H|H]; [congruence|]). destruct H.
  - apply (bool_decide_unpack _). vm_compute. reflexivity.
Qed.

(** The validation on syntax trees is for the files with the extension
    [py], in lower case, and for no other file. *)
Theorem get_language_from_file_name_Python (base ext : string) :
  without_char "."%char ext = true ->
  get_language_from_file_name (base ++ "." ++ ext) = "Python" <-> ext = "py".
Proof.
  intros Hext.
  destruct (get_language_from_file_name_extension base ext Hext) as [-> _].
  rewrite <- language_map_Python.
  destruct (language_map !! ext) as [language|]; simpl.
  - split; congruence.
  - split; discriminate.
Qed.

(** ** Lines *)

Lemma splitlines_from_clean (line rest : string) :
  clean_line line = true ->
  line <> EmptyString ->
  splitlines_from false (line ++ rest)
  = (Some (line ++ default EmptyString (fst (splitlines_from false rest))),
     snd (splitlines_from false rest)).
Proof.
  unfold clean_line. induction line as [|c line IH]; intros Hclean Hline;
    [contradiction|].
  simpl in Hclean. apply andb_prop in Hclean as [Hc Hclean].
  apply negb_true_iff in Hc.
  rewrite !append_cons. cbn [splitlines_from andb]. rewrite Hc.
  destruct line as [|c' line'].
  - change (EmptyString ++ rest) with rest.
    destruct (splitlines_from false rest) as [next others]. reflexivity.
  - rewrite (IH Hclean) by discriminate. reflexivity.
Qed.

Lemma splitlines_from_LF (rest : string) :
  splitlines_from false (String LF rest)
  = (Some EmptyString, splitlines rest).
Proof.
  unfold splitlines. cbn [splitlines_from andb].
  change (is_linebreak LF) with true. change (Ascii.eqb LF CR) with false.
  cbn [andb]. now destruct (splitlines_from false rest) as [next others].
Qed.

Lemma splitlines_line (line rest : string) :
  clean_line line = true ->
  splitlines (line ++ String LF rest) = line :: splitlines rest.
Proof.
  intros Hclean. destruct line as [|c line].
  - change (EmptyString ++ String LF rest) with (String LF rest).
    unfold splitlines at 1. now rewrite splitlines_from_LF.
  - unfold splitlines at 1.
    rewrite splitlines_from_clean by (exact Hclean || discriminate).
    rewrite splitlines_from_LF. cbn [fst snd default cons_line].
    now rewrite append_empty.
Qed.

Lemma splitlines_last (line : string) :
  clean_line line = true -> line <> EmptyString -> splitlines line = [line].
Proof.
  intros Hclean Hline. unfold splitlines.
  rewrite <- (append_empty line) at 1.
  rewrite splitlines_from_clean by assumption.
  cbn [splitlines_from fst snd default cons_line]. now rewrite append_empty.
Qed.

(** [splitlines] undoes the join with line feeds, for lines without line
    ends of their own, the last of them not empty. *)
Lemma splitlines_text_of (lines : list string) :
  Forall (fun line => clean_line line = true) lines ->
  last lines <> Some EmptyString ->
  splitlines (text_of lines) = lines.
Proof.
  unfold text_of. induction 1 as [|line lines Hline Hlines IH]; intros Hlast.
  - reflexivity.
  - destruct lines as [|next lines].
    + cbn [String.concat]. apply splitlines_last; [exact Hline|].
      intros ->. now apply Hlast.
    + cbn [String.concat]. unfold newline at 1. rewrite append_cons.
      change (EmptyString ++ String.concat newline (next :: lines))
        with (String.concat newline (next :: lines)).
      rewrite splitlines_line by exact Hline. f_equal. apply IH. exact Hlast.
Qed.

Section Lines.
Context {py : PythonAst}.

(** On a text in the form the unparser writes, lines joined by line feeds
    with no line end at the end, [remove_code_before_function] returns
    the lines from the first function definition on, joined in the same
    way; a text whose first definition is on its first line comes back
    as it is. *)
Theorem remove_code_before_function_lines
    (lines : list string) (tree : pymod) (node : stmt) :
  ast_parse (text_of lines) = Some tree ->
  List.find is_function (walk tree) = Some node ->
  Forall (fun line => clean_line line = true) lines ->
  last lines <> Some EmptyString ->
  remove_code_before_function (text_of lines)
  = Ok (text_of (drop (def_lineno (text_of lines) - 1) lines))
  /\ (def_lineno (text_of lines) = 1 ->
      remove_code_before_function (text_of lines) = Ok (text_of lines)).
Proof.
  intros Hparse Hfind Hclean Hlast.
  assert (Hrun : remove_code_before_function (text_of lines)
                 = Ok (text_of (drop (def_lineno (text_of lines) - 1) lines))).
  { unfold remove_code_before_function, parse. rewrite Hparse.
    cbn [bind_result]. rewrite Hfind.
    now rewrite splitlines_text_of by assumption. }
  split; [exact Hrun|]. intros Hfirst. rewrite Hrun, Hfirst. reflexivity.
Qed.

(** A text without a function definition, at any depth, comes back as it
    is, whatever its line ends. *)
Theorem remove_code_before_function_no_function (code : string) (tree : pymod) :
  ast_parse code = Some tree ->
  (forall node, node ∈ statements tree -> is_function node = false) ->
  remove_code_before_function code = Ok code.
Proof.
  intros Hparse Hnone. unfold remove_code_before_function, parse.
  rewrite Hparse. cbn [bind_result].
  assert (Hfind : List.find is_function (walk tree) = None).
  { apply find_is_function_None. intros node Hin. apply Hnone.
    now rewrite <- (walk_statements tree). }
  now rewrite Hfind.
Qed.

End Lines.

(** ** The checks on texts without the thing they look for *)

Lemma has_docstring_loop_true (nodes : list stmt) :
  has_docstring_loop nodes = true ->
  exists node body,
    node ∈ nodes /\ is_function node = true
    /\ def_body node = Some body /\ opens_with_text body.
Proof.
  induction nodes as [|n nodes IH]; [discriminate|].
  intros Hloop.
  assert (Hrest : has_docstring_loop nodes = true ->
                  exists node body,
                    node ∈ n :: nodes /\ is_function node = true
                    /\ def_body node = Some body /\ opens_with_text body).
  { intros (node & body & Hin & H)%IH. exists node, body.
    split; [now apply list_elem_of_further | exact H]. }
  destruct n as [name a [|first body] d r|name a [|first body] d r| | | | | | | |];
    try (apply Hrest; exact Hloop).
  - destruct first as [| | | | | | | |e|]; try (apply Hrest; exact Hloop).
    destruct e as [[s| | |]| | | | |]; try (apply Hrest; exact Hloop).
    simpl in Hloop. apply negb_true_iff, String.eqb_neq in Hloop.
    eexists _, _. split; [apply list_elem_of_here|].
    split; [reflexivity|]. split; [reflexivity|].
    exists s, body. split; [reflexivity | exact Hloop].
  - destruct first as [| | | | | | | |e|]; try (apply Hrest; exact Hloop).
    destruct e as [[s| | |]| | | | |]; try (apply Hrest; exact Hloop).
    simpl in Hloop. apply negb_true_iff, String.eqb_neq in Hloop.
    eexists _, _. split; [apply list_elem_of_here|].
    split; [reflexivity|]. split; [reflexivity|].
    exists s, body. split; [reflexivity | exact Hloop].
Qed.

Section Checks.
Context {py : PythonAst}.

(** [has_docstring] answers [True] only when some function definition of
    the text, at whatever depth, opens with a string of non-empty text. *)
Theorem has_docstring_true (func_code : string) (tree : pymod) :
  ast_parse func_code = Some tree ->
  has_docstring func_code = Ok true ->
  exists node body,
    node ∈ statements tree /\ is_function node = true
    /\ def_body node = Some body /\ opens_with_text body.
Proof.
  intros Hparse. unfold has_docstring, parse. rewrite Hparse.
  cbn [bind_result]. intros [= Hloop].
  destruct (has_docstring_loop_true _ Hloop) as (node & body & Hin & H).
  exists node, body. split; [|exact H]. now rewrite <- (walk_statements tree).
Qed.

(** On a text without a function definition, at any depth, both checks
    answer [False]; neither raises. *)
Theorem checks_without_function (func_code : string) (tree : pymod) :
  ast_parse func_code = Some tree ->
  (forall node, node ∈ statements tree -> is_function node = false) ->
  has_types func_code = Ok false /\ has_docstring func_code = Ok false.
Proof.
  intros Hparse Hnone. split.
  - unfold has_types, parse. rewrite Hparse. cbn [bind_result].
    assert (Hfind : List.find is_function (walk tree) = None).
    { apply find_is_function_None. intros node Hin. apply Hnone.
      now rewrite <- (walk_statements tree). }
    now rewrite Hfind.
  - unfold has_docstring, parse. rewrite Hparse. cbn [bind_result].
    destruct (has_docstring_loop (walk tree)) eqn:Hloop; [|reflexivity].
    destruct (has_docstring_loop_true _ Hloop) as (node & _ & Hin & Hfun & _).
    rewrite (walk_statements tree) in Hin.
    rewrite (Hnone node Hin) in Hfun. discriminate.
Qed.

End Checks.

(** ** [now_has_types] and [extract_names] *)

Lemma annotations_block_attributes (block : list stmt) :
  Forall (fun n => has_all_attributes (map_nodes without_annotations n)
                   = negb (existsb is_AnnAssign (subnodes n))) block ->
  forallb has_all_attributes (map (map_nodes without_annotations) block)
  = negb (existsb is_AnnAssign (flat_map subnodes block)).
Proof.
  induction 1 as [|n block Hn _ IH]; [reflexivity|].
  cbn [map forallb flat_map]. rewrite existsb_app, negb_orb, Hn, IH. reflexivity.
Qed.

(** After the loop of [now_has_types] a statement has all the attributes
    the unparser reads exactly when no annotated assignment is in it. *)
Lemma annotations_node_attributes (node : stmt) :
  has_all_attributes (map_nodes without_annotations node)
  = negb (existsb is_AnnAssign (subnodes node)).
Proof.
  induction node using stmt_nested_ind;
    cbn [map_nodes without_annotations has_all_attributes subnodes existsb
         is_AnnAssign orb];
    rewrite ?existsb_app, ?negb_orb, ?annotations_block_attributes by assumption;
    reflexivity.
Qed.

Section NowHasTypes.
Context {py : PythonAst}.

(** [now_has_types] never answers when its second text holds an
    annotated assignment, at any depth: the loop deletes the annotation,
    the unparser is called outside any [try], and the call ends with an
    exception, whatever the first text is. *)
Theorem now_has_types_annotated_assignment
    (code1 code2 : string) (tree2 : pymod) (node : stmt) :
  ast_parse code2 = Some tree2 ->
  node ∈ statements tree2 ->
  is_AnnAssign node = true ->
  exists e, now_has_types code1 code2 = Raise e.
Proof.
  intros H2 Hin Hann.
  unfold now_has_types, parse. rewrite H2.
  destruct (ast_parse code1) as [tree1|]; cbn [bind_result]; [|eauto].
  rewrite strip_annotations_spec, (parse_attributes _ _ H2). cbn [bind_result].
  destruct (unparse tree1) as [text1|e1]; cbn [bind_result]; [|eauto].
  destruct (unparse_attributes
              (PyModule (map (map_nodes without_annotations) (mod_body tree2))))
    as [e He].
  - cbn [mod_body].
    rewrite annotations_block_attributes
      by (apply Forall_forall; intros n _; apply annotations_node_attributes).
    apply negb_false_iff, existsb_exists. exists node.
    split; [now apply list_elem_of_In | exact Hann].
  - rewrite He. cbn [bind_result]. eauto.
Qed.

End NowHasTypes.







(** ** The requests of a run *)

Section Requests.
Context {py : PythonAst} {service : Backend}.

Lemma silent_ret {A} (a : A) : silent (ret a).
Proof. now intros w. Qed.

Lemma silent_raise {A} (e : exn) : silent (@raise A e).
Proof. now intros w. Qed.

Lemma silent_lift {A} (r : result A) : silent (lift r).
Proof. now intros w. Qed.

Lemma silent_print_end (text end_ : string) : silent (print_end text end_).
Proof. now intros w. Qed.

Lemma silent_print (text : string) : silent (print text).
Proof. now intros w. Qed.

Lemma silent_logging_error (text : string) : silent (logging_error text).
Proof. now intros w. Qed.

Lemma silent_bind {A B} (m : M A) (k : A -> M B) :
  silent m -> (forall a, silent (k a)) -> silent (bind m k).
Proof.
  intros Hm Hk w. unfold bind. specialize (Hm w).
  destruct (m w) as [[a|e] w1]; simpl in *; [|exact Hm].
  now rewrite Hk.
Qed.

Lemma sends_silent {A} (P : string -> Prop) (m : M A) :
  silent m -> sends_at_most P 0 m.
Proof.
  intros Hm w. exists []. split; [|split; [reflexivity | constructor]].
  rewrite app_nil_r. apply Hm.
Qed.

Lemma sends_more {A} (P : string -> Prop) (n n' : nat) (m : M A) :
  n <= n' -> sends_at_most P n m -> sends_at_most P n' m.
Proof.
  intros Hle Hm w. destruct (Hm w) as (new & Hreq & Hlen & HP).
  exists new. split; [exact Hreq | split; [lia | exact HP]].
Qed.

Lemma sends_bind {A B} (P : string -> Prop) (n n' : nat) (m : M A) (k : A -> M B) :
  sends_at_most P n m -> (forall a, sends_at_most P n' (k a)) ->
  sends_at_most P (n + n') (bind m k).
Proof.
  intros Hm Hk w. unfold bind.
  destruct (Hm w) as (new1 & Hreq1 & Hlen1 & HP1).
  destruct (m w) as [[a|e] w1]; simpl in *.
  - destruct (Hk a w1) as (new2 & Hreq2 & Hlen2 & HP2).
    exists (new1 ++ new2)%list. split; [|split].
    + now rewrite Hreq2, Hreq1, app_assoc.
    + rewrite length_app. lia.
    + now apply Forall_app.
  - exists new1. split; [exact Hreq1 | split; [lia | exact HP1]].
Qed.

(** After a call that sends nothing, the rest of the run is the one for
    the value the call returned. *)
Lemma sends_lift {A B} (P : string -> Prop) (n : nat) (r : result A) (k : A -> M B) :
  (forall a, r = Ok a -> sends_at_most P n (k a)) ->
  sends_at_most P n (bind (lift r) k).
Proof.
  intros Hk w. unfold bind, lift. destruct r as [a|e].
  - now apply Hk.
  - exists []. split; [now rewrite app_nil_r | split; [simpl; lia | constructor]].
Qed.

Lemma sends_get_comments (P : string -> Prop)
    (programming_language translate_text the_code : string) :
  P (prompt programming_language translate_text the_code) ->
  sends_at_most P 1 (get_comments programming_language translate_text the_code).
Proof.
  intros HP w. exists [prompt programming_language translate_text the_code].
  split; [|split; [reflexivity | now repeat constructor]].
  unfold get_comments, bind, create.
  destruct (ChatCompletion_create _ _); reflexivity.
Qed.

End Requests.

Ltac silent_step :=
  first
    [ apply silent_ret
    | apply silent_raise
    | apply silent_lift
    | apply silent_print
    | apply silent_print_end
    | apply silent_logging_error
    | apply silent_bind; [|intros ?]
    | match goal with
      | |- silent (match ?x with _ => _ end) => destruct x
      end
    | progress cbv zeta ].

Section RequestsDriver.
Context {py : PythonAst} {service : Backend}.
Variables (filename translate_text programming_language : string).

(** The validation and the replacement ask the service nothing. *)
Lemma silent_validate_and_replace
    (func_name the_code text : string) (vars : locals) :
  silent (validate_and_replace filename func_name the_code text vars).
Proof. unfold validate_and_replace. repeat silent_step. Qed.

(** An iteration sends at most one request, for the function of the
    loop. *)
Lemma sends_attempt (func_name : string) (tries : nat) (vars : locals) :
  sends_at_most (request_for programming_language translate_text func_name) 1
    (attempt filename translate_text programming_language func_name tries vars).
Proof.
  unfold attempt.
  apply (sends_bind _ 0 1); [apply sends_silent, silent_print_end|]. intros _.
  apply sends_lift. intros the_code Hsource.
  apply (sends_bind _ 0 1); [apply sends_silent, silent_lift|]. intros documented.
  apply (sends_bind _ 0 1).
  { apply sends_silent. destruct documented; [apply silent_lift | apply silent_ret]. }
  intros typed. destruct (documented && typed).
  - apply (sends_more _ 0); [lia|]. apply sends_silent. repeat silent_step.
  - apply (sends_bind _ 1 0).
    + apply sends_get_comments. now exists (code_var vars), the_code.
    + intros [text|].
      * apply sends_silent, silent_validate_and_replace.
      * apply sends_silent, silent_raise.
Qed.

(** The loop for one function sends at most as many requests as it has
    attempts left, each for that function. *)
Lemma sends_while_tries (func_name : string) (left : nat) (vars : locals) :
  sends_at_most (request_for programming_language translate_text func_name) left
    (while_tries filename translate_text programming_language func_name left vars).
Proof.
  revert vars. induction left as [|left IH]; intros vars; cbn [while_tries].
  - apply sends_silent, silent_ret.
  - apply (sends_bind _ 1 left); [apply sends_attempt|].
    intros [vars'|vars']; [|apply IH].
    apply (sends_more _ 0); [lia|]. apply sends_silent, silent_ret.
Qed.

Lemma within_budget_nil (names : list string) :
  Forall2 (within_budget programming_language translate_text) names
    (replicate (length names) []).
Proof.
  induction names as [|name names IH]; constructor; [|exact IH].
  split; [simpl; lia | constructor].
Qed.

Lemma concat_replicate_nil {A} (n : nat) : concat (replicate n (@nil A)) = [].
Proof. induction n as [|n IH]; [reflexivity | exact IH]. Qed.

(** The loop over the functions: the requests it sends come in groups,
    one for every function in turn, each within the budget of its
    function; a function after an exception has the empty group. *)
Lemma sends_for_functions (names : list string) (vars : locals) (w : world) :
  exists groups,
    requests
      (snd (for_functions filename translate_text programming_language names vars w))
    = (requests w ++ concat groups)%list
    /\ Forall2 (within_budget programming_language translate_text) names groups.
Proof.
  revert vars w. induction names as [|name names IH]; intros vars w;
    cbn [for_functions].
  - exists []. split; [now rewrite app_nil_r | constructor].
  - unfold bind.
    destruct (sends_while_tries name max_tries vars w) as (new & Hreq & Hlen & HP).
    destruct (while_tries _ _ _ name max_tries vars w) as [[vars'|e] w1];
      simpl in Hreq.
    + destruct (IH vars' w1) as (groups & Hrest & Hgroups).
      exists (new :: groups). split.
      * cbn [concat]. now rewrite Hrest, Hreq, app_assoc.
      * constructor; [split; assumption | exact Hgroups].
    + exists (new :: replicate (length names) []). split.
      * cbn [concat snd]. now rewrite concat_replicate_nil, app_nil_r.
      * constructor; [split; assumption | apply within_budget_nil].
Qed.

End RequestsDriver.

(** The requests of a run come in groups, one for every top-level
    function of the text, in the order of the text: a group holds at most
    [max_tries] requests, three, and each of them is the prompt for the
    source of its function.  A text that does not parse gets no
    request. *)
Theorem commentate_request_budget {py : PythonAst} {service : Backend}
    (filename code : string) (language : option string) (w : world) :
  exists groups,
    requests (snd (commentate filename code language w))
    = (requests w ++ concat groups)%list
    /\ Forall2
         (within_budget (get_language_from_file_name filename ++ " ")
            (translate_text_for language))
         match enumerate_functions code with
         | Ok names => names
         | Raise _ => []
         end
         groups.
Proof.
  unfold commentate, bind at 1, lift.
  destruct (enumerate_functions code) as [names|e].
  - destruct (sends_for_functions filename (translate_text_for language)
                (get_language_from_file_name filename ++ " ") names
                {| code_var := code; result_ast_var := None |} w)
      as (groups & Hreq & Hgroups).
    exists groups. split; [|exact Hgroups].
    unfold bind.
    destruct (for_functions _ _ _ names _ w) as [[vars|e] w1]; exact Hreq.
  - exists []. split; [now rewrite app_nil_r | constructor].
Qed.

(** ** Files that are not Python *)

Section OtherLanguage.
Context {py : PythonAst} {service : Backend}.
Variables (filename translate_text programming_language : string).
Hypothesis Hlanguage : get_language_from_file_name filename <> "Python".

(** The validation step of such a file always ends in an exception. *)
Lemma validate_and_replace_raises
    (func_name the_code text : string) (vars : locals) (w : world) :
  result_ast_var vars = None ->
  exists e,
    validate_and_replace filename func_name the_code text vars w = (Raise e, w).
Proof.
  intros Hunbound. unfold validate_and_replace, bind, lift.
  destruct (find_code_start text) as [k|e]; [|eauto].
  destruct (String.eqb_spec (get_language_from_file_name filename) "Python")
    as [Hpython|_]; [contradiction|].
  unfold ret. rewrite Hunbound. eauto.
Qed.

(** An iteration that ends without exception is one that found the
    docstring and the types in place. *)
Lemma attempt_other_language
    (func_name : string) (tries : nat) (vars : locals) (w w' : world)
    (outcome : flow) :
  result_ast_var vars = None ->
  attempt filename translate_text programming_language func_name tries vars w
  = (Ok outcome, w') ->
  outcome = Break vars /\ requests w' = requests w.
Proof.
  intros Hunbound. unfold attempt, bind at 1 2 3 4, lift, print_end.
  destruct (extract_function_source (code_var vars) func_name) as [the_code|];
    [|discriminate].
  destruct (has_docstring the_code) as [documented|]; [|discriminate].
  assert (Hrequest : forall w0,
    bind (get_comments programming_language translate_text the_code)
      (fun completion =>
         match completion with
         | Some text => validate_and_replace filename func_name the_code text vars
         | None => raise TypeError
         end) w0 <> (Ok outcome, w')).
  { intros w0. unfold get_comments, create.
    repeat (unfold bind; cbv beta iota zeta).
    destruct (ChatCompletion_create _ _) as [text| | |];
      cbv beta iota; unfold print, print_end, raise, ret; try discriminate.
    match goal with
    | |- context [validate_and_replace _ _ _ _ _ ?w1] =>
        destruct (validate_and_replace_raises func_name the_code text vars w1
                    Hunbound) as [e ->]
    end.
    discriminate. }
  destruct documented.
  - destruct (has_types the_code) as [typed|]; [|discriminate].
    destruct typed; cbn [andb].
    + unfold bind, print, print_end, ret. intros [= <- <-]. split; reflexivity.
    + intros H. now apply Hrequest in H.
  - unfold ret at 1. cbn [andb].
    intros H. now apply Hrequest in H.
Qed.

Lemma while_tries_other_language
    (func_name : string) (left : nat) (vars vars' : locals) (w w' : world) :
  result_ast_var vars = None ->
  while_tries filename translate_text programming_language func_name left vars w
  = (Ok vars', w') ->
  vars' = vars /\ requests w' = requests w.
Proof.
  intros Hunbound. destruct left as [|left]; cbn [while_tries].
  - unfold ret. intros [= <- <-]. split; reflexivity.
  - unfold bind.
    destruct (attempt _ _ _ _ _ _ w) as [[outcome|e] w1] eqn:Hattempt;
      [|discriminate].
    apply attempt_other_language in Hattempt as [-> Hrequests];
      [|exact Hunbound].
    unfold ret. intros [= <- <-]. split; [reflexivity | exact Hrequests].
Qed.

Lemma for_functions_other_language
    (names : list string) (vars vars' : locals) (w w' : world) :
  result_ast_var vars = None ->
  for_functions filename translate_text programming_language names vars w
  = (Ok vars', w') ->
  vars' = vars /\ requests w' = requests w.
Proof.
  intros Hunbound. revert w. induction names as [|name names IH]; intros w;
    cbn [for_functions].
  - unfold ret. intros [= <- <-]. split; reflexivity.
  - unfold bind.
    destruct (while_tries _ _ _ _ _ _ w) as [[vars1|e] w1] eqn:Hwhile;
      [|discriminate].
    apply while_tries_other_language in Hwhile as [-> Hrequests];
      [|exact Hunbound].
    intros [-> Hrest]%IH. split; [reflexivity | congruence].
Qed.

End OtherLanguage.

(** A file that is not Python is never changed: a run on it that ends
    without exception returns the text it was given and has asked the
    service nothing, so every request on such a file ends the run with
    an exception. *)
Theorem commentate_other_language {py : PythonAst} {service : Backend}
    (filename code : string) (language : option string) (w : world)
    (result : string) :
  get_language_from_file_name filename <> "Python" ->
  fst (commentate filename code language w) = Ok result ->
  result = code
  /\ requests (snd (commentate filename code language w)) = requests w.
Proof.
  intros Hlanguage. unfold commentate, bind, lift.
  destruct (enumerate_functions code) as [names|e]; [|discriminate].
  destruct (for_functions _ _ _ names _ w) as [[vars|e] w1] eqn:Hrun;
    [|discriminate].
  apply for_functions_other_language in Hrun as [-> Hrequests];
    [|exact Hlanguage|reflexivity].
  cbn [ret fst snd code_var]. intros [= <-]. split; [reflexivity | exact Hrequests].
Qed.

(** ** Only accepted candidates reach the file *)

Lemma bind_Ok {A B} (m : M A) (k : A -> M B) (w w' : world) (b : B) :
  bind m k w = (Ok b, w') ->
  exists a w1, m w = (Ok a, w1) /\ k a w1 = (Ok b, w').
Proof.
  unfold bind. destruct (m w) as [[a|e] w1]; [eauto|discriminate].
Qed.

Lemma lift_Ok {A} (r : result A) (w w' : world) (a : A) :
  lift r w = (Ok a, w') -> r = Ok a /\ w' = w.
Proof. unfold lift. now intros [= -> ->]. Qed.

Section Accepted.
Context {py : PythonAst} {service : Backend}.
Variables (filename translate_text programming_language : string).

Lemma validate_and_replace_accepts
    (func_name the_code text : string) (vars : locals) (w w' : world)
    (outcome : flow) :
  validate_and_replace filename func_name the_code text vars w = (Ok outcome, w') ->
  code_var (flow_vars outcome) = code_var vars
  \/ exists block original candidate,
       remove_code_before_function the_code = Ok original
       /\ remove_code_before_function block = Ok candidate
       /\ compare_python_code original candidate = Ok true
       /\ has_types block = Ok true
       /\ replace_function (code_var vars) func_name block
          = Ok (code_var (flow_vars outcome)).
Proof.
  intros H. unfold validate_and_replace in H.
  apply bind_Ok in H as (k & w1 & _ & H). cbv zeta in H.
  apply bind_Ok in H as (result_ast & w2 & _ & H).
  destruct result_ast as [bound|]; [|discriminate].
  apply bind_Ok in H as (code_block & w3 & Hblock & H).
  destruct code_block as [block|]; [|injection H as <- _; now left].
  destruct (String.eqb block EmptyString); [injection H as <- _; now left|].
  apply bind_Ok in H as (typed & w4 & [Htyped _]%lift_Ok & H).
  destruct typed.
  - apply bind_Ok in H as (_ & w5 & _ & H).
    apply bind_Ok in H as (code & w6 & [Hcode _]%lift_Ok & H).
    injection H as <- _. right.
    destruct bound as [tree|]; [|discriminate].
    apply bind_Ok in Hblock as (orig_ast & w7 & _ & Hblock).
    apply bind_Ok in Hblock as (original & w8 & [Horiginal _]%lift_Ok & Hblock).
    apply bind_Ok in Hblock as (candidate & w9 & [Hcandidate _]%lift_Ok & Hblock).
    apply bind_Ok in Hblock as (same & w10 & [Hsame _]%lift_Ok & Hblock).
    destruct same.
    + injection Hblock as <- _. cbn [flow_vars code_var] in *.
      eexists _, original, candidate. repeat split; eassumption.
    + apply bind_Ok in Hblock as (_ & w11 & _ & Hblock).
      apply bind_Ok in Hblock as (_ & w12 & _ & Hblock). discriminate.
  - apply bind_Ok in H as (_ & w5 & _ & H).
    apply bind_Ok in H as (_ & w6 & _ & H).
    injection H as <- _. now left.
Qed.

Lemma remove_code_before_function_parses (code : string) (x : string) :
  remove_code_before_function code = Ok x -> ast_parse code <> None.
Proof.
  unfold remove_code_before_function, parse.
  destruct (ast_parse code); [discriminate | intros [=]].
Qed.

Lemma attempt_accepts
    (func_name : string) (tries : nat) (vars : locals) (w w' : world)
    (outcome : flow) :
  attempt filename translate_text programming_language func_name tries vars w
  = (Ok outcome, w') ->
  rtc accepted_step (code_var vars) (code_var (flow_vars outcome)).
Proof.
  intros H. unfold attempt in H.
  apply bind_Ok in H as (_ & w1 & _ & H).
  apply bind_Ok in H as (the_code & w2 & [Hsource _]%lift_Ok & H).
  apply bind_Ok in H as (documented & w3 & _ & H).
  apply bind_Ok in H as (typed & w4 & _ & H).
  destruct (documented && typed).
  - apply bind_Ok in H as (_ & w5 & _ & H). injection H as <- _. reflexivity.
  - apply bind_Ok in H as (completion & w5 & _ & H).
    destruct completion as [text|]; [|discriminate].
    apply validate_and_replace_accepts in H
      as [->|(block & original & candidate & Horiginal & Hcandidate & Hsame
              & Htyped & Hcode)]; [reflexivity|].
    apply rtc_once. exists func_name, the_code, block, original, candidate.
    repeat split; try assumption.
    exact (remove_code_before_function_parses _ _ Hcandidate).
Qed.

Lemma while_tries_accepts
    (func_name : string) (left : nat) (vars vars' : locals) (w w' : world) :
  while_tries filename translate_text programming_language func_name left vars w
  = (Ok vars', w') ->
  rtc accepted_step (code_var vars) (code_var vars').
Proof.
  revert vars w. induction left as [|left IH]; intros vars w; cbn [while_tries].
  - intros [= <- _]. reflexivity.
  - intros (outcome & w1 & Hattempt%attempt_accepts & H)%bind_Ok.
    destruct outcome as [vars1|vars1]; cbn [flow_vars] in Hattempt.
    + injection H as <- _. exact Hattempt.
    + etrans; [exact Hattempt|]. exact (IH _ _ H).
Qed.

Lemma for_functions_accepts
    (names : list string) (vars vars' : locals) (w w' : world) :
  for_functions filename translate_text programming_language names vars w
  = (Ok vars', w') ->
  rtc accepted_step (code_var vars) (code_var vars').
Proof.
  revert vars w. induction names as [|name names IH]; intros vars w;
    cbn [for_functions].
  - intros [= <- _]. reflexivity.
  - intros (vars1 & w1 & Hwhile%while_tries_accepts & H)%bind_Ok.
    etrans; [exact Hwhile|]. exact (IH _ _ H).
Qed.

End Accepted.

(** The text [commentate] returns comes from the text it was given by
    replacements of functions, each by a candidate that parsed, compared
    equal to the source of the function it replaces and passed
    [has_types]: a rejected candidate never reaches the file. *)
Theorem commentate_accepted {py : PythonAst} {service : Backend}
    (filename code : string) (language : option string) (w : world)
    (result : string) :
  fst (commentate filename code language w) = Ok result ->
  rtc accepted_step code result.
Proof.
  destruct (commentate filename code language w) as [r w'] eqn:Hrun.
  cbn [fst]. intros ->. unfold commentate in Hrun.
  apply bind_Ok in Hrun as (names & w1 & _ & Hrun).
  apply bind_Ok in Hrun as (vars & w2 & Hfor%for_functions_accepts & Hrun).
  injection Hrun as <- _. exact Hfor.
Qed.

(** ** More on splicing *)

(** [update_args] changes the regular parameters only: the
    positional-only and keyword-only parameters, the starred ones and the
    defaults stay those of the old function, whatever the new one has. *)
Theorem update_args_other_parameters
    (old_function_ast new_function_ast : stmt) (a : arguments) :
  def_args old_function_ast = Some a ->
  exists a',
    def_args (update_args old_function_ast new_function_ast) = Some a'
    /\ args a' = args_of new_function_ast
    /\ posonlyargs a' = posonlyargs a
    /\ vararg a' = vararg a
    /\ kwonlyargs a' = kwonlyargs a
    /\ kw_defaults a' = kw_defaults a
    /\ kwarg a' = kwarg a
    /\ defaults a' = defaults a.
Proof.
  intros Ha. rewrite update_args_eq.
  exists (with_args a (args_of new_function_ast)).
  destruct old_function_ast; try discriminate; injection Ha as ->;
    repeat split; reflexivity.
Qed.

(** When the donor's function is a variant of the host's in docstrings
    and in the annotations the comparison ignores, the tree
    [replace_function] unparses is the host tree with the donor's
    definition in the place of the host's. *)
Theorem replace_function_variant {py : PythonAst}
    (program_str function_name new_function_str : string)
    (program_ast new_tree : pymod) (i j : nat)
    (function_node new_function_ast : stmt) :
  ast_parse program_str = Some program_ast ->
  find_function function_name (mod_body program_ast) = Some (i, function_node) ->
  ast_parse new_function_str = Some new_tree ->
  find_function function_name (mod_body new_tree) = Some (j, new_function_ast) ->
  variant false function_node new_function_ast ->
  replace_function_tree program_str function_name new_function_str
  = Ok (PyModule (<[i := new_function_ast]> (mod_body program_ast))).
Proof.
  intros Hhost Hnode Hdonor Hnew Hvariant.
  rewrite (replace_function_tree_eq _ _ _ _ _ _ _ _ _ Hhost Hnode Hdonor Hnew).
  rewrite variant_function_splice; [reflexivity | exact Hvariant|].
  apply find_function_Some in Hnode as (_ & Hnamed & _).
  now apply is_function_named_function in Hnamed.
Qed.

(** ** The normal form of the comparison *)

Lemma without_strings_idem (body : list stmt) :
  without_strings (without_strings body) = without_strings body.
Proof.
  induction body as [|n body IH]; [reflexivity|].
  simpl. destruct (is_Expr_Str n) eqn:Hn; simpl; rewrite ?Hn; simpl;
    now rewrite IH.
Qed.

Lemma undocumented_without_strings (body : list stmt) :
  undocumented (without_strings body) = without_strings body.
Proof.
  induction body as [|n body IH]; [reflexivity|].
  simpl. destruct (is_Expr_Str n) eqn:Hn; simpl; [exact IH|].
  destruct n as [| | | | | | | |e|]; try reflexivity.
  destruct e as [[]| | | | |]; try reflexivity. discriminate.
Qed.

Lemma clear_annotation_idem (l : list arg) :
  map clear_annotation (map clear_annotation l) = map clear_annotation l.
Proof. rewrite map_map. reflexivity. Qed.

Lemma strip_block_idem (block : list stmt) :
  Forall (fun n => map_nodes normal_node (map_nodes normal_node n)
                   = map_nodes normal_node n) block ->
  map (map_nodes normal_node) (map (map_nodes normal_node) block)
  = map (map_nodes normal_node) block.
Proof.
  induction 1 as [|n block Hn _ IH]; [reflexivity|].
  cbn [map]. now rewrite Hn, IH.
Qed.

Lemma Forall_undocumented (P : stmt -> Prop) (body : list stmt) :
  Forall P body -> Forall P (undocumented body).
Proof.
  intros H. destruct H as [|n body Hn Hbody]; [constructor|].
  destruct n as [| | | | | | | |e|]; try (now constructor).
  destruct e as [[]| | | | |]; try (now constructor). exact Hbody.
Qed.

Lemma strip_body_idem (body : list stmt) :
  Forall (fun n => map_nodes normal_node (map_nodes normal_node n)
                   = map_nodes normal_node n) body ->
  without_strings
    (map (map_nodes normal_node)
       (undocumented
          (without_strings (map (map_nodes normal_node) (undocumented body)))))
  = without_strings (map (map_nodes normal_node) (undocumented body)).
Proof.
  intros Hbody. rewrite undocumented_without_strings.
  rewrite <- without_strings_visits, without_strings_idem.
  rewrite strip_block_idem; [reflexivity|]. now apply Forall_undocumented.
Qed.

Lemma strip_node_idem (node : stmt) :
  map_nodes normal_node (map_nodes normal_node node) = map_nodes normal_node node.
Proof.
  induction node using stmt_nested_ind;
    rewrite ?strip_FunctionDef, ?strip_AsyncFunctionDef, ?strip_ClassDef,
      ?strip_While, ?strip_If;
    rewrite ?strip_FunctionDef, ?strip_AsyncFunctionDef, ?strip_ClassDef,
      ?strip_While, ?strip_If;
    rewrite ?strip_body_idem, ?strip_block_idem by assumption;
    try reflexivity.
  - f_equal. unfold with_args. cbn. now rewrite clear_annotation_idem.
  - f_equal. unfold with_args. cbn. now rewrite clear_annotation_idem.
  - destruct value as [[]| | | | |]; reflexivity.
Qed.

Lemma normal_form_idem (tree : pymod) :
  normal_form (normal_form tree) = normal_form tree.
Proof.
  rewrite !strip_tree_body. cbn [mod_body]. f_equal.
  apply strip_body_idem, Forall_forall. intros n _. apply strip_node_idem.
Qed.

(** The loop of [compare_python_code] brings a tree that has all its
    attributes, as the trees of the parser have, to a normal form.  Run
    again on its own result, it changes nothing more when the tree holds
    no annotated assignment, and raises [AttributeError] when it holds
    one, at the annotation the first run deleted. *)
Theorem strip_tree_idem (tree : pymod) :
  forallb has_all_attributes (mod_body tree) = true ->
  exists normal,
    strip_tree tree = Ok normal
    /\ strip_tree normal
       = if existsb is_AnnAssign (statements tree) then Raise AttributeError
         else Ok normal.
Proof.
  intros Hcomplete. exists (normal_form tree).
  rewrite !strip_tree_spec, Hcomplete, strip_tree_attributes, normal_form_idem.
  split; [reflexivity|].
  now destruct (existsb is_AnnAssign (statements tree)).
Qed.

(** ** Answers that do not parse *)

Section ParseFailures.
Context {py : PythonAst} {service : Backend}.
Variables (filename translate_text programming_language : string).
Hypothesis Hpython : get_language_from_file_name filename = "Python".

(** The service answers every request with a completion whose code block
    does not parse. *)
Hypothesis Hanswers :
  forall history content,
    exists text k,
      ChatCompletion_create history content = Completion text
      /\ find_code_start text = Ok k
      /\ ast_parse (code_block_at text k) = None.

Lemma attempt_parse_failure
    (func_name the_code : string) (tries : nat) (vars : locals) (w : world) :
  extract_function_source (code_var vars) func_name = Ok the_code ->
  (exists documented typed,
     has_docstring the_code = Ok documented
     /\ (documented = true -> has_types the_code = Ok typed)) ->
  exists outcome w',
    attempt filename translate_text programming_language func_name tries vars w
    = (Ok outcome, w')
    /\ code_var (flow_vars outcome) = code_var vars.
Proof.
  intros Hsource (documented & typed & Hdoc & Htyped).
  unfold attempt, bind at 1 2 3 4, lift, print_end.
  rewrite Hsource, Hdoc.
  assert (Hrequest : forall w0, exists outcome w',
    bind (get_comments programming_language translate_text the_code)
      (fun completion =>
         match completion with
         | Some text => validate_and_replace filename func_name the_code text vars
         | None => raise TypeError
         end) w0 = (Ok outcome, w')
    /\ code_var (flow_vars outcome) = code_var vars).
  { intros w0.
    destruct (Hanswers (requests w0)
                (prompt programming_language translate_text the_code))
      as (text & k & Hreply & Hstart & Hparse).
    unfold get_comments, create. repeat (unfold bind; cbv beta iota zeta).
    rewrite Hreply. cbv beta iota. unfold ret at 1. cbv beta iota.
    unfold validate_and_replace. repeat (unfold bind; cbv beta iota zeta).
    unfold lift at 1. rewrite Hstart. cbv beta iota.
    rewrite Hpython, String.eqb_refl.
    fold (code_block_at text k). rewrite Hparse.
    unfold print, print_end, logging_error, ret. cbv beta iota.
    eexists _, _. split; reflexivity. }
  destruct documented.
  - rewrite (Htyped eq_refl). destruct typed; cbn [andb].
    + unfold bind, print, print_end, ret. eexists _, _. split; reflexivity.
    + apply Hrequest.
  - unfold ret at 1. cbn [andb]. apply Hrequest.
Qed.

Lemma while_tries_parse_failure
    (func_name the_code : string) (left : nat) (vars : locals) (w : world) :
  extract_function_source (code_var vars) func_name = Ok the_code ->
  (exists documented typed,
     has_docstring the_code = Ok documented
     /\ (documented = true -> has_types the_code = Ok typed)) ->
  exists vars' w',
    while_tries filename translate_text programming_language func_name left vars w
    = (Ok vars', w')
    /\ code_var vars' = code_var vars.
Proof.
  intros Hsource Hchecks. revert vars w Hsource.
  induction left as [|left IH]; intros vars w Hsource; cbn [while_tries].
  - exists vars, w. split; reflexivity.
  - destruct (attempt_parse_failure func_name the_code (max_tries - left) vars w
                Hsource Hchecks) as (outcome & w1 & Hattempt & Hcode).
    unfold bind. rewrite Hattempt.
    destruct outcome as [vars1|vars1]; cbn [flow_vars] in Hcode.
    + exists vars1, w1. split; [reflexivity | exact Hcode].
    + destruct (IH vars1 w1) as (vars' & w' & Hrun & Hcode');
        [now rewrite Hcode|].
      exists vars', w'. split; [exact Hrun | congruence].
Qed.

Lemma for_functions_parse_failure
    (names : list string) (vars : locals) (w : world) :
  (forall name, name ∈ names ->
     exists the_code documented typed,
       extract_function_source (code_var vars) name = Ok the_code
       /\ has_docstring the_code = Ok documented
       /\ (documented = true -> has_types the_code = Ok typed)) ->
  exists vars' w',
    for_functions filename translate_text programming_language names vars w
    = (Ok vars', w')
    /\ code_var vars' = code_var vars.
Proof.
  revert vars w. induction names as [|name names IH]; intros vars w Hall;
    cbn [for_functions].
  - exists vars, w. split; reflexivity.
  - destruct (Hall name (list_elem_of_here _ _))
      as (the_code & documented & typed & Hsource & Hchecks).
    destruct (while_tries_parse_failure name the_code max_tries vars w Hsource)
      as (vars1 & w1 & Hwhile & Hcode); [eauto|].
    unfold bind. rewrite Hwhile.
    destruct (IH vars1 w1) as (vars' & w' & Hrun & Hcode').
    { intros n Hn. rewrite Hcode. apply Hall. now apply list_elem_of_further. }
    exists vars', w'. split; [exact Hrun | congruence].
Qed.

End ParseFailures.

(** When no answer of the service parses, a run on a Python file ends
    without exception and returns the text it was given: parse failures
    use up the attempts and leave every function as it was.  The text is
    one whose functions can be extracted and checked. *)
Theorem commentate_parse_failures_unchanged {py : PythonAst} {service : Backend}
    (filename code : string) (language : option string)
    (names : list string) (w : world) :
  get_language_from_file_name filename = "Python" ->
  (forall history content,
     exists text k,
       ChatCompletion_create history content = Completion text
       /\ find_code_start text = Ok k
       /\ ast_parse (code_block_at text k) = None) ->
  enumerate_functions code = Ok names ->
  (forall name, name ∈ names ->
     exists the_code documented typed,
       extract_function_source code name = Ok the_code
       /\ has_docstring the_code = Ok documented
       /\ (documented = true -> has_types the_code = Ok typed)) ->
  fst (commentate filename code language w) = Ok code.
Proof.
  intros Hpython Hanswers Hnames Hall.
  unfold commentate, bind at 1, lift. rewrite Hnames. unfold bind.
  destruct (for_functions_parse_failure filename (translate_text_for language)
              (get_language_from_file_name filename ++ " ") Hpython Hanswers names
              {| code_var := code; result_ast_var := None |} w Hall)
    as (vars' & w' & -> & Hcode).
  cbn [ret fst]. now rewrite Hcode.
Qed.

(** ** The further properties on the example texts *)

Lemma compare_python_code_annotated_assignment_witness :
  @compare_python_code example_python
    (text_of ["def f():"; "    y: int = 1"]) (text_of ["def f():"; "    pass"])
  = Ok false.
Proof.
  apply (compare_python_code_annotated_assignment (py := example_python)) with
    (tree1 := assigns "int") (tree2 := only_f)
    (node := AnnAssign (Name "y") (Some (Name "int")) (Some (Constant (CInt 1))) true).
  - reflexivity.
  - reflexivity.
  - left. apply list_elem_of_further, list_elem_of_here.
  - reflexivity.
Defined.

Lemma compare_python_code_trans_witness :
  @compare_python_code example_python
    (text_of ["def abs(n):";
              "    if n < 0:";
              "        return -n";
              "    else:";
              "        return n"])
    (text_of ["def abs(n):";
              "    if n < 0:";
              "        return -n";
              "    else:";
              "        return n"])
  = Ok true.
Proof.
  apply (compare_python_code_trans (py := example_python)) with
    (code2 := text_of ["def abs(n: int) -> int:";
                       "    " ++ triple_quote ++ "Absolute value." ++ triple_quote;
                       "    if n < 0:";
                       "        return -n";
                       "    else:";
                       "        return n"]);
    vm_compute; reflexivity.
Defined.

Lemma extract_function_ast_enumerated_witness :
  ("g" ∈ ["f"; "g"] ->
   exists node,
     @extract_function_ast example_python
       (text_of ["def f():"; "    pass"; EmptyString; "def g():"; "    pass"]) "g"
     = Ok node
     /\ def_name node = Some "g")
  /\ ("g" ∉ ["f"; "g"] ->
      @extract_function_ast example_python
        (text_of ["def f():"; "    pass"; EmptyString; "def g():"; "    pass"]) "g"
      = Raise ValueError).
Proof.
  apply (extract_function_ast_enumerated (py := example_python)).
  vm_compute. reflexivity.
Defined.

Lemma replace_function_tree_defined_witness :
  (exists tree,
     @replace_function_tree example_python
       (text_of ["x = 1"; EmptyString; "def f(a, b):"; "    pass"]) "f"
       (text_of ["def f(a: int):"; "    pass"]) = Ok tree)
  <-> "f" ∈ ["f"] /\ "f" ∈ ["f"].
Proof.
  apply (replace_function_tree_defined (py := example_python));
    vm_compute; reflexivity.
Defined.

Lemma replace_function_missing_in_host_witness :
  @replace_function example_python (text_of ["def f():"; "    pass"]) "g" "def f(:"
  = Raise ValueError.
Proof.
  apply (replace_function_missing_in_host (py := example_python)) with
    (names := ["f"]).
  - vm_compute. reflexivity.
  - intros [H|H]%elem_of_cons; [discriminate | inversion H].
Defined.

Lemma replace_function_tree_names_witness :
  omap def_name
    (mod_body
       (PyModule [Assign [Name "x"] (Constant (CInt 1));
                  FunctionDef "f" (params [typed "a" "int"]) [Pass] [] None]))
  = omap def_name (mod_body two_params).
Proof.
  apply (replace_function_tree_names (py := example_python)
           (text_of ["x = 1"; EmptyString; "def f(a, b):"; "    pass"]) "f"
           (text_of ["def f(a: int):"; "    pass"]));
    vm_compute; reflexivity.
Defined.

Lemma find_code_start_blank_witness :
  find_code_start ("  " ++ newline ++ " ") = Raise IndexError.
Proof. apply find_code_start_blank. reflexivity. Defined.

Lemma fenced_code_block_witness :
  find_code_start
    (fence ++ "python" ++ newline ++ ("def f():" ++ newline) ++ fence ++ EmptyString)
  = Ok (Z.of_nat (String.length "python") + 3)%Z
  /\ code_block_at
       (fence ++ "python" ++ newline ++ ("def f():" ++ newline) ++ fence ++ EmptyString)
       (Z.of_nat (String.length "python") + 3)
     = newline ++ "def f():" ++ newline.
Proof.
  apply fenced_code_block; [discriminate | reflexivity | reflexivity].
Defined.

Lemma get_language_from_file_name_Python_witness :
  get_language_from_file_name ("archive.tar" ++ "." ++ "py") = "Python"
  <-> "py" = "py".
Proof. apply get_language_from_file_name_Python. reflexivity. Defined.

Lemma remove_code_before_function_lines_witness :
  @remove_code_before_function example_python (text_of ["def f():"; "    pass"])
  = Ok (text_of
          (drop (@def_lineno example_python (text_of ["def f():"; "    pass"]) - 1)
             ["def f():"; "    pass"]))
  /\ (@def_lineno example_python (text_of ["def f():"; "    pass"]) = 1 ->
      @remove_code_before_function example_python (text_of ["def f():"; "    pass"])
      = Ok (text_of ["def f():"; "    pass"])).
Proof.
  apply (remove_code_before_function_lines (py := example_python)) with
    (tree := only_f) (node := FunctionDef "f" (params []) [Pass] [] None).
  - reflexivity.
  - reflexivity.
  - repeat constructor.
  - discriminate.
Defined.

Lemma remove_code_before_function_no_function_witness :
  @remove_code_before_function more_python "x = 1" = Ok "x = 1".
Proof.
  apply (remove_code_before_function_no_function (py := more_python)) with
    (tree := only_assignment).
  - reflexivity.
  - intros node [->|H]%elem_of_cons; [reflexivity | inversion H].
Defined.

Lemma has_docstring_true_witness :
  exists node body,
    node ∈ statements identity_documented /\ is_function node = true
    /\ def_body node = Some body /\ opens_with_text body.
Proof.
  apply (has_docstring_true (py := example_python)) with
    (func_code := text_of ["def f(n: int) -> int:";
                           "    " ++ triple_quote ++ "Return n." ++ triple_quote;
                           "    return n"]);
    vm_compute; reflexivity.
Defined.

Lemma checks_without_function_witness :
  @has_types more_python "x = 1" = Ok false
  /\ @has_docstring more_python "x = 1" = Ok false.
Proof.
  apply (checks_without_function (py := more_python)) with
    (tree := only_assignment).
  - reflexivity.
  - intros node [->|H]%elem_of_cons; [reflexivity | inversion H].
Defined.

Lemma now_has_types_annotated_assignment_witness :
  exists e,
    @now_has_types example_python
      (text_of ["def f():"; "    pass"]) (text_of ["def f():"; "    y: int = 1"])
    = Raise e.
Proof.
  apply (now_has_types_annotated_assignment (py := example_python)) with
    (tree2 := assigns "int")
    (node := AnnAssign (Name "y") (Some (Name "int")) (Some (Constant (CInt 1))) true).
  - reflexivity.
  - apply list_elem_of_further, list_elem_of_here.
  - reflexivity.
Defined.



Lemma commentate_other_language_witness :
  text_of ["def f(n: int) -> int:";
           "    " ++ triple_quote ++ "Return n." ++ triple_quote;
           "    return n"]
  = text_of ["def f(n: int) -> int:";
             "    " ++ triple_quote ++ "Return n." ++ triple_quote;
             "    return n"]
  /\ requests
       (snd (@commentate example_python (always APIError) "notes.txt"
               (text_of ["def f(n: int) -> int:";
                         "    " ++ triple_quote ++ "Return n." ++ triple_quote;
                         "    return n"]) None empty_world))
     = requests empty_world.
Proof.
  apply (commentate_other_language (py := example_python)
           (service := always APIError)).
  - vm_compute. discriminate.
  - vm_compute. reflexivity.
Defined.

Lemma commentate_accepted_witness :
  rtc (@accepted_step example_python)
    (text_of ["def abs(n):";
              "    if n < 0:";
              "        return -n";
              "    else:";
              "        return n"])
    (text_of ["def abs(n: int) -> int:";
              "    " ++ triple_quote ++ "Absolute value." ++ triple_quote;
              "    if n < 0:";
              "        return -n";
              "    else:";
              "        return n"]).
Proof.
  apply (commentate_accepted (py := example_python)
           (service := always (Completion
                                 (text_of ["```python";
                                           "def abs(n: int) -> int:";
                                           "    " ++ triple_quote ++ "Absolute value."
                                           ++ triple_quote;
                                           "    if n < 0:";
                                           "        return -n";
                                           "    else:";
                                           "        return n";
                                           "```"])))
           "abs.py" _ None empty_world).
  vm_compute. reflexivity.
Defined.

Lemma update_args_other_parameters_witness :
  exists a',
    def_args
      (update_args
         (FunctionDef "f" (posonly_params [untyped "x"]) [Pass] [] None)
         (FunctionDef "f" (params [typed "a" "int"]) [Pass] [] None)) = Some a'
    /\ args a' = args_of (FunctionDef "f" (params [typed "a" "int"]) [Pass] [] None)
    /\ posonlyargs a' = posonlyargs (posonly_params [untyped "x"])
    /\ vararg a' = vararg (posonly_params [untyped "x"])
    /\ kwonlyargs a' = kwonlyargs (posonly_params [untyped "x"])
    /\ kw_defaults a' = kw_defaults (posonly_params [untyped "x"])
    /\ kwarg a' = kwarg (posonly_params [untyped "x"])
    /\ defaults a' = defaults (posonly_params [untyped "x"]).
Proof. apply update_args_other_parameters. reflexivity. Defined.

Lemma replace_function_variant_witness :
  @replace_function_tree example_python
    (text_of ["def abs(n):";
              "    if n < 0:";
              "        return -n";
              "    else:";
              "        return n"]) "abs"
    (text_of ["def abs(n: int) -> int:";
              "    " ++ triple_quote ++ "Absolute value." ++ triple_quote;
              "    if n < 0:";
              "        return -n";
              "    else:";
              "        return n"])
  = Ok (PyModule
          (<[0 := FunctionDef "abs" (params [typed "n" "int"])
                    (Expr (Constant (CStr "Absolute value.")) :: abs_body) []
                    (Some (Name "int"))]> (mod_body abs_plain))).
Proof.
  apply (replace_function_variant (py := example_python)) with
    (new_tree := abs_documented) (j := 0)
    (function_node := FunctionDef "abs" (params [untyped "n"]) abs_body [] None).
  - reflexivity.
  - reflexivity.
  - reflexivity.
  - reflexivity.
  - check_variant.
Defined.

Lemma commentate_parse_failures_unchanged_witness :
  fst (@commentate example_python (always (Completion "def f(:")) "a.py"
         (text_of ["def f():"; "    pass"]) None empty_world)
  = Ok (text_of ["def f():"; "    pass"]).
Proof.
  apply (commentate_parse_failures_unchanged (py := example_python)
           (service := always (Completion "def f(:"))) with (names := ["f"]).
  - vm_compute. reflexivity.
  - intros history content. exists "def f(:", (-1)%Z.
    repeat split; vm_compute; reflexivity.
  - vm_compute. reflexivity.
  - intros name [->|H]%elem_of_cons; [|inversion H].
    exists (text_of ["def f():"; "    pass"]), false, false.
    split; [vm_compute; reflexivity|]. split; [vm_compute; reflexivity|].
    discriminate.
Defined.

Lemma strip_tree_idem_witness :
  exists normal,
    strip_tree (assigns "int") = Ok normal
    /\ strip_tree normal
       = if existsb is_AnnAssign (statements (assigns "int"))
         then Raise AttributeError else Ok normal.
Proof. apply strip_tree_idem. reflexivity. Defined.

Lemma compare_python_code_sym_witness :
  @compare_python_code example_python
    (text_of ["def abs(n: int) -> int:";
              "    " ++ triple_quote ++ "Absolute value." ++ triple_quote;
              "    if n < 0:";
              "        return -n";
              "    else:";
              "        return n"])
    (text_of ["def abs(n):";
              "    if n < 0:";
              "        return -n";
              "    else:";
              "        return n"])
  = Ok true.
Proof.
  apply (compare_python_code_sym (py := example_python)).
  vm_compute. reflexivity.
Defined.

Lemma compare_python_code_unparseable_witness :
  @compare_python_code example_python
    (text_of ["def f():"; "    pass"]) "    def f(:"
  = Raise (@parse_error example_python
             match @ast_parse example_python (text_of ["def f():"; "    pass"]) with
             | None => text_of ["def f():"; "    pass"]
             | Some _ => "    def f(:"
             end).
Proof.
  apply (compare_python_code_unparseable (py := example_python)).
  right. reflexivity.
Defined.
